(** * sapphire.analysis.process_events: a shallow embedding

    The development follows [sapphire/analysis/process_events.py]: the trace
    decoder, the two arrival-time reconstructors, the MIP peak finder and the
    batch pipeline that stages results in [_t_events] and publishes them.

    Conventions of the embedding.
    - Python and NumPy integers are [Z]; the source never relies on
      wrap-around, ADC samples being far inside the machine range.
    - Floating-point values are [pyfloat]: not-a-number, the two infinities,
      or an exact rational.  Arithmetic on finite values is exact, so the
      model idealises binary64 rounding; special values follow IEEE 754 as
      NumPy applies it (division by zero gives an infinity or not-a-number).
    - The PyTables group is an ordered list of named children; every child
      carries the identity of its node, and Python handles ([self.source],
      [self._tmp_events]) are such identities, so that a handle follows its
      node through a rename and dangles after a removal.
    - Exceptions are values of [exn]; a raising computation returns the
      state in which it raised. *)

From Stdlib Require Import ZArith QArith Lqa List String Ascii Bool Lia Arith.
From Stdlib Require Import DecimalString DecimalZ DecimalPos.
Import ListNotations.

Close Scope Q_scope.
Open Scope Z_scope.

(* ================================================================== *)
(** ** Numbers *)

Inductive pyfloat : Type :=
| NaN
| PInf
| NInf
| Fin (q : Q).

Definition of_int (z : Z) : pyfloat := Fin (inject_Z z).

Definition isnan (x : pyfloat) : bool :=
  match x with NaN => true | _ => false end.

(** Sign of a rational: [Gt] positive, [Lt] negative, [Eq] zero. *)
Definition Qsign (q : Q) : comparison := Qcompare q (inject_Z 0).

Definition inf_of_sign (s : comparison) : pyfloat :=
  match s with Gt => PInf | Lt => NInf | Eq => NaN end.

Definition sign_mul (s t : comparison) : comparison :=
  match s, t with
  | Eq, _ | _, Eq => Eq
  | Gt, Gt | Lt, Lt => Gt
  | _, _ => Lt
  end.

Definition fsign (x : pyfloat) : comparison :=
  match x with
  | NaN => Eq
  | PInf => Gt
  | NInf => Lt
  | Fin q => Qsign q
  end.

Definition fmul (x y : pyfloat) : pyfloat :=
  match x, y with
  | NaN, _ | _, NaN => NaN
  | Fin a, Fin b => Fin (a * b)
  | _, _ => inf_of_sign (sign_mul (fsign x) (fsign y))
  end.

Definition fadd (x y : pyfloat) : pyfloat :=
  match x, y with
  | NaN, _ | _, NaN => NaN
  | Fin a, Fin b => Fin (a + b)
  | PInf, NInf | NInf, PInf => NaN
  | PInf, _ | _, PInf => PInf
  | NInf, _ | _, NInf => NInf
  end.

(** NumPy true division of floats: a zero divisor gives an infinity with the
    sign of the dividend, or not-a-number for [0 / 0]. *)
Definition fdiv (x y : pyfloat) : pyfloat :=
  match x, y with
  | NaN, _ | _, NaN => NaN
  | Fin a, Fin b =>
      match Qsign b with
      | Eq => inf_of_sign (Qsign a)
      | _ => Fin (a / b)
      end
  | Fin _, _ => Fin (inject_Z 0)
  | _, Fin b =>
      match Qsign b with
      | Lt => inf_of_sign (sign_mul (fsign x) Lt)
      | _ => x
      end
  | _, _ => NaN
  end.

Definition ADC_THRESHOLD : Z := 20.

Definition ADC_TIME_PER_SAMPLE : Q := 2.5e-9%Q.

(* ================================================================== *)
(** ** Sequences the Python way *)

(** [l[i]] for a Python list or NumPy vector: a negative index counts from
    the end; [None] stands for [IndexError]. *)
Definition py_index {A} (l : list A) (i : Z) : option A :=
  let n := Z.of_nat (List.length l) in
  if i <? - n then None
  else if i <? 0 then nth_error l (Z.to_nat (i + n))
  else nth_error l (Z.to_nat i).

(** [l[i] = v] on an index inside the list. *)
Fixpoint set_nth {A} (l : list A) (i : nat) (v : A) : list A :=
  match l, i with
  | [], _ => []
  | _ :: r, O => v :: r
  | a :: r, S j => a :: set_nth r j v
  end.

(** [l[:k]] with [k = None] for an absent bound. *)
Definition slice_to {A} (k : option nat) (l : list A) : list A :=
  match k with
  | None => l
  | Some n => firstn n l
  end.

(* ================================================================== *)
(** ** Trace decoding: the text layer of [_get_trace] *)

Definition comma : ascii := ","%char.

(** [s.split(',')]: every comma separates two fields, so that the empty
    string has one (empty) field. *)
Fixpoint split_commas (s : string) : list string :=
  match s with
  | EmptyString => [EmptyString]
  | String c r =>
      if Ascii.eqb c comma then EmptyString :: split_commas r
      else match split_commas r with
           | f :: fs => String c f :: fs
           | [] => [String c EmptyString]
           end
  end.

Definition is_space (c : ascii) : bool :=
  let n := nat_of_ascii c in
  (n =? 32)%nat || ((9 <=? n)%nat && (n <=? 13)%nat).

Fixpoint lstrip (s : string) : string :=
  match s with
  | String c r => if is_space c then lstrip r else s
  | EmptyString => EmptyString
  end.

(** [rstrip] as a right fold: trailing blanks vanish, inner ones stay. *)
Fixpoint rstrip (s : string) : string :=
  match s with
  | EmptyString => EmptyString
  | String c r =>
      match rstrip r with
      | EmptyString => if is_space c then EmptyString else String c EmptyString
      | r' => String c r'
      end
  end.

Definition digit_of (c : ascii) : option Z :=
  let n := nat_of_ascii c in
  if (48 <=? n)%nat && (n <=? 57)%nat then Some (Z.of_nat (n - 48)) else None.

Fixpoint digits_value (acc : Z) (s : string) : option Z :=
  match s with
  | EmptyString => Some acc
  | String c r =>
      match digit_of c with
      | Some d => digits_value (10 * acc + d) r
      | None => None
      end
  end.

Definition unsigned_value (s : string) : option Z :=
  match s with
  | EmptyString => None
  | _ => digits_value 0 s
  end.

(** [int(x)] on a Python 2 string: surrounding blanks are ignored, one sign
    is allowed, at least one decimal digit is required; [None] stands for
    [ValueError]. *)
Definition py_int (x : string) : option Z :=
  match rstrip (lstrip x) with
  | EmptyString => None
  | String c r as s =>
      if Ascii.eqb c "-"%char then option_map Z.opp (unsigned_value r)
      else if Ascii.eqb c "+"%char then unsigned_value r
      else unsigned_value s
  end.

(** [[int(x) for x in trace]] *)
Fixpoint ints_of_fields (fs : list string) : option (list Z) :=
  match fs with
  | [] => Some []
  | f :: r =>
      match py_int f with
      | None => None
      | Some z => option_map (cons z) (ints_of_fields r)
      end
  end.

(** [if trace[-1] == '': del trace[-1]] *)
Definition drop_trailing_empty (fs : list string) : list string :=
  match py_index fs (-1) with
  | Some EmptyString => removelast fs
  | _ => fs
  end.

(** What [_get_trace] does with the decompressed text. *)
Definition parse_trace (text : string) : option (list Z) :=
  ints_of_fields (drop_trailing_empty (split_commas text)).

(* ================================================================== *)
(** ** Arrival-time reconstruction *)

(** The loop of [ProcessEvents._reconstruct_time_from_trace]: [enumerate]
    gives the counter [i]; the first sample at or above threshold fixes
    [value] and breaks. *)
Fixpoint nearest_scan (threshold : Z) (i : Z) (samples : list Z) : pyfloat :=
  match samples with
  | [] => NaN
  | t :: rest =>
      if threshold <=? t then of_int i
      else nearest_scan threshold (i + 1) rest
  end.

Definition _reconstruct_time_from_trace (trace : list Z) (baseline : Z)
  : pyfloat :=
  let threshold := baseline + ADC_THRESHOLD in
  let value := nearest_scan threshold 0 trace in
  fmul value (Fin ADC_TIME_PER_SAMPLE).

(** [trace[x]] inside the interpolation; the scan only asks for indexes
    from [-1] up to the current one, which exist (see [lint_lookup_total]),
    so the [IndexError] branch is dead and its value immaterial. *)
Definition sample_at (trace : list Z) (x : Z) : Z :=
  match py_index trace x with
  | Some y => y
  | None => 0
  end.

(** The loop of [ProcessEventsWithLINT._reconstruct_time_from_trace]. *)
Fixpoint lint_scan (trace : list Z) (threshold : Z) (i : Z) (samples : list Z)
  : pyfloat :=
  match samples with
  | [] => NaN
  | t :: rest =>
      if threshold <=? t then
        let x0 := i - 1 in
        let x1 := i in
        let y0 := sample_at trace x0 in
        let y1 := sample_at trace x1 in
        fadd (fdiv (fmul (Fin (inject_Z 1)) (of_int (threshold - y0)))
                   (of_int (y1 - y0)))
             (of_int x0)
      else lint_scan trace threshold (i + 1) rest
  end.

Definition _reconstruct_time_from_trace_LINT (trace : list Z) (baseline : Z)
  : pyfloat :=
  let threshold := baseline + ADC_THRESHOLD in
  let value := lint_scan trace threshold 0 trace in
  fmul value (Fin ADC_TIME_PER_SAMPLE).

(* ================================================================== *)
(** ** Exceptions and detector slots *)

Inductive exn : Type :=
| RuntimeError (msg : string)
| ValueError (msg : string)
| IndexError
| TypeError
| AttributeError
| UnboundLocalError
| ZlibError
| NodeError
| NoSuchNodeError
| ClosedNodeError.

Inductive result (A : Type) : Type :=
| Done (a : A)
| Fail (e : exn).
Arguments Done {A} a.
Arguments Fail {A} e.

Definition of_option {A} (e : exn) (o : option A) : result A :=
  match o with
  | Some a => Done a
  | None => Fail e
  end.

Definition rbind {A B} (r : result A) (k : A -> result B) : result B :=
  match r with
  | Done a => k a
  | Fail e => Fail e
  end.

Declare Scope result_scope.
Delimit Scope result_scope with result.
Notation "'let?' x := r 'in' k" := (rbind r (fun x => k))
  (at level 10, x pattern, r at level 100, k at level 200) : result_scope.

(** A column of shape 4: one entry for each detector of the station. *)
Record det4 (A : Type) : Type := Det4 { d1 : A; d2 : A; d3 : A; d4 : A }.
Arguments Det4 {A} d1 d2 d3 d4.
Arguments d1 {A} d.
Arguments d2 {A} d.
Arguments d3 {A} d.
Arguments d4 {A} d.

Definition det4_list {A} (d : det4 A) : list A := [d1 d; d2 d; d3 d; d4 d].

Definition det4_map2 {A B C} (f : A -> B -> C) (a : det4 A) (b : det4 B)
  : det4 C :=
  Det4 (f (d1 a) (d1 b)) (f (d2 a) (d2 b)) (f (d3 a) (d3 b)) (f (d4 a) (d4 b)).

Definition det4_map {A B} (f : A -> B) (a : det4 A) : det4 B :=
  Det4 (f (d1 a)) (f (d2 a)) (f (d3 a)) (f (d4 a)).

(** Detector [idx] of [range(4)]. *)
Definition det4_get {A} (idx : nat) (d : det4 A) : option A :=
  nth_error (det4_list d) idx.

(* ================================================================== *)
(** ** MIP peak finder: NumPy helpers *)

(** [np.arange(start, stop, step)] for a positive integer step. *)
Definition arange (start stop step : Z) : list Z :=
  map (fun k => start + step * Z.of_nat k)
      (seq 0 (Z.to_nat ((stop - start + step - 1) / step))).

Definition count_if {A} (p : A -> bool) (l : list A) : Z :=
  Z.of_nat (List.length (filter p l)).

(** [np.histogram(a, bins=bins)[0]] for increasing edges: half-open bins,
    the last one closed on the right. *)
Fixpoint histogram (a : list Z) (bins : list Z) : list Z :=
  match bins with
  | lo :: (hi :: more) as rest =>
      let last := match more with [] => true | _ => false end in
      count_if (fun v => (lo <=? v) && ((v <? hi) || (last && (v =? hi)))) a
      :: histogram a rest
  | _ => []
  end.

Fixpoint zip_with {A B C} (f : A -> B -> C) (l : list A) (m : list B)
  : list C :=
  match l, m with
  | a :: l', b :: m' => f a b :: zip_with f l' m'
  | _, _ => []
  end.

Definition zsum (l : list Z) : Z := fold_left Z.add l 0.

Definition qsum (l : list Q) : Q := fold_left Qplus l (inject_Z 0).

(** [(bins[:-1] + bins[1:]) / 2] on integer edges: Python 2 floor division. *)
Definition bin_centres (bins : list Z) : list Z :=
  zip_with (fun a b => (a + b) / 2) (removelast bins) (tl bins).

Definition Qltb (a b : Q) : bool :=
  match Qcompare a b with Lt => true | _ => false end.

(** [v.reshape(len(v) / 2, 2)], row by row. *)
Fixpoint pairs {A} (l : list A) : list (A * A) :=
  match l with
  | a :: b :: r => (a, b) :: pairs r
  | _ => []
  end.

(** [reshape(len / 2, 2).mean(axis=1)] *)
Definition pair_means (l : list Q) : list Q :=
  map (fun p => ((fst p + snd p) / inject_Z 2)%Q) (pairs l).

(** [np.diff] *)
Definition diff (l : list Q) : list Q :=
  zip_with (fun a b => (b - a)%Q) l (tl l).

(** Entry [n] of the full discrete convolution of [a] and [v]. *)
Definition convolve_at (a v : list Q) (n : nat) : Q :=
  qsum (map (fun k => (nth k a (inject_Z 0) * nth (n - k) v (inject_Z 0))%Q)
            (seq 0 (S n))).

(** [np.convolve(a, v, "same")]: the centred part, as long as the longer
    argument, of the full convolution; [None] for an empty argument, where
    NumPy raises [ValueError]. *)
Definition convolve_same (a v : list Q) : option (list Q) :=
  let m := List.length a in
  let n := List.length v in
  match m, n with
  | O, _ | _, O => None
  | _, _ =>
      let short := Nat.min m n in
      let n_left := (short / 2)%nat in
      let first := (short - 1 - n_left)%nat in
      Some (map (convolve_at a v) (seq first (Nat.max m n)))
  end.

(* ================================================================== *)
(** ** MIP peak finder: the window heuristic *)

(** The loop of [findBinNextMinimum]; running past the end of [y] is the
    [IndexError] of [y[len(y)]]. *)
Fixpoint next_minimum_scan (minY : Q) (i : nat) (rest : list Q)
  : option nat :=
  match rest with
  | [] => None
  | currentY :: more =>
      if Qltb currentY minY then next_minimum_scan currentY (S i) more
      else if Qltb minY currentY then Some (i - 1)%nat
      else next_minimum_scan minY (S i) more
  end.

Definition findBinNextMinimum (y : list Q) (startBin : nat) : option nat :=
  match nth_error y startBin with
  | None => None
  | Some minY => next_minimum_scan minY startBin (skipn startBin y)
  end.

Fixpoint next_maximum_scan (maxY : Q) (i : nat) (rest : list Q)
  : option nat :=
  match rest with
  | [] => None
  | currentY :: more =>
      if Qltb maxY currentY then next_maximum_scan currentY (S i) more
      else if Qltb currentY maxY then Some (i - 1)%nat
      else next_maximum_scan maxY (S i) more
  end.

Definition findBinNextMaximum (y : list Q) (startBin : nat) : option nat :=
  match nth_error y startBin with
  | None => None
  | Some maxY => next_maximum_scan maxY startBin (skipn startBin y)
  end.

(** [np.sum(y[i:i+n])] *)
Definition window_sum (y : list Z) (i n : nat) : Z :=
  zsum (firstn n (skipn i y)).

(** [smooth_forward]: [range(0, len(y) - n)] windows, each averaged with
    the floor division of Python 2 integers. *)
Definition smooth_forward (y : list Z) (n : nat) : list Z :=
  map (fun i => window_sum y i n / Z.of_nat n)
      (seq 0 (List.length y - n)).

(** The value of [i] when [for i in range(len): if x[i] > 120: break] is
    left, scanning from [i]: [Done None] when the range is empty and [i]
    was never bound. *)
Fixpoint cut_index (x : list Z) (i : nat) (remaining : nat)
  : result (option nat) :=
  match remaining with
  | O => Done None
  | S O =>
      match nth_error x i with
      | None => Fail IndexError
      | Some _ => Done (Some i)
      end
  | S more =>
      match nth_error x i with
      | None => Fail IndexError
      | Some xi => if 120 <? xi then Done (Some i) else cut_index x (S i) more
      end
  end.

(** The cut of the smoothed occurrences in [getFitParameters]: the loop
    only looks for the index, the assignment [y_smoothed[i] = 0] follows
    it once. *)
Definition cut_smoothed (x : list Z) (y_smoothed : list Z)
  : result (list Z) :=
  (let? found := cut_index x 0 (List.length y_smoothed) in
   match found with
   | None => Fail UnboundLocalError
   | Some i => Done (set_nth y_smoothed i 0)
   end)%result.

(** The second loop of [getFitParameters]: [y_diff[i] = 0] until the
    rebinned value passes 120. *)
Fixpoint cut_diff (x_rebinned : list Q) (i : nat) (y_diff : list Q)
  : result (list Q) :=
  match y_diff with
  | [] => Done []
  | d :: rest =>
      match nth_error x_rebinned i with
      | None => Fail IndexError
      | Some xi =>
          if Qltb (inject_Z 120) xi then Done y_diff
          else (let? rest' := cut_diff x_rebinned (S i) rest in
                Done (inject_Z 0 :: rest'))%result
      end
  end.

Definition pad_odd {A} (l : list A) (v : A) : list A :=
  if Nat.odd (List.length l) then l ++ [v] else l.

Definition getFitParameters (x : list Z) (y : list Z) : result (Q * Q * Q) :=
  (let? x0 := of_option IndexError (py_index x 0) in
   let? x1 := of_option IndexError (py_index x 1) in
   let bias := (x1 - x0) * 2 in
   let? x_last := of_option IndexError (py_index x (-1)) in
   let x_rebinned := pair_means (map inject_Z (pad_odd x (x_last + x1 - x0))) in
   let y_smoothed := smooth_forward y 5 in
   let? y_smoothed := cut_smoothed x y_smoothed in
   let y_smoothed := pad_odd (map inject_Z y_smoothed) (inject_Z 0) in
   let y_smoothed_rebinned :=
     map (Qmult (inject_Z 2)) (pair_means y_smoothed) in
   let y_diff := diff y_smoothed_rebinned in
   let? y_diff := cut_diff x_rebinned 0 y_diff in
   let? y_diff_smoothed :=
     of_option (ValueError "v cannot be empty")
       (convolve_same y_diff (repeat 0.2%Q 5)) in
   let? binMinimum :=
     of_option IndexError (findBinNextMinimum y_diff_smoothed 0) in
   let? binMaximum :=
     of_option IndexError (findBinNextMaximum y_diff_smoothed binMinimum) in
   let? binMinimum :=
     of_option IndexError (findBinNextMinimum y_diff_smoothed binMaximum) in
   let? maxX := of_option IndexError (nth_error x_rebinned binMaximum) in
   let? minX := of_option IndexError (nth_error x_rebinned binMinimum) in
   Done (((maxX + minX) / inject_Z 2 + inject_Z bias)%Q,
         (maxX + inject_Z bias)%Q,
         (minX + inject_Z bias)%Q))%result.

(* ================================================================== *)
(** ** Tables, nodes and the state of a run *)

(** A row of the source table, as far as the pipeline reads it. *)
Record event : Type := Event {
  baseline : det4 Z;
  pulseheights : det4 Z;
  integrals : det4 Z;
  traces : det4 Z
}.

(** A row of a [ProcessedHisparcEvent] table: the source columns, the
    arrival times [t1..t4] and the particle counts [n1..n4]. *)
Record row : Type := Row {
  row_event : event;
  row_t : det4 pyfloat;
  row_n : det4 pyfloat
}.

Inductive table : Type :=
| EventsTable (rows : list event)
| ProcessedTable (rows : list row).

Inductive node : Type :=
| Table (tbl : table)
| VLArray (blobs : list string).

(** A child of the station group: its name, the identity of the node, and
    what the node holds. *)
Record child : Type := Child {
  name : string;
  ident : nat;
  content : node
}.

(** The classes of the module; [klass] stands for [type(self)]. *)
Inductive klass : Type :=
| ProcessEvents
| ProcessIndexedEvents
| ProcessEventsWithLINT
| ProcessIndexedEventsWithLINT
| ProcessEventsWithoutTraces
| ProcessIndexedEventsWithoutTraces.

(** The data file together with the attributes of [self].  [decoded] is a
    ghost field: the arguments of the calls of [_get_trace] so far, the
    latest first. *)
Record state : Type := State {
  group : list child;
  fresh : nat;
  decoded : list Z;
  cls : klass;
  self_indexes : list nat;
  self_source : nat;
  self_limit : option nat;
  self_destination : option string;
  self_tmp_events : option nat
}.

Definition with_group (g : list child) (s : state) : state :=
  State g (fresh s) (decoded s) (cls s) (self_indexes s) (self_source s)
        (self_limit s) (self_destination s) (self_tmp_events s).

Definition with_fresh (k : nat) (s : state) : state :=
  State (group s) k (decoded s) (cls s) (self_indexes s) (self_source s)
        (self_limit s) (self_destination s) (self_tmp_events s).

Definition with_decoded (d : list Z) (s : state) : state :=
  State (group s) (fresh s) d (cls s) (self_indexes s) (self_source s)
        (self_limit s) (self_destination s) (self_tmp_events s).

Definition with_source (h : nat) (s : state) : state :=
  State (group s) (fresh s) (decoded s) (cls s) (self_indexes s) h
        (self_limit s) (self_destination s) (self_tmp_events s).

Definition with_limit (l : option nat) (s : state) : state :=
  State (group s) (fresh s) (decoded s) (cls s) (self_indexes s)
        (self_source s) l (self_destination s) (self_tmp_events s).

Definition with_destination (d : option string) (s : state) : state :=
  State (group s) (fresh s) (decoded s) (cls s) (self_indexes s)
        (self_source s) (self_limit s) d (self_tmp_events s).

Definition with_tmp_events (h : option nat) (s : state) : state :=
  State (group s) (fresh s) (decoded s) (cls s) (self_indexes s)
        (self_source s) (self_limit s) (self_destination s) h.

(** How a statement ends: normally, with a value, or by raising; either
    way the state it reached stays. *)
Inductive outcome (A : Type) : Type :=
| Ok (a : A) (s : state)
| Raise (e : exn) (s : state).
Arguments Ok {A} a s.
Arguments Raise {A} e s.

Definition M (A : Type) : Type := state -> outcome A.

Definition ret {A} (a : A) : M A := fun s => Ok a s.

Definition raise {A} (e : exn) : M A := fun s => Raise e s.

Definition bind {A B} (m : M A) (k : A -> M B) : M B :=
  fun s =>
    match m s with
    | Ok a s' => k a s'
    | Raise e s' => Raise e s'
    end.

Definition get : M state := fun s => Ok s s.

Definition modify (f : state -> state) : M unit := fun s => Ok tt (f s).

Definition lift {A} (r : result A) : M A :=
  match r with
  | Done a => ret a
  | Fail e => raise e
  end.

Declare Scope py_scope.
Delimit Scope py_scope with py.
Notation "x <- m ;; k" := (bind m (fun x => k))
  (at level 100, m at next level, right associativity) : py_scope.
Notation "m ;; k" := (bind m (fun _ => k))
  (at level 100, right associativity) : py_scope.
Open Scope py_scope.

(** [for a in l: body(a)], collecting what the bodies return. *)
Fixpoint for_each {A B} (body : A -> M B) (l : list A) : M (list B) :=
  match l with
  | [] => ret []
  | a :: rest =>
      b <- body a ;;
      bs <- for_each body rest ;;
      ret (b :: bs)
  end.

(* ------------------------------------------------------------------ *)
(** *** The storage engine, as the pipeline uses it *)

Definition find_name (nm : string) (g : list child) : option child :=
  find (fun c => String.eqb (name c) nm) g.

Definition find_ident (h : nat) (g : list child) : option child :=
  find (fun c => Nat.eqb (ident c) h) g.

(** [nm in self.group] *)
Definition in_group (nm : string) (g : list child) : bool :=
  match find_name nm g with Some _ => true | None => false end.

(** [self.data.getNode(self.group, nm)], also [self.group.<nm>]: the handle
    of the child of that name. *)
Definition getNode (nm : string) : M nat :=
  s <- get ;;
  match find_name nm (group s) with
  | Some c => ret (ident c)
  | None => raise NoSuchNodeError
  end.

(** The node behind a handle; a handle of a removed node is closed. *)
Definition deref (h : nat) : M child :=
  s <- get ;;
  match find_ident h (group s) with
  | Some c => ret c
  | None => raise ClosedNodeError
  end.

Definition rename_child (h : nat) (nm : string) (g : list child)
  : list child :=
  map (fun c => if Nat.eqb (ident c) h then Child nm (ident c) (content c)
                else c) g.

(** [node.rename(nm)]: refused when the name is taken; renaming a node to
    the name it has is the null move. *)
Definition rename (h : nat) (nm : string) : M unit :=
  c <- deref h ;;
  if String.eqb (name c) nm then ret tt
  else
    s <- get ;;
    if in_group nm (group s) then raise NodeError
    else modify (with_group (rename_child h nm (group s))).

(** [self.data.removeNode(self.group, nm)] *)
Definition removeNode (nm : string) : M unit :=
  s <- get ;;
  if in_group nm (group s) then
    modify (with_group
              (filter (fun c => negb (String.eqb (name c) nm)) (group s)))
  else raise NoSuchNodeError.

(** [self.data.createTable(self.group, nm, ProcessedHisparcEvent, ...)]:
    a new, empty table with the processed columns. *)
Definition createTable (nm : string) : M nat :=
  s <- get ;;
  if in_group nm (group s) then raise NodeError
  else
    let h := fresh s in
    modify (fun s =>
              with_fresh (S h)
                (with_group (group s ++ [Child nm h (Table (ProcessedTable []))])
                   s)) ;;
    ret h.

Definition set_content (h : nat) (v : node) (g : list child) : list child :=
  map (fun c => if Nat.eqb (ident c) h then Child (name c) (ident c) v
                else c) g.

(** The rows of the processed table behind a handle. *)
Definition processed_rows (h : nat) : M (list row) :=
  c <- deref h ;;
  match content c with
  | Table (ProcessedTable rows) => ret rows
  | _ => raise AttributeError
  end.

Definition write_rows (h : nat) (rows : list row) : M unit :=
  modify (fun s =>
            with_group (set_content h (Table (ProcessedTable rows)) (group s))
              s).

(** The event columns of the rows of a table. *)
Definition table_events (tb : table) : list event :=
  match tb with
  | EventsTable rows => rows
  | ProcessedTable rows => map row_event rows
  end.

Definition source_table : M table :=
  s <- get ;;
  c <- deref (self_source s) ;;
  match content c with
  | Table tb => ret tb
  | VLArray _ => raise AttributeError
  end.

(** [len(node)] *)
Definition node_len (v : node) : nat :=
  match v with
  | Table tb => List.length (table_events tb)
  | VLArray blobs => List.length blobs
  end.

(** [if self.limit:] *)
Definition truthy (l : option nat) : bool :=
  match l with
  | Some (S _) => true
  | _ => false
  end.

(* ================================================================== *)
(** ** What the module takes from elsewhere *)

(** [zlib.decompress] and [scipy.optimize.leastsq] are libraries, and the
    column defaults of [ProcessedHisparcEvent] are declared in
    [sapphire.storage]; none is part of this source.
    - [zlib_decompress b] is the text of a blob, [None] when zlib raises;
    - [leastsq x0 xs ys] is [fitResult[0]], the fitted (N, mean, width) of
      the Gauss curve through the points [(xs, ys)] from the initial guess
      [x0], [None] when the fit raises;
    - [fresh_row] is the row that [table.row.append()] writes when no
      field has been set. *)
Class Collaborators : Type := {
  zlib_decompress : string -> option string;
  leastsq : list Q -> list Z -> list Z -> option (pyfloat * pyfloat * pyfloat);
  fresh_row : row
}.

Section Pipeline.

Context {collaborators : Collaborators}.

(* ------------------------------------------------------------------ *)
(** *** Traces *)

(** [blobs[idx]] on the node that [self.group.blobs] names. *)
Definition blob_at (v : node) (idx : Z) : result string :=
  match v with
  | VLArray blobs => of_option IndexError (py_index blobs idx)
  | Table _ => Fail TypeError
  end.

Definition _get_trace (idx : Z) : M (list Z) :=
  modify (fun s => with_decoded (idx :: decoded s) s) ;;
  s <- get ;;
  blobs <- lift (of_option NoSuchNodeError (find_name "blobs" (group s))) ;;
  blob <- lift (blob_at (content blobs) idx) ;;
  text <- lift (of_option ZlibError (zlib_decompress blob)) ;;
  lift (of_option (ValueError "invalid literal for int()") (parse_trace text)).

(** [np.array(traces).T] for traces of one length; rows of different
    lengths make a vector of objects, which [.T] leaves alone. *)
Fixpoint transpose (width : nat) (rows : list (list Z)) : list (list Z) :=
  match width with
  | O => []
  | S w => map (fun r => hd 0 r) rows :: transpose w (map (@tl Z) rows)
  end.

Definition array_T (traces : list (list Z)) : list (list Z) :=
  match traces with
  | [] => []
  | first :: _ =>
      let w := List.length first in
      if forallb (fun r => Nat.eqb (List.length r) w) traces
      then transpose w traces
      else traces
  end.

Definition get_traces_for_event (ev : event) : M (list (list Z)) :=
  decoded_traces <-
    for_each _get_trace
      (filter (fun idx => negb (idx <? 0)) (det4_list (traces ev))) ;;
  ret (array_T decoded_traces).

(** The method of that name on [self]: the classes with LINT in their
    ancestry interpolate. *)
Definition uses_LINT (k : klass) : bool :=
  match k with
  | ProcessEventsWithLINT | ProcessIndexedEventsWithLINT => true
  | _ => false
  end.

Definition self_reconstruct_time_from_trace (k : klass)
  : list Z -> Z -> pyfloat :=
  if uses_LINT k then _reconstruct_time_from_trace_LINT
  else _reconstruct_time_from_trace.

(** One turn of the loop of [_reconstruct_time_from_traces]. *)
Definition slot_time (bl pulseheight trace_idx : Z) : M pyfloat :=
  if pulseheight <? ADC_THRESHOLD then ret NaN
  else
    trace <- _get_trace trace_idx ;;
    s <- get ;;
    ret (self_reconstruct_time_from_trace (cls s) trace bl).

(** The columns have shape 4, so [zip] yields the four slots in order. *)
Definition _reconstruct_time_from_traces (ev : event) : M (det4 pyfloat) :=
  let b := baseline ev in
  let p := pulseheights ev in
  let i := traces ev in
  t1 <- slot_time (d1 b) (d1 p) (d1 i) ;;
  t2 <- slot_time (d2 b) (d2 p) (d2 i) ;;
  t3 <- slot_time (d3 b) (d3 p) (d3 i) ;;
  t4 <- slot_time (d4 b) (d4 p) (d4 i) ;;
  ret (Det4 t1 t2 t3 t4).

(** [np.where(np.isnan(result), -999, 1e9 * result)], entry by entry. *)
Definition to_ns (x : pyfloat) : pyfloat :=
  if isnan x then of_int (-999) else fmul (Fin 1e9%Q) x.

Definition _process_traces_from_event_list (events : list event)
  : M (list (det4 pyfloat)) :=
  result <- for_each _reconstruct_time_from_traces events ;;
  ret (map (det4_map to_ns) result).

Definition is_indexed (k : klass) : bool :=
  match k with
  | ProcessIndexedEvents | ProcessIndexedEventsWithLINT
  | ProcessIndexedEventsWithoutTraces => true
  | _ => false
  end.

Definition without_traces (k : klass) : bool :=
  match k with
  | ProcessEventsWithoutTraces | ProcessIndexedEventsWithoutTraces => true
  | _ => false
  end.

(** [ProcessEvents.process_traces] *)
Definition process_traces_all (limit : option nat)
  : M (list (det4 pyfloat)) :=
  (if truthy limit then modify (with_limit limit) else ret tt) ;;
  s <- get ;;
  src <- source_table ;;
  let events := slice_to (self_limit s) (table_events src) in
  _process_traces_from_event_list events.

(** [self.source.itersequence(self.indexes)], row by row. *)
Fixpoint itersequence {A} (rows : list A) (indexes : list nat)
  : result (list A) :=
  match indexes with
  | [] => Done []
  | i :: rest =>
      (let? r := of_option IndexError (nth_error rows i) in
       let? rs := itersequence rows rest in
       Done (r :: rs))%result
  end.

(** [ProcessIndexedEvents.process_traces] *)
Definition process_traces_indexed : M (list (det4 pyfloat)) :=
  s <- get ;;
  src <- source_table ;;
  events <- lift (itersequence (table_events src) (self_indexes s)) ;;
  _process_traces_from_event_list events.

Definition process_traces (limit : option nat) : M (list (det4 pyfloat)) :=
  s <- get ;;
  if is_indexed (cls s) then process_traces_indexed
  else process_traces_all limit.

(* ------------------------------------------------------------------ *)
(** *** The Gauss fit of the MIP peak *)

(** What [_pulse_gauss_fit] returns: the list [mpv], or, from inside the
    loop, the triple [(width, [fitParameters, fitCovariance], chiSquare)]. *)
Inductive gauss_fit : Type :=
| Mpv (mpv : list pyfloat)
| NoFit (width : Q) (fitParameters : list Q) (fitCovariance : list (list Q))
        (chiSquare : Z).

(** [np.zeros(k)] *)
Definition zeros (k : nat) : list Q := repeat (inject_Z 0) k.

Definition det4_nth {A} (idx : nat) (d : det4 A) : A :=
  match idx with
  | 0%nat => d1 d
  | 1%nat => d2 d
  | 2%nat => d3 d
  | _ => d4 d
  end.

Definition det4_set {A} (idx : nat) (v : A) (d : det4 A) : det4 A :=
  match idx with
  | 0%nat => Det4 v (d2 d) (d3 d) (d4 d)
  | 1%nat => Det4 (d1 d) v (d3 d) (d4 d)
  | 2%nat => Det4 (d1 d) (d2 d) v (d4 d)
  | _ => Det4 (d1 d) (d2 d) (d3 d) v
  end.

(** The points of the histogram inside the window: the inner loop of
    [_pulse_gauss_fit] skips a bin below [minRange] or above [maxRange]. *)
Definition fit_window (pulsecount occurence : list Z) (minRange maxRange : Q)
  : list (Z * Z) :=
  filter (fun p => negb (Qltb (inject_Z (fst p)) minRange)
                   && negb (Qltb maxRange (inject_Z (fst p))))
         (combine pulsecount occurence).

(** The loop [for i in range(len(pulsecounts[0]))], from detector [i] on,
    with the list [mpv] built so far. *)
Fixpoint gauss_fit_loop (pulsecounts : list (det4 Z)) (bins : list Z)
  (detectors : list nat) (mpv : list pyfloat) : result gauss_fit :=
  match detectors with
  | [] => Done (Mpv mpv)
  | i :: later =>
      let occurence := histogram (map (det4_nth i) pulsecounts) bins in
      let pulsecount := bin_centres bins in
      let average_pulsecount :=
        zsum (zip_with Z.mul pulsecount occurence) / zsum occurence in
      if average_pulsecount <? 100 then
        Fail (ValueError "Average pulseintegral is less than 100")
      else
        (let? (peak, minRange, maxRange) :=
           getFitParameters pulsecount occurence in
         let width := (peak - minRange)%Q in
         if Qle_bool width (inject_Z 40) then
           Done (NoFit width (zeros 3) (repeat (zeros 3) 3) (-1))
         else
           let window := fit_window pulsecount occurence minRange maxRange in
           let? (_, mean, _) :=
             of_option TypeError
               (leastsq [inject_Z 16; peak; width]
                  (map fst window) (map snd window)) in
           gauss_fit_loop pulsecounts bins later (mpv ++ [mean]))%result
  end.

Definition _pulse_gauss_fit (pulsecounts : list (det4 Z)) (bins : list Z)
  : result gauss_fit :=
  match pulsecounts with
  | [] => Fail IndexError
  | first :: _ =>
      gauss_fit_loop pulsecounts bins
        (seq 0 (List.length (det4_list first))) []
  end.

(** [pulsecounts / mpv]: NumPy divides each row by the list of four values;
    the triple of the early return has no shape that fits the rows. *)
Definition divide_by_mpv (pulsecounts : list (det4 Z)) (fit : gauss_fit)
  : result (list (det4 pyfloat)) :=
  match fit with
  | Mpv [m1; m2; m3; m4] =>
      Done (map (fun r => det4_map2 fdiv (det4_map of_int r) (Det4 m1 m2 m3 m4))
                pulsecounts)
  | _ => Fail (ValueError "operands could not be broadcast together")
  end.

Definition _process_pulseheights (limit : option nat)
  : M (list (det4 pyfloat)) :=
  (if truthy limit then modify (with_limit limit) else ret tt) ;;
  s <- get ;;
  src <- source_table ;;
  let pulseheights :=
    slice_to (self_limit s) (map pulseheights (table_events src)) in
  let bins := arange 0 5000 10 in
  mpv <- lift (_pulse_gauss_fit pulseheights bins) ;;
  lift (divide_by_mpv pulseheights mpv).

Definition _process_pulseintegrals (limit : option nat)
  : M (list (det4 pyfloat)) :=
  (if truthy limit then modify (with_limit limit) else ret tt) ;;
  s <- get ;;
  src <- source_table ;;
  let pulseintegrals :=
    slice_to (self_limit s) (map integrals (table_events src)) in
  let bins := arange 0 50000 100 in
  mpv <- lift (_pulse_gauss_fit pulseintegrals bins) ;;
  lift (divide_by_mpv pulseintegrals mpv).

(* ------------------------------------------------------------------ *)
(** *** The batch pipeline *)

(** [self.<attribute>] for an attribute that a method sets. *)
Definition attribute {A} (o : option A) : M A :=
  match o with
  | Some a => ret a
  | None => raise AttributeError
  end.

Definition _get_source (source : option string) : M nat :=
  match source with
  | None =>
      s <- get ;;
      if in_group "_events" (group s) then getNode "_events"
      else getNode "events"
  | Some nm => getNode nm
  end.

Definition _check_destination (destination : option string)
  (overwrite : bool) : M unit :=
  if match destination with
     | Some d => String.eqb d "_events"
     | None => false
     end
  then
    raise (RuntimeError
      "The _events table is reserved for internal use.  Choose another destination.")
  else
    let destination :=
      match destination with
      | None => "events"%string
      | Some d => d
      end in
    s <- get ;;
    source <- deref (self_source s) ;;
    (if negb (String.eqb (name source) destination) then
       if in_group destination (group s) && negb overwrite then
         raise (RuntimeError
           "I will not overwrite previous results (unless you specify overwrite=True)")
       else ret tt
     else ret tt) ;;
    modify (with_destination (Some destination)).

Definition _create_empty_results_table : M nat :=
  s <- get ;;
  length <-
    match self_limit s with
    | Some (S k) => ret (S k)
    | _ => source <- deref (self_source s) ;; ret (node_len (content source))
    end ;;
  (if in_group "_t_events" (group s) then removeNode "_t_events"
   else ret tt) ;;
  table <- createTable "_t_events" ;;
  write_rows table (repeat fresh_row length) ;;
  ret table.

(** The columns of the source, written over those of a staged row. *)
Definition copy_columns (src : table) (staged : list row) : list row :=
  match src with
  | EventsTable evs => zip_with (fun r e => Row e (row_t r) (row_n r)) staged evs
  | ProcessedTable rows => zip_with (fun _ r => r) staged rows
  end.

(** [table.cols.c[:limit] = source.cols.c[:limit]] for every column [c] of
    the source; the storage engine takes a slice only from as many values. *)
Definition _copy_events_into_table : M unit :=
  s <- get ;;
  table <- attribute (self_tmp_events s) ;;
  src <- source_table ;;
  rows <- processed_rows table ;;
  let head := slice_to (self_limit s) rows in
  let values := slice_to (self_limit s) (table_events src) in
  if Nat.eqb (List.length head) (List.length values) then
    write_rows table
      (copy_columns src head ++ skipn (List.length head) rows)
  else raise (ValueError "shape mismatch").

Definition _create_results_table : M unit :=
  table <- _create_empty_results_table ;;
  modify (with_tmp_events (Some table)) ;;
  _copy_events_into_table.

(** [array[:, idx]] on the list of rows that [np.array] made an array of:
    no rows give a vector, which has no second axis. *)
Definition column (idx : nat) (array : list (det4 pyfloat))
  : result (list pyfloat) :=
  match array with
  | [] => Fail IndexError
  | _ => Done (map (det4_nth idx) array)
  end.

Definition set_t (idx : nat) (r : row) (v : pyfloat) : row :=
  Row (row_event r) (det4_set idx v (row_t r)) (row_n r).

Definition set_n (idx : nat) (r : row) (v : pyfloat) : row :=
  Row (row_event r) (row_t r) (det4_set idx v (row_n r)).

(** [getattr(table.cols, col)[:] = values] *)
Definition assign_column (set : row -> pyfloat -> row) (table : nat)
  (values : list pyfloat) : M unit :=
  rows <- processed_rows table ;;
  if Nat.eqb (List.length rows) (List.length values) then
    write_rows table (zip_with set rows values)
  else raise (ValueError "shape mismatch").

(** [ProcessEvents._store_results_from_traces] *)
Definition store_results_all : M unit :=
  s <- get ;;
  table <- attribute (self_tmp_events s) ;;
  timings <- process_traces None ;;
  for_each (fun idx =>
              values <- lift (column idx timings) ;;
              assign_column (set_t idx) table values)
           (seq 0 4) ;;
  ret tt.

(** One turn of the loop of [ProcessIndexedEvents._store_results_from_traces]:
    the row at [index] takes the four times and is updated. *)
Definition update_row (table : nat) (pair : nat * det4 pyfloat) : M unit :=
  let '(index, times) := pair in
  rows <- processed_rows table ;;
  match nth_error rows index with
  | None => raise IndexError
  | Some event =>
      write_rows table
        (set_nth rows index (Row (row_event event) times (row_n event)))
  end.

(** [ProcessIndexedEvents._store_results_from_traces] *)
Definition store_results_indexed : M unit :=
  s <- get ;;
  table <- attribute (self_tmp_events s) ;;
  timings <- process_traces None ;;
  for_each (update_row table) (combine (self_indexes s) timings) ;;
  ret tt.

Definition _store_results_from_traces : M unit :=
  s <- get ;;
  if without_traces (cls s) then ret tt
  else if is_indexed (cls s) then store_results_indexed
  else store_results_all.

Definition _store_number_of_particles : M unit :=
  s <- get ;;
  table <- attribute (self_tmp_events s) ;;
  n_particles <- _process_pulseheights None ;;
  for_each (fun idx =>
              values <- lift (column idx n_particles) ;;
              assign_column (set_n idx) table values)
           (seq 0 4) ;;
  ret tt.

Definition _move_results_table_into_destination : M unit :=
  s <- get ;;
  source <- deref (self_source s) ;;
  (if String.eqb (name source) "events" then
     rename (self_source s) "_events" ;;
     h <- getNode "_events" ;;
     modify (with_source h)
   else ret tt) ;;
  destination <- attribute (self_destination s) ;;
  s <- get ;;
  (if in_group destination (group s) then removeNode destination
   else ret tt) ;;
  tmp <- attribute (self_tmp_events s) ;;
  rename tmp destination.

Definition process_and_store_results (destination : option string)
  (overwrite : bool) (limit : option nat) : M unit :=
  modify (with_limit limit) ;;
  _check_destination destination overwrite ;;
  _create_results_table ;;
  _store_results_from_traces ;;
  _store_number_of_particles ;;
  _move_results_table_into_destination.

(** [ProcessEvents.__init__]: the handle of the source table. *)
Definition __init__ (source : option string) : M unit :=
  h <- _get_source source ;;
  modify (with_source h).

End Pipeline.

(* ================================================================== *)
(** ** Notions used by the statements *)

(** The first sample of [trace] at or above [threshold] has index [i]. *)
Definition first_crossing (trace : list Z) (threshold : Z) (i : nat) : Prop :=
  (exists t, nth_error trace i = Some t /\ threshold <= t) /\
  forall j t, (j < i)%nat -> nth_error trace j = Some t -> t < threshold.

(** No sample of [trace] reaches [threshold]. *)
Definition never_crosses (trace : list Z) (threshold : Z) : Prop :=
  forall t, In t trace -> t < threshold.

(** The decimal numeral of an integer, as [str] prints it. *)
Definition decimal (z : Z) : string := NilZero.string_of_int (Z.to_int z).

(** The text of a trace in which a comma follows every sample. *)
Fixpoint trace_text (zs : list Z) : string :=
  match zs with
  | [] => EmptyString
  | z :: rest => (decimal z ++ String comma (trace_text rest))%string
  end.

(** [','.join(fs)] *)
Fixpoint join_commas (fs : list string) : string :=
  match fs with
  | [] => EmptyString
  | [f] => f
  | f :: rest => (f ++ String comma (join_commas rest))%string
  end.

(** A field without blank or comma. *)
Fixpoint plain (s : string) : bool :=
  match s with
  | EmptyString => true
  | String c r => negb (is_space c) && negb (Ascii.eqb c comma) && plain r
  end.

(** The value of a digit sequence read after the digits worth [acc]. *)
Fixpoint uint_value (acc : Z) (d : Decimal.uint) : Z :=
  match d with
  | Decimal.Nil => acc
  | Decimal.D0 l => uint_value (10 * acc + 0) l
  | Decimal.D1 l => uint_value (10 * acc + 1) l
  | Decimal.D2 l => uint_value (10 * acc + 2) l
  | Decimal.D3 l => uint_value (10 * acc + 3) l
  | Decimal.D4 l => uint_value (10 * acc + 4) l
  | Decimal.D5 l => uint_value (10 * acc + 5) l
  | Decimal.D6 l => uint_value (10 * acc + 6) l
  | Decimal.D7 l => uint_value (10 * acc + 7) l
  | Decimal.D8 l => uint_value (10 * acc + 8) l
  | Decimal.D9 l => uint_value (10 * acc + 9) l
  end.

(** The state in which a statement ends, and what it hands back. *)
Definition final {A} (o : outcome A) : state :=
  match o with
  | Ok _ s => s
  | Raise _ s => s
  end.

Definition value_of {A} (o : outcome A) : result A :=
  match o with
  | Ok a _ => Done a
  | Raise e _ => Fail e
  end.

(** What the storage engine maintains: no two children of the group share
    a name or a node, and the next node is new. *)
Definition wf (s : state) : Prop :=
  NoDup (map name (group s)) /\
  NoDup (map ident (group s)) /\
  Forall (fun c => (ident c < fresh s)%nat) (group s).

(** The children of a group that do not have the name [nm]. *)
Definition without_name (nm : string) (g : list child) : list child :=
  filter (fun c => negb (String.eqb (name c) nm)) g.

(** The steps of [process_and_store_results] before the publishing one. *)
Definition before_publish {collaborators : Collaborators}
  (destination : option string) (overwrite : bool) (limit : option nat)
  : M unit :=
  modify (with_limit limit) ;;
  _check_destination destination overwrite ;;
  _create_results_table ;;
  _store_results_from_traces ;;
  _store_number_of_particles.

(** The name that stands for an absent destination. *)
Definition destination_name (destination : option string) : string :=
  match destination with
  | None => "events"%string
  | Some d => d
  end.

(** A Hoare triple for a statement: from a state in [P] it ends normally
    in [Q], or raises in a state in [E]. *)
Definition hoare {A} (P : state -> Prop) (m : M A)
  (Q : A -> state -> Prop) (E : state -> Prop) : Prop :=
  forall s, P s ->
    match m s with
    | Ok a s' => Q a s'
    | Raise _ s' => E s'
    end.

(** The state of a run between the creation of the staging table and the
    publishing step: the group of [s] without an older [_t_events], then
    the staging table [h] with its [rows]; [log] is the ghost field. *)
Definition staged (s : state) (h : nat) (rows : list row) (log : list Z)
  : state :=
  State (without_name "_t_events" (group s)
         ++ [Child "_t_events" h (Table (ProcessedTable rows))])
        (S h) log (cls s) (self_indexes s) (self_source s) (self_limit s)
        (self_destination s) (Some h).

Definition in_stage (s : state) (h : nat) (s' : state) : Prop :=
  exists rows log, s' = staged s h rows log.

(** A statement keeps [I] when it ends in [I], normally or not, from
    every state in [I]. *)
Definition keeps (I : state -> Prop) {A} (m : M A) : Prop :=
  hoare I m (fun _ => I) I.

(** A statement that leaves the state as it found it. *)
Definition readonly {A} (m : M A) : Prop := forall s, final (m s) = s.

(** The group once the source [c] has been moved out of the way: a source
    called [events] goes by [_events]. *)
Definition published_source (c : child) (g : list child) : list child :=
  if String.eqb (name c) "events" then rename_child (ident c) "_events" g
  else g.

(** The group that a run publishes: the results [rows], in the node [h],
    take the name [d] from whatever had it. *)
Definition published (c : child) (d : string) (h : nat) (rows : list row)
  (g : list child) : list child :=
  without_name d (published_source c (without_name "_t_events" g))
  ++ [Child d h (Table (ProcessedTable rows))].

(** The number of rows of the staging table. *)
Definition staging_length (s : state) : option nat :=
  match self_limit s with
  | Some (S k) => Some (S k)
  | _ => option_map (fun c => node_len (content c))
           (find_ident (self_source s) (group s))
  end.

(* ================================================================== *)
(** ** Sample data *)

(** Collaborators for the examples: blobs are stored as their text, the fit
    hands back its initial guess, and a fresh row holds zeros, no trace and
    the no-data value -999. *)
Definition sample_collaborators : Collaborators :=
  {| zlib_decompress := fun blob => Some blob;
     leastsq := fun x0 _ _ =>
       match x0 with
       | [N; mean; width] => Some (Fin N, Fin mean, Fin width)
       | _ => None
       end;
     fresh_row :=
       Row (Event (Det4 0 0 0 0) (Det4 0 0 0 0) (Det4 0 0 0 0)
                  (Det4 (-1) (-1) (-1) (-1)))
           (Det4 (of_int (-999)) (of_int (-999)) (of_int (-999))
                 (of_int (-999)))
           (Det4 (of_int (-999)) (of_int (-999)) (of_int (-999))
                 (of_int (-999))) |}.

(** An event whose four detectors saw the same pulse and share a trace. *)
Definition sample_event (pulseheight trace : Z) : event :=
  Event (Det4 200 200 200 200)
        (Det4 pulseheight pulseheight pulseheight pulseheight)
        (Det4 (10 * pulseheight) (10 * pulseheight) (10 * pulseheight)
              (10 * pulseheight))
        (Det4 trace trace trace trace).

(** Ten events: a population with peaks at 305 and 405 ADC counts. *)
Definition ten_events : list event :=
  repeat (sample_event 305 0) 5 ++ repeat (sample_event 405 1) 5.

Definition sample_blobs : node :=
  VLArray ["200,200,230,250,"%string; "200,201,219,220,300"%string].

(** A station group as the data logger leaves it. *)
Definition raw_group : list child :=
  [Child "events" 0 (Table (EventsTable ten_events));
   Child "blobs" 1 sample_blobs].

(** The same data under a name of the user's choosing. *)
Definition foo_group : list child :=
  [Child "foo" 0 (Table (EventsTable ten_events));
   Child "blobs" 1 sample_blobs].

(** A group in which an earlier run left its staging table behind, and
    whose pulses are too small for the calibration. *)
Definition weak_events : list event := repeat (sample_event 55 0) 10.

Definition leftover_group : list child :=
  [Child "events" 0 (Table (EventsTable weak_events));
   Child "blobs" 1 sample_blobs;
   Child "_t_events" 2 (Table (ProcessedTable []))].

(** Pulse heights with two close peaks in the first detector. *)
Definition narrow_first : list (det4 Z) :=
  repeat (Det4 305 305 305 305) 5 ++ repeat (Det4 365 405 405 405) 5.

(** An event whose first detector has a pulse but no trace. *)
Definition traceless_pulse : event :=
  Event (Det4 200 200 200 200) (Det4 100 0 0 0) (Det4 1000 0 0 0)
        (Det4 (-1) (-1) (-1) (-1)).

(** A new object of class [k] on the group [g]. *)
Definition blank (k : klass) (g : list child) (next : nat)
  (indexes : list nat) : state :=
  State g next [] k indexes 0%nat None None None.

(** A default pipeline on the raw group, and pipelines on the other
    groups, as their constructors leave them. *)
Definition raw_pipeline (k : klass) (indexes : list nat) : state :=
  with_source 0%nat (blank k raw_group 2 indexes).

Definition foo_pipeline : state :=
  with_source 0%nat (blank ProcessEvents foo_group 2 []).

Definition leftover_pipeline : state :=
  with_source 0%nat (blank ProcessEvents leftover_group 3 []).

(** A group whose blob store holds the text of one short trace. *)
Definition decoder_pipeline : state :=
  blank ProcessEvents [Child "blobs" 0 (VLArray ["12,34,56,"%string])] 1 [].

(** The histogram of the first detector of the ten events. *)
Definition sample_bins : list Z := arange 0 5000 10.

Definition sample_pulsecount : list Z := bin_centres sample_bins.

Definition sample_occurence : list Z :=
  histogram (map (fun e => d1 (pulseheights e)) ten_events) sample_bins.

(** Two states in which the decoder and the reconstructor see the same:
    the same blob store and the same strategy. *)
Definition reads_alike (s1 s2 : state) : Prop :=
  find_name "blobs" (group s1) = find_name "blobs" (group s2) /\
  uses_LINT (cls s1) = uses_LINT (cls s2).

(** A statement that writes nothing but the ghost log, and whose result
    depends on nothing but what [reads_alike] compares. *)
Definition reader {A} (m : M A) : Prop :=
  (forall s, exists log, final (m s) = with_decoded log s) /\
  (forall s1 s2, reads_alike s1 s2 -> value_of (m s1) = value_of (m s2)).

(** The staged rows once the source columns are copied into them. *)
Definition copied_rows (src : table) (limit : option nat) (rows : list row)
  : list row :=
  copy_columns src (slice_to limit rows)
  ++ skipn (List.length (slice_to limit rows)) rows.

(** The particle counts of the first [limit] rows of a table. *)
Definition particle_counts {collaborators : Collaborators} (src : table)
  (limit : option nat) : result (list (det4 pyfloat)) :=
  (let pulseheights :=
     slice_to limit (map pulseheights (table_events src)) in
   let? mpv := _pulse_gauss_fit pulseheights (arange 0 5000 10) in
   divide_by_mpv pulseheights mpv)%result.

(** The rows after [getattr(table.cols, col)[:] = values[:, idx]] for the
    four columns that [set] addresses. *)
Definition write_columns (set : nat -> row -> pyfloat -> row)
  (rows : list row) (values : list (det4 pyfloat)) : list row :=
  fold_left (fun rs idx => zip_with (set idx) rs (map (det4_nth idx) values))
            (seq 0 4) rows.

(** The rows after one turn, and after all turns, of the loop of the
    indexed [_store_results_from_traces]. *)
Definition updated_row (rows : list row) (pair : nat * det4 pyfloat)
  : list row :=
  match nth_error rows (fst pair) with
  | Some event =>
      set_nth rows (fst pair) (Row (row_event event) (snd pair) (row_n event))
  | None => rows
  end.

Definition updated_rows (rows : list row) (pairs : list (nat * det4 pyfloat))
  : list row :=
  fold_left updated_row pairs rows.

(* ================================================================== *)
(** ** Further notions used by the statements *)

(** The values of [x] never fall, as bin centres do not. *)
Fixpoint nondecreasingb (x : list Z) : bool :=
  match x with
  | a :: (b :: _) as rest => (a <=? b) && nondecreasingb rest
  | _ => true
  end.

(** The values of [l] never fall. *)
Definition ordered (l : list Q) : Prop :=
  forall i j a b, (i <= j)%nat ->
    nth_error l i = Some a -> nth_error l j = Some b -> (a <= b)%Q.

(** Every bin of [bins] that starts below [bound] has its centre at or
    below [centre]. *)
Fixpoint low_bins (bound centre : Z) (bins : list Z) : bool :=
  match bins with
  | lo :: (hi :: _) as rest =>
      ((bound <=? lo) || ((lo + hi) / 2 <=? centre))
      && low_bins bound centre rest
  | _ => true
  end.

(** The trace indexes of the slots of [ev] whose pulse height reaches the
    threshold, in detector order. *)
Definition decoded_slots (ev : event) : list Z :=
  map snd
    (filter (fun slot => negb (fst slot <? ADC_THRESHOLD))
       (combine (det4_list (pulseheights ev)) (det4_list (traces ev)))).

(** The number of rows that [_create_empty_results_table] appends for a
    source of [n] rows. *)
Definition staging_length_of (limit : option nat) (n : nat) : nat :=
  match limit with
  | Some (S k) => S k
  | _ => n
  end.

(* ================================================================== *)
(** ** The trace accessors *)

Section Accessors.

Context {collaborators : Collaborators}.




End Accessors.

(* ================================================================== *)
(** ** The timing offsets between the detectors *)

Definition fneg (x : pyfloat) : pyfloat :=
  match x with
  | NaN => NaN
  | PInf => NInf
  | NInf => PInf
  | Fin q => Fin (- q)
  end.

Definition fsub (x y : pyfloat) : pyfloat := fadd x (fneg y).

(** [x >= 0] on floats: false for not-a-number. *)
Definition fge0 (x : pyfloat) : bool :=
  match x with
  | Fin q => Qle_bool (inject_Z 0) q
  | PInf => true
  | _ => false
  end.

(** [a.compress(mask)] *)
Definition compress {A} (mask : list bool) (a : list A) : list A :=
  map snd (filter fst (combine mask a)).

(** [np.histogram(a, bins=bins)[0]] for float data and increasing edges;
    values that are not finite fall in no bin. *)
Fixpoint fhistogram (a : list pyfloat) (bins : list Q) : list Z :=
  match bins with
  | lo :: (hi :: more) as rest =>
      let last := match more with [] => true | _ => false end in
      count_if (fun v =>
                  match v with
                  | Fin q =>
                      Qle_bool lo q && (Qltb q hi || (last && Qeq_bool q hi))
                  | _ => false
                  end) a
      :: fhistogram a rest
  | _ => []
  end.

(** [np.arange(-100 + 1.25, 100, 2.5)]: eighty edges from -98.75 to
    98.75. *)
Definition offset_bins : list Q :=
  map (fun k => ((inject_Z (-100) + 1.25) + 2.5 * inject_Z (Z.of_nat k))%Q)
      (seq 0 80).

(** [(bins[:-1] + bins[1:]) / 2] on float edges. *)
Definition fbin_centres (bins : list Q) : list Q :=
  zip_with (fun a b => ((a + b) / inject_Z 2)%Q) (removelast bins) (tl bins).

(** What [determine_detector_timing_offsets] raises: an exception of the
    pipeline or of [curve_fit], or the [KeyError] of a column that the
    table does not have. *)
Inductive offsets_exn : Type :=
| Raised (e : exn)
| KeyError (field : string).

(** What [print] has written: a text, a number, or the end of the line. *)
Inductive token : Type :=
| Text (s : string)
| Number (n : nat)
| Newline.

(** What a call leaves behind: what it has printed so far, and the list
    returned or the exception raised. *)
Record offsets_run : Type := OffsetsRun {
  printed : list token;
  returned : offsets_exn + list pyfloat
}.

Section Offsets.

(** [curve_fit(gauss, x, y, p0)] of SciPy, as far as the method uses it:
    the optimal parameters [popt], or the exception it raises. *)
Variable curve_fit :
  list Q -> list Z -> nat * pyfloat * pyfloat
  -> result (pyfloat * pyfloat * pyfloat).

(** [dt] of one turn of the loop: the differences with detector 2 of the
    rows in which both times are not negative. *)
Definition offset_differences (rows : list row) (idx : nat) : list pyfloat :=
  let t2 := map (fun r => d2 (row_t r)) rows in
  let timings := map (fun r => det4_nth idx (row_t r)) rows in
  compress (zip_with andb (map fge0 t2) (map fge0 timings))
           (zip_with fsub timings t2).

(** The loop [for timings in 't1', 't3', 't4'], from the columns [idxs]
    on, with what has been printed and appended so far. *)
Fixpoint offsets_loop (rows : list row) (idxs : list nat)
  (out : list token) (offsets : list pyfloat) : offsets_run :=
  match idxs with
  | [] =>
      OffsetsRun (out ++ [Newline])
        (match offsets with
         | first :: rest => inr ([first] ++ [Fin (inject_Z 0)] ++ rest)
         | [] => inl (Raised IndexError)
         end)
  | idx :: later =>
      let dt := offset_differences rows idx in
      let out := out ++ [Number (List.length dt)] in
      let y := fhistogram dt offset_bins in
      let x := fbin_centres offset_bins in
      match curve_fit x y (List.length dt, Fin (inject_Z 0), Fin (inject_Z 10))
      with
      | Fail e => OffsetsRun out (inl (Raised e))
      | Done (_, mean, _) => offsets_loop rows later out (offsets ++ [mean])
      end
  end.

(** [ProcessEvents.determine_detector_timing_offsets]; the method reads the
    file and prints, and changes nothing. *)
Definition determine_detector_timing_offsets (timings_table : string)
  (s : state) : offsets_run :=
  match find_name timings_table (group s) with
  | None => OffsetsRun [] (inl (Raised NoSuchNodeError))
  | Some c =>
      match content c with
      | VLArray _ => OffsetsRun [] (inl (Raised AttributeError))
      | Table (EventsTable _) => OffsetsRun [] (inl (KeyError "t2"))
      | Table (ProcessedTable rows) =>
          offsets_loop rows [0; 2; 3]%nat
            [Text "Determining offsets based on # events:"] []
      end
  end.

End Offsets.

(** A fit for the examples that hands back its initial guess. *)
Definition sample_curve_fit (x : list Q) (y : list Z)
  (p0 : nat * pyfloat * pyfloat) : result (pyfloat * pyfloat * pyfloat) :=
  let '(N, mean, sigma) := p0 in
  Done (Fin (inject_Z (Z.of_nat N)), mean, sigma).

(** Three processed rows; in the second, detector 2 has no time. *)
Definition timed_rows : list row :=
  map (fun t => Row (sample_event 305 0) t
                    (Det4 (of_int 1) (of_int 1) (of_int 1) (of_int 1)))
      [Det4 (of_int 5) (of_int 5) (of_int 10) (of_int 5);
       Det4 (of_int 5) (of_int (-999)) (of_int 10) (of_int 5);
       Det4 (of_int (-999)) (of_int 10) (of_int 5) (of_int 20)].

(** A pipeline on a group whose [events] table holds the rows [rows]. *)
Definition processed_pipeline (rows : list row) : state :=
  with_source 0%nat
    (blank ProcessEvents
       [Child "events" 0 (Table (ProcessedTable rows));
        Child "blobs" 1 sample_blobs] 2 []).

(* ================================================================== *)
(** ** Arrival times *)

Lemma first_crossing_nil thr i : ~ first_crossing [] thr i.
Proof. intros [[t [H _]] _]. destruct i; discriminate. Qed.

Lemma first_crossing_head thr t rest :
  thr <= t -> forall i, first_crossing (t :: rest) thr i -> i = 0%nat.
Proof.
  intros Ht i [_ Hbelow]. destruct i as [|i]; [reflexivity|].
  specialize (Hbelow 0%nat t (Nat.lt_0_succ _) eq_refl). lia.
Qed.

Lemma first_crossing_tail thr t rest i :
  t < thr -> first_crossing (t :: rest) thr i ->
  exists j, i = S j /\ first_crossing rest thr j.
Proof.
  intros Ht [[u [Hu Hle]] Hbelow]. destruct i as [|j].
  - simpl in Hu. injection Hu as ->. lia.
  - exists j. split; [reflexivity|]. split.
    + exists u. auto.
    + intros k v Hk Hv. apply (Hbelow (S k) v); [lia | exact Hv].
Qed.

Lemma nearest_scan_first thr samples : forall k i,
  first_crossing samples thr i ->
  nearest_scan thr k samples = of_int (k + Z.of_nat i).
Proof.
  induction samples as [|t rest IH]; intros k i Hi.
  - destruct (first_crossing_nil _ _ Hi).
  - simpl. destruct (Z.leb_spec thr t) as [Hle|Hlt].
    + rewrite (first_crossing_head _ _ _ Hle _ Hi). f_equal. lia.
    + destruct (first_crossing_tail _ _ _ _ Hlt Hi) as [j [-> Hj]].
      rewrite (IH (k + 1) j Hj). f_equal. lia.
Qed.

Lemma nearest_scan_never thr samples : forall k,
  never_crosses samples thr -> nearest_scan thr k samples = NaN.
Proof.
  induction samples as [|t rest IH]; intros k Hn; [reflexivity|].
  simpl. destruct (Z.leb_spec thr t) as [Hle|Hlt].
  - specialize (Hn t (or_introl eq_refl)). lia.
  - apply IH. intros u Hu. apply Hn. right. exact Hu.
Qed.

Lemma lint_scan_never trace thr samples : forall k,
  never_crosses samples thr -> lint_scan trace thr k samples = NaN.
Proof.
  induction samples as [|t rest IH]; intros k Hn; [reflexivity|].
  simpl. destruct (Z.leb_spec thr t) as [Hle|Hlt].
  - specialize (Hn t (or_introl eq_refl)). lia.
  - apply IH. intros u Hu. apply Hn. right. exact Hu.
Qed.

(** C4: the nearest-sample strategy returns the index of the first sample
    at or above baseline + 20 times the sample period of 2.5e-9 s, and
    not-a-number when no sample reaches that threshold; the linear
    interpolation returns not-a-number then as well. *)
Theorem nearest_sample_time_and_sentinel (trace : list Z) (baseline : Z) :
  (forall i, first_crossing trace (baseline + 20) i ->
     _reconstruct_time_from_trace trace baseline
     = Fin (inject_Z (Z.of_nat i) * 2.5e-9)%Q) /\
  (never_crosses trace (baseline + 20) ->
     _reconstruct_time_from_trace trace baseline = NaN /\
     _reconstruct_time_from_trace_LINT trace baseline = NaN).
Proof.
  split.
  - intros i Hi. unfold _reconstruct_time_from_trace.
    change (baseline + ADC_THRESHOLD) with (baseline + 20).
    rewrite (nearest_scan_first _ _ 0 i Hi). reflexivity.
  - intros Hn. unfold _reconstruct_time_from_trace,
      _reconstruct_time_from_trace_LINT.
    change (baseline + ADC_THRESHOLD) with (baseline + 20).
    rewrite nearest_scan_never, lint_scan_never by exact Hn. split; reflexivity.
Qed.






(* ================================================================== *)
(** ** The text of a trace *)

Lemma digits_value_uint d : forall acc,
  digits_value acc (NilEmpty.string_of_uint d) = Some (uint_value acc d).
Proof.
  induction d; intros acc; simpl; try reflexivity; apply IHd.
Qed.

Lemma uint_value_pos d : forall p,
  uint_value (Zpos p) d = Zpos (Pos.of_uint_acc d p).
Proof.
  induction d; intros p; cbn [uint_value Pos.of_uint_acc]; try reflexivity;
    match goal with
    | |- uint_value ?a _ = _ =>
        match goal with
        | |- _ = Zpos (Pos.of_uint_acc _ ?q) =>
            replace a with (Zpos q) by lia; apply IHd
        end
    end.
Qed.

Lemma uint_value_of_uint d : uint_value 0 d = Z.of_uint d.
Proof.
  unfold Z.of_uint.
  induction d; simpl; try reflexivity; try exact IHd;
    match goal with
    | |- uint_value ?a _ = _ =>
        match goal with
        | |- _ = Zpos (Pos.of_uint_acc _ ?q) =>
            change a with (Zpos q); apply uint_value_pos
        end
    end.
Qed.

Lemma plain_uint d : plain (NilEmpty.string_of_uint d) = true.
Proof. induction d; simpl; auto. Qed.

Lemma string_of_uint_nonempty d :
  d <> Decimal.Nil -> NilEmpty.string_of_uint d <> EmptyString.
Proof. destruct d; simpl; congruence. Qed.

Lemma lstrip_plain s : plain s = true -> lstrip s = s.
Proof.
  destruct s as [|c r]; simpl; [reflexivity|].
  destruct (is_space c); simpl; [discriminate | reflexivity].
Qed.

Lemma rstrip_plain s : plain s = true -> rstrip s = s.
Proof.
  induction s as [|c r IH]; simpl; [reflexivity|].
  intros H. apply andb_prop in H as [H Hr]. apply andb_prop in H as [Hc _].
  rewrite (IH Hr). destruct r; [|reflexivity].
  destruct (is_space c); [discriminate | reflexivity].
Qed.

Lemma plain_decimal z : plain (decimal z) = true.
Proof.
  unfold decimal. destruct z as [|p|p]; simpl; try reflexivity.
  - unfold NilZero.string_of_uint. destruct (Pos.to_uint p) eqn:E;
      try reflexivity; rewrite <- E; apply plain_uint.
  - unfold NilZero.string_of_uint. destruct (Pos.to_uint p) eqn:E;
      try reflexivity; rewrite <- E; apply plain_uint.
Qed.

Lemma unsigned_value_to_uint p :
  unsigned_value (NilZero.string_of_uint (Pos.to_uint p)) = Some (Zpos p).
Proof.
  pose proof (Unsigned.to_uint_nonnil p) as Hnil.
  assert (E : NilZero.string_of_uint (Pos.to_uint p)
              = NilEmpty.string_of_uint (Pos.to_uint p)).
  { unfold NilZero.string_of_uint. destruct (Pos.to_uint p); congruence. }
  rewrite E. unfold unsigned_value.
  destruct (NilEmpty.string_of_uint (Pos.to_uint p)) eqn:Es.
  - destruct (string_of_uint_nonempty _ Hnil Es).
  - rewrite <- Es, digits_value_uint, uint_value_of_uint.
    unfold Z.of_uint. rewrite Unsigned.of_to. reflexivity.
Qed.

Lemma first_digit_not_sign d c r :
  NilEmpty.string_of_uint d = String c r ->
  Ascii.eqb c "-" = false /\ Ascii.eqb c "+" = false.
Proof. destruct d; simpl; intros H; inversion H; split; reflexivity. Qed.

Lemma py_int_decimal z : py_int (decimal z) = Some z.
Proof.
  unfold py_int.
  rewrite (lstrip_plain _ (plain_decimal z)), (rstrip_plain _ (plain_decimal z)).
  unfold decimal. destruct z as [|p|p]; [reflexivity| |].
  - simpl Z.to_int. simpl NilZero.string_of_int.
    pose proof (unsigned_value_to_uint p) as Hv.
    assert (E : NilZero.string_of_uint (Pos.to_uint p)
                = NilEmpty.string_of_uint (Pos.to_uint p)).
    { unfold NilZero.string_of_uint.
      pose proof (Unsigned.to_uint_nonnil p).
      destruct (Pos.to_uint p); congruence. }
    destruct (NilZero.string_of_uint (Pos.to_uint p)) as [|c r] eqn:Es;
      [discriminate Hv|].
    symmetry in E. destruct (first_digit_not_sign _ _ _ E) as [-> ->].
    exact Hv.
  - simpl Z.to_int. simpl NilZero.string_of_int. cbv iota beta.
    change (Ascii.eqb "-" "-") with true. cbv iota.
    rewrite unsigned_value_to_uint. reflexivity.
Qed.

Lemma split_commas_plain f : plain f = true -> split_commas f = [f].
Proof.
  induction f as [|c r IH]; simpl; [reflexivity|].
  intros H. apply andb_prop in H as [H Hr]. apply andb_prop in H as [_ Hc].
  apply negb_true_iff in Hc. rewrite Hc, (IH Hr). reflexivity.
Qed.

Lemma split_commas_field f s :
  plain f = true ->
  split_commas (f ++ String comma s) = f :: split_commas s.
Proof.
  induction f as [|c r IH]; simpl; [reflexivity|].
  intros H. apply andb_prop in H as [H Hr]. apply andb_prop in H as [_ Hc].
  apply negb_true_iff in Hc. rewrite Hc, (IH Hr). reflexivity.
Qed.

Lemma split_trace_text zs :
  split_commas (trace_text zs) = map decimal zs ++ [EmptyString].
Proof.
  induction zs as [|z rest IH]; simpl; [reflexivity|].
  rewrite split_commas_field by apply plain_decimal. rewrite IH. reflexivity.
Qed.

Lemma split_join_decimal zs :
  zs <> [] -> split_commas (join_commas (map decimal zs)) = map decimal zs.
Proof.
  induction zs as [|z rest IH]; [congruence|]. intros _.
  destruct rest as [|z' rest'].
  - simpl. apply split_commas_plain, plain_decimal.
  - change (join_commas (map decimal (z :: z' :: rest')))
      with (decimal z ++ String comma (join_commas (map decimal (z' :: rest'))))%string.
    rewrite split_commas_field by apply plain_decimal.
    rewrite IH by congruence. reflexivity.
Qed.

Lemma py_index_last {A} (l : list A) (a : A) :
  py_index (l ++ [a]) (-1) = Some a.
Proof.
  unfold py_index. rewrite length_app. simpl List.length.
  destruct (Z.ltb_spec (-1) (- Z.of_nat (List.length l + 1))); [lia|].
  simpl (-1 <? 0).
  replace (Z.to_nat (-1 + Z.of_nat (List.length l + 1)))
    with (List.length l) by lia.
  rewrite nth_error_app2 by lia. rewrite Nat.sub_diag. reflexivity.
Qed.

Lemma drop_trailing_empty_snoc fs :
  drop_trailing_empty (fs ++ [EmptyString]) = fs.
Proof.
  unfold drop_trailing_empty. rewrite py_index_last. apply removelast_last.
Qed.

Lemma decimal_nonempty z : decimal z <> EmptyString.
Proof.
  intros H. pose proof (py_int_decimal z) as Hz. rewrite H in Hz.
  discriminate Hz.
Qed.

Lemma drop_trailing_empty_decimal zs :
  drop_trailing_empty (map decimal zs) = map decimal zs.
Proof.
  unfold drop_trailing_empty.
  destruct (py_index (map decimal zs) (-1)) as [f|] eqn:E; [|reflexivity].
  destruct f; [|reflexivity].
  exfalso. unfold py_index in E.
  destruct (-1 <? - Z.of_nat (List.length (map decimal zs))); [discriminate|].
  simpl (-1 <? 0) in E. cbv iota in E.
  apply nth_error_In, in_map_iff in E. destruct E as [z [Hz _]].
  exact (decimal_nonempty z Hz).
Qed.

Lemma ints_of_decimal zs : ints_of_fields (map decimal zs) = Some zs.
Proof.
  induction zs as [|z rest IH]; simpl; [reflexivity|].
  rewrite py_int_decimal, IH. reflexivity.
Qed.

Lemma parse_trace_text zs : parse_trace (trace_text zs) = Some zs.
Proof.
  unfold parse_trace.
  rewrite split_trace_text, drop_trailing_empty_snoc. apply ints_of_decimal.
Qed.

Lemma parse_join_decimal zs :
  zs <> [] -> parse_trace (join_commas (map decimal zs)) = Some zs.
Proof.
  intros H. unfold parse_trace.
  rewrite (split_join_decimal zs H), drop_trailing_empty_decimal.
  apply ints_of_decimal.
Qed.

(* ================================================================== *)
(** ** Statements: sequencing, triples and invariants *)

Section StoreFacts.

Context {collaborators : Collaborators}.

Lemma bind_ok {A B} (m : M A) (k : A -> M B) s a s1 :
  m s = Ok a s1 -> bind m k s = k a s1.
Proof. intros H. unfold bind. rewrite H. reflexivity. Qed.

Lemma bind_raise {A B} (m : M A) (k : A -> M B) s e s1 :
  m s = Raise e s1 -> bind m k s = Raise e s1.
Proof. intros H. unfold bind. rewrite H. reflexivity. Qed.

Lemma bind_assoc {A B C} (m : M A) (k : A -> M B) (h : B -> M C) s :
  bind (bind m k) h s = bind m (fun a => bind (k a) h) s.
Proof. unfold bind. destruct (m s); reflexivity. Qed.

Lemma process_and_store_results_steps destination overwrite limit s :
  process_and_store_results destination overwrite limit s
  = bind (before_publish destination overwrite limit)
         (fun _ => _move_results_table_into_destination) s.
Proof.
  unfold process_and_store_results, before_publish, bind.
  repeat match goal with
         | |- context [match ?m ?s with Ok _ _ => _ | Raise _ _ => _ end] =>
             destruct (m s); try reflexivity
         end.
Qed.
End StoreFacts.

Section Hoare.

Lemma hoare_ret {A} (P : state -> Prop) (a : A) Q E :
  (forall s, P s -> Q a s) -> hoare P (ret a) Q E.
Proof. intros H s Hs. apply H, Hs. Qed.

Lemma hoare_raise {A} (P : state -> Prop) e (Q : A -> state -> Prop)
  (E : state -> Prop) :
  (forall s, P s -> E s) -> hoare P (raise e) Q E.
Proof. intros H s Hs. apply H, Hs. Qed.

Lemma hoare_bind {A B} P (m : M A) Q (k : A -> M B) R E :
  hoare P m Q E -> (forall a, hoare (Q a) (k a) R E) ->
  hoare P (bind m k) R E.
Proof.
  intros Hm Hk s Hs. unfold bind. specialize (Hm s Hs).
  destruct (m s) as [a s1|e s1]; [apply (Hk a s1 Hm) | exact Hm].
Qed.

Lemma hoare_get P E : hoare P get (fun a s => a = s /\ P s) E.
Proof. intros s Hs. simpl. auto. Qed.

Lemma hoare_modify (P : state -> Prop) f (Q : unit -> state -> Prop) E :
  (forall s, P s -> Q tt (f s)) -> hoare P (modify f) Q E.
Proof. intros H s Hs. apply H, Hs. Qed.

Lemma hoare_lift {A} (P : state -> Prop) (r : result A)
  (Q : A -> state -> Prop) (E : state -> Prop) :
  (forall a s, r = Done a -> P s -> Q a s) ->
  (forall e s, r = Fail e -> P s -> E s) ->
  hoare P (lift r) Q E.
Proof.
  intros HQ HE s Hs. destruct r as [a|e]; simpl;
    [apply (HQ a s eq_refl Hs) | apply (HE e s eq_refl Hs)].
Qed.

Lemma hoare_conseq {A} (P P' : state -> Prop) (m : M A)
  (Q Q' : A -> state -> Prop) (E E' : state -> Prop) :
  hoare P' m Q' E' ->
  (forall s, P s -> P' s) -> (forall a s, Q' a s -> Q a s) ->
  (forall s, E' s -> E s) ->
  hoare P m Q E.
Proof.
  intros H HP HQ HE s Hs. specialize (H s (HP s Hs)).
  destruct (m s); [apply HQ | apply HE]; exact H.
Qed.

Lemma hoare_for_each {A B} (I : state -> Prop) (body : A -> M B)
  (l : list A) (E : state -> Prop) :
  (forall a, In a l -> hoare I (body a) (fun _ => I) E) ->
  hoare I (for_each body l) (fun _ => I) E.
Proof.
  induction l as [|a rest IH]; intros Hbody.
  - apply hoare_ret. auto.
  - simpl. eapply hoare_bind; [apply Hbody; left; reflexivity|].
    intros b. eapply hoare_bind.
    + apply IH. intros a' Ha'. apply Hbody. right. exact Ha'.
    + intros bs. apply hoare_ret. auto.
Qed.

Lemma hoare_attribute {A} (P : state -> Prop) (o : option A)
  (E : state -> Prop) :
  (forall s, P s -> E s) ->
  hoare P (attribute o) (fun a s => o = Some a /\ P s) E.
Proof.
  intros HE s Hs. destruct o; simpl; [auto | apply HE, Hs].
Qed.

End Hoare.

Section FindFacts.

Lemma find_filter_some {A} (p q : A -> bool) l x :
  find p l = Some x -> q x = true -> find p (filter q l) = Some x.
Proof.
  induction l as [|a r IH]; simpl; [discriminate|].
  destruct (p a) eqn:Hp.
  - intros [= ->] Hq. rewrite Hq. simpl. rewrite Hp. reflexivity.
  - intros Hx Hq. destruct (q a); simpl; [rewrite Hp|]; apply IH; assumption.
Qed.

Lemma find_filter_none {A} (p q : A -> bool) l :
  find p l = None -> find p (filter q l) = None.
Proof.
  induction l as [|a r IH]; simpl; [reflexivity|].
  destruct (p a) eqn:Hp; [discriminate|].
  intros H. destruct (q a); simpl; [rewrite Hp|]; apply IH, H.
Qed.

Lemma find_app_last {A} (p : A -> bool) l c :
  find p (l ++ [c])
  = match find p l with
    | Some x => Some x
    | None => if p c then Some c else None
    end.
Proof.
  induction l as [|a r IH]; simpl; [reflexivity|].
  destruct (p a); [reflexivity | exact IH].
Qed.

Lemma find_name_without nm other g :
  nm <> other -> find_name nm (without_name other g) = find_name nm g.
Proof.
  intros Hne. unfold find_name, without_name.
  destruct (find (fun c => String.eqb (name c) nm) g) as [c|] eqn:E.
  - apply find_filter_some; [exact E|].
    apply find_some in E as [_ Hc]. apply String.eqb_eq in Hc.
    apply negb_true_iff, String.eqb_neq. congruence.
  - apply find_filter_none, E.
Qed.

Lemma find_name_without_same nm g : find_name nm (without_name nm g) = None.
Proof.
  unfold find_name, without_name. induction g as [|c r IH]; simpl; [reflexivity|].
  destruct (String.eqb (name c) nm) eqn:E; simpl; [exact IH|].
  rewrite E. exact IH.
Qed.

Lemma find_ident_without h nm g c :
  find_ident h g = Some c -> name c <> nm ->
  find_ident h (without_name nm g) = Some c.
Proof.
  intros E Hne. apply find_filter_some; [exact E|].
  apply negb_true_iff, String.eqb_neq, Hne.
Qed.

Lemma find_ident_fresh h g :
  Forall (fun c => (ident c < h)%nat) g -> find_ident h g = None.
Proof.
  intros H. unfold find_ident. induction H as [|c r Hc _ IH]; simpl; [reflexivity|].
  destruct (Nat.eqb_spec (ident c) h); [lia | exact IH].
Qed.

Lemma Forall_without {P : child -> Prop} nm g :
  Forall P g -> Forall P (without_name nm g).
Proof.
  intros H. unfold without_name. apply Forall_forall. intros c Hc.
  apply filter_In in Hc as [Hc _]. rewrite Forall_forall in H. auto.
Qed.

Lemma set_content_fresh h v g :
  Forall (fun c => (ident c < h)%nat) g -> set_content h v g = g.
Proof.
  intros H. unfold set_content. induction H as [|c r Hc _ IH]; simpl; [reflexivity|].
  rewrite IH. destruct (Nat.eqb_spec (ident c) h); [lia | reflexivity].
Qed.

End FindFacts.

Section Keeps.

Variable I : state -> Prop.

Lemma keeps_ret {A} (a : A) : keeps I (ret a).
Proof. apply hoare_ret. auto. Qed.

Lemma keeps_raise {A} e : keeps I (@raise A e).
Proof. apply hoare_raise. auto. Qed.

Lemma keeps_bind {A B} (m : M A) (k : A -> M B) :
  keeps I m -> (forall a, keeps I (k a)) -> keeps I (bind m k).
Proof. intros Hm Hk. eapply hoare_bind; [exact Hm | exact Hk]. Qed.

Lemma keeps_get_bind {B} (k : state -> M B) :
  (forall s, I s -> keeps I (k s)) -> keeps I (bind get k).
Proof. intros H s Hs. unfold bind, get. apply (H s Hs s Hs). Qed.

Lemma keeps_lift {A} (r : result A) : keeps I (lift r).
Proof. apply hoare_lift; auto. Qed.

Lemma keeps_modify f : (forall s, I s -> I (f s)) -> keeps I (modify f).
Proof. intros H. apply hoare_modify. exact H. Qed.

Lemma keeps_readonly {A} (m : M A) : readonly m -> keeps I m.
Proof.
  intros Hm s Hs. specialize (Hm s).
  destruct (m s); simpl in Hm; subst; exact Hs.
Qed.

Lemma keeps_for_each {A B} (body : A -> M B) l :
  (forall a, keeps I (body a)) -> keeps I (for_each body l).
Proof. intros H. apply hoare_for_each. intros a _. apply H. Qed.

Lemma keeps_ret_bind {A B} (a : A) (k : A -> M B) :
  keeps I (k a) -> keeps I (bind (ret a) k).
Proof. intros H s Hs. apply (H s Hs). Qed.

Lemma keeps_attribute {A} (o : option A) : keeps I (attribute o).
Proof. destruct o; [apply keeps_ret | apply keeps_raise]. Qed.

End Keeps.

Lemma readonly_deref h : readonly (deref h).
Proof.
  intros s. unfold deref, bind, get. destruct (find_ident h (group s)); reflexivity.
Qed.

Lemma readonly_getNode nm : readonly (getNode nm).
Proof.
  intros s. unfold getNode, bind, get. destruct (find_name nm (group s)); reflexivity.
Qed.

Lemma readonly_processed_rows h : readonly (processed_rows h).
Proof.
  intros s. unfold processed_rows, bind. pose proof (readonly_deref h s) as H.
  destruct (deref h s) as [c s'|e s']; simpl in H; subst s'; [|reflexivity].
  destruct (content c) as [[rows|rows]|b]; reflexivity.
Qed.

Lemma readonly_source_table : readonly source_table.
Proof.
  intros s. unfold source_table, bind, get.
  pose proof (readonly_deref (self_source s) s) as H.
  destruct (deref (self_source s) s) as [c s'|e s']; simpl in H; subst s';
    [|reflexivity].
  destruct (content c); reflexivity.
Qed.

Lemma readonly_ok {A} (m : M A) s a s' :
  readonly m -> m s = Ok a s' -> s' = s.
Proof. intros Hm E. specialize (Hm s). rewrite E in Hm. exact Hm. Qed.

Create HintDb keeps.
#[local] Hint Resolve keeps_ret keeps_raise keeps_lift keeps_attribute
  readonly_deref readonly_getNode readonly_processed_rows
  readonly_source_table : keeps.
#[local] Hint Extern 3 (keeps _ (bind get _)) =>
  apply keeps_get_bind; intros ? ? : keeps.
#[local] Hint Extern 4 (keeps _ (bind _ _)) =>
  apply keeps_bind; [| intros ?] : keeps.
#[local] Hint Extern 2 (keeps _ (if ?b then _ else _)) => destruct b : keeps.
#[local] Hint Extern 2 (keeps _ (match ?o with Some _ => _ | None => _ end)) =>
  destruct o : keeps.
#[local] Hint Extern 5 (keeps _ (for_each _ _)) =>
  apply keeps_for_each; intros ? : keeps.
#[local] Hint Extern 6 (keeps _ _) => apply keeps_readonly : keeps.

Section Staging.

Context {collaborators : Collaborators}.

Variable s0 : state.
Variable h : nat.
Hypothesis Hfresh : Forall (fun c => (ident c < h)%nat) (group s0).

Lemma find_ident_staged rows log :
  find_ident h (group (staged s0 h rows log))
  = Some (Child "_t_events" h (Table (ProcessedTable rows))).
Proof.
  simpl. unfold find_ident. rewrite find_app_last.
  fold (find_ident h (without_name "_t_events" (group s0))).
  rewrite find_ident_fresh by (apply Forall_without, Hfresh).
  simpl. rewrite Nat.eqb_refl. reflexivity.
Qed.

Lemma processed_rows_staged rows log :
  processed_rows h (staged s0 h rows log) = Ok rows (staged s0 h rows log).
Proof.
  unfold processed_rows, deref, bind, get.
  rewrite find_ident_staged. reflexivity.
Qed.

Lemma write_rows_staged rows' rows log :
  write_rows h rows' (staged s0 h rows log) = Ok tt (staged s0 h rows' log).
Proof.
  unfold write_rows, modify, staged, with_group. simpl. f_equal. f_equal.
  unfold set_content. rewrite map_app.
  fold (set_content h (Table (ProcessedTable rows'))
          (without_name "_t_events" (group s0))).
  rewrite set_content_fresh by (apply Forall_without, Hfresh).
  simpl. rewrite Nat.eqb_refl. reflexivity.
Qed.

Let I := in_stage s0 h.

Lemma keeps_write_rows rows' : keeps I (write_rows h rows').
Proof.
  intros s [rows [log ->]].
  rewrite write_rows_staged. exists rows', log. reflexivity.
Qed.

Lemma keeps_write_tmp s table rows' :
  I s -> self_tmp_events s = Some table -> keeps I (write_rows table rows').
Proof.
  intros [rows [log ->]] H. simpl in H. injection H as <-.
  apply keeps_write_rows.
Qed.

Lemma keeps_log idx :
  keeps I (modify (fun s => with_decoded (idx :: decoded s) s)).
Proof.
  apply keeps_modify. intros s [rows [log ->]].
  exists rows, (idx :: log). reflexivity.
Qed.

Hint Resolve keeps_log : keeps.

Lemma keeps_get_trace idx : keeps I (_get_trace idx).
Proof. unfold _get_trace. auto 20 with keeps. Qed.

Hint Resolve keeps_get_trace : keeps.

Lemma keeps_reconstruct ev : keeps I (_reconstruct_time_from_traces ev).
Proof.
  unfold _reconstruct_time_from_traces, slot_time. auto 30 with keeps.
Qed.

Hint Resolve keeps_reconstruct : keeps.

Lemma keeps_process_traces : keeps I (process_traces None).
Proof.
  unfold process_traces, process_traces_indexed, process_traces_all,
    _process_traces_from_event_list.
  simpl truthy. cbv iota. auto 30 with keeps.
Qed.

Hint Resolve keeps_process_traces keeps_write_rows : keeps.

Ltac with_tmp :=
  apply keeps_get_bind; intros ? [? [? ->]]; simpl attribute;
  apply keeps_ret_bind.

Lemma keeps_assign_column set values : keeps I (assign_column set h values).
Proof. unfold assign_column. auto 20 with keeps. Qed.

Hint Resolve keeps_assign_column : keeps.

Lemma keeps_copy_events : keeps I _copy_events_into_table.
Proof. unfold _copy_events_into_table. with_tmp. auto 20 with keeps. Qed.

Lemma keeps_store_results_all : keeps I store_results_all.
Proof. unfold store_results_all. with_tmp. auto 20 with keeps. Qed.

Lemma keeps_update_row pair : keeps I (update_row h pair).
Proof. unfold update_row. destruct pair. auto 20 with keeps. Qed.

Hint Resolve keeps_update_row : keeps.

Lemma keeps_store_results_indexed : keeps I store_results_indexed.
Proof. unfold store_results_indexed. with_tmp. auto 20 with keeps. Qed.

Hint Resolve keeps_store_results_all keeps_store_results_indexed : keeps.

Lemma keeps_store_results : keeps I _store_results_from_traces.
Proof. unfold _store_results_from_traces. auto 20 with keeps. Qed.

Lemma keeps_process_pulseheights : keeps I (_process_pulseheights None).
Proof.
  unfold _process_pulseheights. simpl truthy. cbv iota. auto 20 with keeps.
Qed.

Hint Resolve keeps_process_pulseheights : keeps.

Lemma keeps_store_particles : keeps I _store_number_of_particles.
Proof. unfold _store_number_of_particles. with_tmp. auto 20 with keeps. Qed.

End Staging.

(* ================================================================== *)
(** ** The batch pipeline, step by step *)

Section Steps.

Context {collaborators : Collaborators}.

Lemma in_group_true nm g :
  in_group nm g = true <-> exists c, find_name nm g = Some c.
Proof.
  unfold in_group. destruct (find_name nm g) as [c|]; split; intros H;
    try discriminate; eauto. destruct H as [c H]. discriminate.
Qed.

Lemma in_group_false nm g : in_group nm g = false <-> find_name nm g = None.
Proof.
  unfold in_group. destruct (find_name nm g); split; congruence.
Qed.

Lemma without_name_absent nm g :
  in_group nm g = false -> without_name nm g = g.
Proof.
  intros H. apply in_group_false in H. unfold without_name, find_name in *.
  induction g as [|c r IH]; simpl in *; [reflexivity|].
  destruct (String.eqb (name c) nm); [discriminate|]. simpl.
  f_equal. apply IH, H.
Qed.

Lemma in_group_without nm g : in_group nm (without_name nm g) = false.
Proof. apply in_group_false, find_name_without_same. Qed.

(** The destination check changes nothing but [self.destination]. *)
Lemma check_destination_cases destination overwrite s :
  match _check_destination destination overwrite s with
  | Ok _ s' =>
      s' = with_destination (Some (destination_name destination)) s /\
      destination_name destination <> "_events"%string /\
      exists src, find_ident (self_source s) (group s) = Some src /\
        (name src = destination_name destination \/
         in_group (destination_name destination) (group s) = false \/
         overwrite = true)
  | Raise e s' =>
      s' = s /\
      (e = ClosedNodeError \/
       exists msg, e = RuntimeError msg /\
         (destination = Some "_events"%string \/
          exists src, find_ident (self_source s) (group s) = Some src /\
            name src <> destination_name destination /\
            in_group (destination_name destination) (group s) = true /\
            overwrite = false))
  end.
Proof.
  unfold _check_destination.
  destruct destination as [d|]; simpl destination_name; cbv iota.
  - destruct (String.eqb_spec d "_events") as [->|Hd].
    + simpl. split; [reflexivity|]. right. eexists. split; [reflexivity|].
      left. reflexivity.
    + unfold deref, bind, get.
      destruct (find_ident (self_source s) (group s)) as [src|] eqn:Hsrc;
        simpl; [|auto].
      destruct (String.eqb_spec (name src) d) as [Hn|Hn]; simpl.
      * split; [reflexivity|]. split; [exact Hd|]. exists src. auto.
      * destruct (in_group d (group s)) eqn:Hin; destruct overwrite; simpl;
          try (split; [reflexivity|]; split; [exact Hd|]; exists src; auto).
        split; [reflexivity|]. right. eexists. split; [reflexivity|].
        right. exists src. auto.
  - unfold deref, bind, get.
    destruct (find_ident (self_source s) (group s)) as [src|] eqn:Hsrc;
      simpl; [|auto].
    destruct (String.eqb_spec (name src) "events") as [Hn|Hn]; simpl.
    + split; [reflexivity|]. split; [discriminate|]. exists src. auto.
    + destruct (in_group "events" (group s)) eqn:Hin; destruct overwrite; simpl;
        try (split; [reflexivity|]; split; [discriminate|]; exists src; auto).
      split; [reflexivity|]. right. eexists. split; [reflexivity|].
      right. exists src. auto.
Qed.

Lemma deref_eq hd s :
  deref hd s = match find_ident hd (group s) with
               | Some c => Ok c s
               | None => Raise ClosedNodeError s
               end.
Proof.
  unfold deref, bind, get. destruct (find_ident hd (group s)); reflexivity.
Qed.

Lemma remove_staging_run s :
  (if in_group "_t_events" (group s) then removeNode "_t_events" else ret tt) s
  = Ok tt (with_group (without_name "_t_events" (group s)) s).
Proof.
  destruct (in_group "_t_events" (group s)) eqn:Hin.
  - unfold removeNode, bind, get. rewrite Hin. reflexivity.
  - rewrite (without_name_absent _ _ Hin). destruct s; reflexivity.
Qed.

Lemma createTable_run nm s :
  in_group nm (group s) = false ->
  createTable nm s
  = Ok (fresh s)
       (with_fresh (S (fresh s))
          (with_group (group s ++ [Child nm (fresh s) (Table (ProcessedTable []))])
             s)).
Proof.
  intros Hin. unfold createTable, bind, get. rewrite Hin. reflexivity.
Qed.

Lemma stage_rows_run s len :
  Forall (fun c => (ident c < fresh s)%nat) (group s) ->
  bind (bind (if in_group "_t_events" (group s) then removeNode "_t_events"
              else ret tt)
             (fun _ => bind (createTable "_t_events")
                (fun table => bind (write_rows table (repeat fresh_row len))
                   (fun _ => ret table))))
       (fun table => modify (with_tmp_events (Some table))) s
  = Ok tt (staged s (fresh s) (repeat fresh_row len) (decoded s)).
Proof.
  intros Hfresh.
  rewrite bind_assoc. rewrite (bind_ok _ _ _ _ _ (remove_staging_run s)).
  rewrite bind_assoc.
  rewrite (bind_ok _ _ _ _ _
             (createTable_run "_t_events"
                (with_group (without_name "_t_events" (group s)) s)
                (in_group_without "_t_events" (group s)))).
  unfold write_rows.
  unfold bind, modify, ret, with_tmp_events, with_fresh, with_group, staged.
  cbn [group fresh decoded cls self_indexes self_source
    self_limit self_destination self_tmp_events]. f_equal. f_equal.
  unfold set_content. rewrite map_app.
  fold (set_content (fresh s)
          (Table (ProcessedTable (repeat fresh_row len)))
          (without_name "_t_events" (group s))).
  rewrite set_content_fresh by (apply Forall_without, Hfresh).
  cbn [map ident name]. rewrite Nat.eqb_refl. reflexivity.
Qed.

Lemma create_empty_results_table_run s :
  Forall (fun c => (ident c < fresh s)%nat) (group s) ->
  bind _create_empty_results_table
       (fun table => modify (with_tmp_events (Some table))) s
  = match staging_length s with
    | Some len => Ok tt (staged s (fresh s) (repeat fresh_row len) (decoded s))
    | None => Raise ClosedNodeError s
    end.
Proof.
  intros Hfresh. unfold _create_empty_results_table, staging_length.
  rewrite bind_assoc. unfold bind at 1. unfold get at 1. cbv beta iota.
  rewrite bind_assoc.
  destruct (self_limit s) as [[|k]|] eqn:Hlim.
  - rewrite bind_assoc. unfold bind at 1. rewrite deref_eq.
    destruct (find_ident (self_source s) (group s)) as [c|]; [|reflexivity].
    cbv beta iota. cbn [option_map]. rewrite <- (stage_rows_run s _ Hfresh).
    unfold bind at 1. reflexivity.
  - unfold bind at 1. unfold ret at 1. cbv beta iota.
    rewrite <- (stage_rows_run s _ Hfresh). reflexivity.
  - rewrite bind_assoc. unfold bind at 1. rewrite deref_eq.
    destruct (find_ident (self_source s) (group s)) as [c|]; [|reflexivity].
    cbv beta iota. cbn [option_map]. rewrite <- (stage_rows_run s _ Hfresh).
    unfold bind at 1. reflexivity.
Qed.

End Steps.

Section Publish.

Context {collaborators : Collaborators}.

Lemma before_publish_cases destination overwrite limit s :
  Forall (fun c => (ident c < fresh s)%nat) (group s) ->
  let d := destination_name destination in
  let s1 := with_destination (Some d) (with_limit limit s) in
  match before_publish destination overwrite limit s with
  | Ok _ s' =>
      in_stage s1 (fresh s) s' /\ d <> "_events"%string /\
      exists src, find_ident (self_source s) (group s) = Some src /\
        (name src = d \/ in_group d (group s) = false \/ overwrite = true)
  | Raise e s' =>
      s' = with_limit limit s \/ s' = s1 \/ in_stage s1 (fresh s) s'
  end.
Proof.
  intros Hfresh d s1. unfold before_publish.
  unfold bind at 1. unfold modify at 1.
  unfold bind at 1.
  pose proof (check_destination_cases destination overwrite
                (with_limit limit s)) as Hcheck.
  destruct (_check_destination destination overwrite (with_limit limit s))
    as [[] s'|e s']; [|left; apply Hcheck].
  destruct Hcheck as [-> [Hd Hsrc]]. fold d. fold s1.
  assert (Hcreate : _create_results_table s1
            = bind (bind _create_empty_results_table
                      (fun table => modify (with_tmp_events (Some table))))
                   (fun _ => _copy_events_into_table) s1).
  { unfold _create_results_table. rewrite bind_assoc. reflexivity. }
  unfold bind at 1. rewrite Hcreate. unfold bind at 1.
  rewrite (create_empty_results_table_run s1 Hfresh).
  destruct (staging_length s1) as [len|]; [|right; left; reflexivity].
  assert (HI : in_stage s1 (fresh s) (staged s1 (fresh s1)
                 (repeat fresh_row len) (decoded s1)))
    by (eexists; eexists; reflexivity).
  pose proof (keeps_copy_events s1 (fresh s) Hfresh _ HI) as Hcopy.
  change (fresh s1) with (fresh s).
  destruct (_copy_events_into_table _) as [[] s2|e s2]; [|right; right; exact Hcopy].
  pose proof (keeps_store_results s1 (fresh s) Hfresh _ Hcopy) as Hstore.
  unfold bind at 1.
  destruct (_store_results_from_traces s2) as [[] s3|e s3];
    [|right; right; exact Hstore].
  pose proof (keeps_store_particles s1 (fresh s) Hfresh _ Hstore) as Hpart.
  destruct (_store_number_of_particles s3) as [[] s4|e s4];
    [|right; right; exact Hpart].
  split; [exact Hpart|]. split; [exact Hd|]. exact Hsrc.
Qed.

End Publish.

Section Move.

Context {collaborators : Collaborators}.

Lemma rename_child_fresh h nm g :
  Forall (fun c => (ident c < h)%nat) g -> rename_child h nm g = g.
Proof.
  intros H. unfold rename_child. induction H as [|c r Hc _ IH]; simpl; [reflexivity|].
  rewrite IH. destruct (Nat.eqb_spec (ident c) h); [lia | reflexivity].
Qed.

Lemma Forall_rename_child (P : nat -> Prop) h nm g :
  Forall (fun c => P (ident c)) g ->
  Forall (fun c => P (ident c)) (rename_child h nm g).
Proof.
  intros H. unfold rename_child. induction H as [|c r Hc _ IH]; simpl;
    constructor; [|exact IH].
  destruct (Nat.eqb (ident c) h); exact Hc.
Qed.

Lemma find_ident_some h g c : find_ident h g = Some c -> ident c = h /\ In c g.
Proof.
  intros H. apply find_some in H as [Hin Heq].
  apply Nat.eqb_eq in Heq. auto.
Qed.

Lemma find_name_some nm g c : find_name nm g = Some c -> name c = nm /\ In c g.
Proof.
  intros H. apply find_some in H as [Hin Heq].
  apply String.eqb_eq in Heq. auto.
Qed.

(** After the renaming of the node [h] to a name that was free, the name
    leads to that node. *)
Lemma find_name_rename_child h nm g c :
  find_ident h g = Some c -> find_name nm g = None ->
  exists c', find_name nm (rename_child h nm g) = Some c' /\ ident c' = h.
Proof.
  unfold find_ident, find_name, rename_child.
  induction g as [|a r IH]; simpl; [discriminate|].
  destruct (Nat.eqb_spec (ident a) h) as [Ha|Ha].
  - intros _ _. simpl. rewrite String.eqb_refl. eexists. split; [reflexivity|].
    exact Ha.
  - destruct (String.eqb (name a) nm) eqn:Hn; [discriminate|].
    intros Hc Hnone. simpl. apply IH; assumption.
Qed.

Lemma find_ident_rename_child h nm g c :
  find_ident h g = Some c ->
  find_ident h (rename_child h nm g) = Some (Child nm h (content c)).
Proof.
  unfold find_ident, rename_child.
  induction g as [|a r IH]; simpl; [discriminate|].
  destruct (Nat.eqb_spec (ident a) h) as [Ha|Ha].
  - intros [= ->]. simpl. rewrite Ha, Nat.eqb_refl. reflexivity.
  - intros Hc. simpl. destruct (Nat.eqb_spec (ident a) h); [contradiction|].
    apply IH, Hc.
Qed.

Lemma find_ident_rename_other h h' nm g :
  h' <> h -> find_ident h' (rename_child h nm g) = find_ident h' g.
Proof.
  intros Hne. unfold find_ident, rename_child.
  induction g as [|a r IH]; simpl; [reflexivity|].
  destruct (Nat.eqb_spec (ident a) h) as [Ha|Ha]; simpl.
  - destruct (Nat.eqb_spec (ident a) h'); [congruence | exact IH].
  - destruct (Nat.eqb (ident a) h'); [reflexivity | exact IH].
Qed.

Lemma without_name_app nm g g' :
  without_name nm (g ++ g') = without_name nm g ++ without_name nm g'.
Proof. apply filter_app. Qed.

Lemma with_source_same s : with_source (self_source s) s = s.
Proof. destruct s; reflexivity. Qed.

Lemma rename_run x nm s cx :
  find_ident x (group s) = Some cx -> name cx <> nm ->
  in_group nm (group s) = false ->
  rename x nm s = Ok tt (with_group (rename_child x nm (group s)) s).
Proof.
  intros Hx Hn Hin. unfold rename. rewrite (bind_ok _ _ _ cx s);
    [|rewrite deref_eq, Hx; reflexivity].
  apply String.eqb_neq in Hn. rewrite Hn. unfold bind, get. rewrite Hin.
  reflexivity.
Qed.

Lemma rename_taken x nm s cx :
  find_ident x (group s) = Some cx -> name cx <> nm ->
  in_group nm (group s) = true ->
  rename x nm s = Raise NodeError s.
Proof.
  intros Hx Hn Hin. unfold rename. rewrite (bind_ok _ _ _ cx s);
    [|rewrite deref_eq, Hx; reflexivity].
  apply String.eqb_neq in Hn. rewrite Hn. unfold bind, get. rewrite Hin.
  reflexivity.
Qed.

Lemma rename_closed x nm s :
  find_ident x (group s) = None -> rename x nm s = Raise ClosedNodeError s.
Proof.
  intros Hx. unfold rename. apply bind_raise. rewrite deref_eq, Hx. reflexivity.
Qed.

Lemma remove_if_present nm s :
  (if in_group nm (group s) then removeNode nm else ret tt) s
  = Ok tt (with_group (without_name nm (group s)) s).
Proof.
  destruct (in_group nm (group s)) eqn:Hin.
  - unfold removeNode, bind, get. rewrite Hin. reflexivity.
  - rewrite (without_name_absent _ _ Hin). destruct s; reflexivity.
Qed.

Lemma getNode_run nm s c :
  find_name nm (group s) = Some c -> getNode nm s = Ok (ident c) s.
Proof. intros H. unfold getNode, bind, get. rewrite H. reflexivity. Qed.

Lemma find_ident_without_gone x nm g c :
  NoDup (map ident g) -> find_ident x g = Some c -> name c = nm ->
  find_ident x (without_name nm g) = None.
Proof.
  intros Hnd Hc Hn. subst nm. unfold find_ident, without_name in *.
  induction g as [|a r IH]; simpl in *; [reflexivity|].
  apply NoDup_cons_iff in Hnd as [Hnotin Hnd'].
  destruct (Nat.eqb_spec (ident a) x) as [Ha|Ha].
  - injection Hc as ->. rewrite String.eqb_refl. simpl.
    destruct (find (fun c0 => Nat.eqb (ident c0) x)
                (filter (fun c0 => negb (String.eqb (name c0) (name c))) r))
      as [b|] eqn:Eb; [|reflexivity].
    apply find_some in Eb as [Hin Hb]. apply filter_In in Hin as [Hin _].
    apply Nat.eqb_eq in Hb. exfalso. apply Hnotin. rewrite Ha, <- Hb.
    apply in_map, Hin.
  - destruct (String.eqb (name a) (name c)); simpl.
    + apply IH; assumption.
    + destruct (Nat.eqb_spec (ident a) x); [contradiction|].
      apply IH; assumption.
Qed.

Section Staged.

Variable s1 : state.
Variable h : nat.
Variable rows : list row.
Variable log : list Z.
Variable c : child.
Variable d : string.

Hypothesis Hfresh : Forall (fun c => (ident c < h)%nat) (group s1).
Hypothesis Hnodup : NoDup (map ident (group s1)).
Hypothesis Hsource : find_ident (self_source s1) (group s1) = Some c.
Hypothesis Hdest : self_destination s1 = Some d.

Let G0 := without_name "_t_events" (group s1).
Let tmp := Child "_t_events" h (Table (ProcessedTable rows)).

Lemma source_not_tmp : self_source s1 <> h.
Proof.
  destruct (find_ident_some _ _ _ Hsource) as [Hid Hin].
  rewrite Forall_forall in Hfresh. specialize (Hfresh c Hin). lia.
Qed.

Lemma find_source_staged :
  find_ident (self_source s1) (G0 ++ [tmp])
  = if String.eqb (name c) "_t_events" then None else Some c.
Proof.
  unfold find_ident. rewrite find_app_last.
  fold (find_ident (self_source s1) G0).
  destruct (String.eqb_spec (name c) "_t_events") as [Hn|Hn].
  - unfold G0. rewrite (find_ident_without_gone _ _ _ c Hnodup Hsource Hn).
    simpl. destruct (Nat.eqb_spec h (self_source s1)); [|reflexivity].
    exfalso. apply source_not_tmp. congruence.
  - unfold G0. rewrite (find_ident_without _ _ _ c Hsource Hn). reflexivity.
Qed.

Lemma move_staged s3 :
  _move_results_table_into_destination (staged s1 h rows log) = Ok tt s3 ->
  name c <> "_t_events"%string /\ d <> "_t_events"%string /\
  (name c = "events"%string -> in_group "_events" G0 = false) /\
  s3 = with_group (published c d h rows (group s1)) (staged s1 h rows log).
Proof.
  unfold _move_results_table_into_destination.
  unfold bind at 1. unfold get at 1. cbv beta iota.
  unfold bind at 1. rewrite deref_eq.
  cbn [group self_source staged]. fold G0. fold tmp.
  rewrite find_source_staged.
  destruct (String.eqb_spec (name c) "_t_events") as [Hn|Hn]; [discriminate|].
  cbv beta iota.
  set (s2 := State (G0 ++ [tmp]) (S h) log (cls s1) (self_indexes s1)
               (self_source s1) (self_limit s1) (self_destination s1) (Some h)).
  assert (Hsrc2 : find_ident (self_source s1) (group s2) = Some c).
  { cbn [group s2]. rewrite find_source_staged.
    destruct (String.eqb_spec (name c) "_t_events"); [contradiction|reflexivity]. }
  assert (Hfresh0 : Forall (fun c => (ident c < h)%nat) G0)
    by (apply Forall_without, Hfresh).
  assert (Hid : ident c = self_source s1)
    by (apply (find_ident_some _ _ _ Hsource)).
  assert (Hstep : forall s2a,
    (if String.eqb (name c) "events"
     then bind (rename (self_source s1) "_events")
            (fun _ => bind (getNode "_events") (fun h0 => modify (with_source h0)))
     else ret tt) s2 = Ok tt s2a ->
    (name c = "events"%string -> in_group "_events" G0 = false) /\
    s2a = with_group (published_source c G0 ++ [tmp]) s2).
  { intros s2a Hrun. unfold published_source.
    destruct (String.eqb_spec (name c) "events") as [He|He].
    - assert (Hne : name c <> "_events"%string) by (rewrite He; discriminate).
      destruct (in_group "_events" (group s2)) eqn:Hin.
      + rewrite (bind_raise _ _ _ _ _
                   (rename_taken _ _ s2 c Hsrc2 Hne Hin)) in Hrun.
        discriminate Hrun.
      + rewrite (bind_ok _ _ _ _ _
                   (rename_run _ _ s2 c Hsrc2 Hne Hin)) in Hrun.
        assert (Hin0 : in_group "_events" G0 = false).
        { apply in_group_false in Hin. apply in_group_false.
          cbn [group s2] in Hin. unfold find_name in *.
          rewrite find_app_last in Hin.
          destruct (find _ G0); [discriminate | reflexivity]. }
        split; [intros _; exact Hin0|].
        assert (Hsrc0 : find_ident (self_source s1) G0 = Some c)
          by (apply find_ident_without; assumption).
        destruct (find_name_rename_child _ "_events" G0 c Hsrc0
                    (proj1 (in_group_false _ _) Hin0)) as [c' [Hc' Hic']].
        assert (Hren : rename_child (self_source s1) "_events" (G0 ++ [tmp])
                       = rename_child (self_source s1) "_events" G0 ++ [tmp]).
        { unfold rename_child. rewrite map_app. simpl.
          destruct (Nat.eqb_spec h (self_source s1)); [|reflexivity].
          exfalso. apply source_not_tmp. congruence. }
        cbn [group s2] in Hrun. rewrite Hren in Hrun.
        assert (Hget : find_name "_events"
                  (group (with_group
                     (rename_child (self_source s1) "_events" G0 ++ [tmp]) s2))
                = Some c').
        { cbn [group with_group]. unfold find_name. rewrite find_app_last.
          unfold find_name in Hc'. rewrite Hc'. reflexivity. }
        rewrite (bind_ok _ _ _ _ _ (getNode_run _ _ _ Hget)) in Hrun.
        rewrite Hic' in Hrun. unfold modify in Hrun.
        injection Hrun as <-. rewrite Hid. reflexivity.
    - unfold ret in Hrun. injection Hrun as <-. split; [contradiction|].
      reflexivity. }
  change (staged s1 h rows log) with s2.
  unfold bind at 1.
  match goal with
  | |- context [match ?o with Ok _ _ => _ | Raise _ _ => _ end] =>
      destruct o as [[] s2a|e s2a] eqn:Hrun; [|discriminate]
  end.
  destruct (Hstep s2a eq_refl) as [Hevents ->]. clear Hstep Hrun.
  cbn [self_destination s2]. rewrite Hdest. unfold attribute.
  unfold bind at 1. unfold ret at 1. unfold bind at 1. unfold get at 1.
  cbv beta iota. unfold bind at 1. rewrite remove_if_present.
  cbn [self_tmp_events with_group s2]. unfold bind at 1. unfold ret at 1.
  cbn [group with_group].
  set (G1 := published_source c G0).
  assert (Hfresh1 : Forall (fun c => (ident c < h)%nat) G1).
  { unfold G1, published_source. destruct (String.eqb (name c) "events");
      [apply (Forall_rename_child (fun i => (i < h)%nat)) | ]; exact Hfresh0. }
  rewrite without_name_app.
  destruct (String.eqb_spec d "_t_events") as [Hd|Hd].
  - intros Hrun. exfalso. revert Hrun.
    rewrite rename_closed; [discriminate|].
    cbn [group with_group]. subst d. unfold without_name at 2. simpl.
    rewrite app_nil_r. apply find_ident_fresh, Forall_without, Hfresh1.
  - assert (Hneq : String.eqb "_t_events" d = false)
      by (apply String.eqb_neq; congruence).
    assert (Htmp : without_name d [tmp] = [tmp]).
    { unfold without_name, tmp. cbn [filter name]. rewrite Hneq. reflexivity. }
    rewrite Htmp.
    rewrite (rename_run h d _ tmp).
    + intros [= <-]. split; [exact Hn|]. split; [exact Hd|].
      split; [exact Hevents|].
      cbn [group with_group]. unfold published. fold G0. fold G1.
      unfold with_group. cbn. f_equal.
      unfold rename_child. rewrite map_app.
      fold (rename_child h d (without_name d G1)).
      rewrite rename_child_fresh by (apply Forall_without, Hfresh1).
      unfold tmp. cbn [map ident name content]. rewrite Nat.eqb_refl.
      reflexivity.
    + cbn [group with_group]. unfold find_ident. rewrite find_app_last.
      fold (find_ident h (without_name d G1)).
      rewrite find_ident_fresh by (apply Forall_without, Hfresh1).
      unfold tmp. cbn [ident]. rewrite Nat.eqb_refl. reflexivity.
    + unfold tmp. cbn [name]. congruence.
    + cbn [group with_group]. apply in_group_false. unfold find_name.
      rewrite find_app_last. fold (find_name d (without_name d G1)).
      rewrite find_name_without_same. unfold tmp. cbn [name].
      rewrite Hneq. reflexivity.
Qed.

End Staged.

End Move.

Section Runs.

Context {collaborators : Collaborators}.

Lemma find_name_staged nm s h rows log :
  nm <> "_t_events"%string ->
  find_name nm (group (staged s h rows log)) = find_name nm (group s).
Proof.
  intros Hnm. cbn [group staged]. unfold find_name. rewrite find_app_last.
  fold (find_name nm (without_name "_t_events" (group s))).
  rewrite (find_name_without _ _ _ Hnm). fold (find_name nm (group s)).
  destruct (find_name nm (group s)); [reflexivity|].
  cbn [name]. replace (String.eqb "_t_events" nm) with false; [reflexivity|].
  symmetry. apply String.eqb_neq. congruence.
Qed.

Lemma find_ident_staged_source s h rows log c :
  Forall (fun c => (ident c < h)%nat) (group s) ->
  NoDup (map ident (group s)) ->
  find_ident (self_source s) (group s) = Some c ->
  name c <> "_t_events"%string ->
  find_ident (self_source s) (group (staged s h rows log)) = Some c.
Proof.
  intros Hfresh Hnd Hc Hn. cbn [group staged].
  rewrite (find_source_staged s h rows c Hfresh Hnd Hc).
  destruct (String.eqb_spec (name c) "_t_events"); [contradiction|reflexivity].
Qed.

(** What a run that ends normally has done. *)
Lemma run_ok destination overwrite limit s s3 :
  wf s ->
  process_and_store_results destination overwrite limit s = Ok tt s3 ->
  let d := destination_name destination in
  let s1 := with_destination (Some d) (with_limit limit s) in
  exists c rows log,
    find_ident (self_source s) (group s) = Some c /\
    name c <> "_t_events"%string /\
    d <> "_t_events"%string /\ d <> "_events"%string /\
    (name c = d \/ in_group d (group s) = false \/ overwrite = true) /\
    (name c = "events"%string ->
     in_group "_events" (without_name "_t_events" (group s)) = false) /\
    before_publish destination overwrite limit s
    = Ok tt (staged s1 (fresh s) rows log) /\
    s3 = with_group (published c d (fresh s) rows (group s))
           (staged s1 (fresh s) rows log).
Proof.
  intros [Hnames [Hids Hfresh]] Hrun d s1.
  rewrite process_and_store_results_steps in Hrun. unfold bind in Hrun.
  pose proof (before_publish_cases destination overwrite limit s Hfresh)
    as Hcases.
  destruct (before_publish destination overwrite limit s) as [[] s2|e s2];
    [|discriminate].
  destruct Hcases as [[rows [log ->]] [Hd [c [Hc Hallowed]]]].
  fold d in Hd, Hallowed |- *. fold s1 in Hrun |- *.
  destruct (move_staged s1 (fresh s) rows log c d Hfresh Hids Hc eq_refl
              s3 Hrun) as [Hn [Hdt [Hev ->]]].
  exists c, rows, log. repeat split; auto.
Qed.

End Runs.

(* ================================================================== *)
(** ** The trace decoder *)

Section Decoder.

Context {collaborators : Collaborators}.

Lemma get_trace_run s idx blobs_child blobs blob text :
  find_name "blobs" (group s) = Some blobs_child ->
  content blobs_child = VLArray blobs ->
  py_index blobs idx = Some blob ->
  zlib_decompress blob = Some text ->
  _get_trace idx s
  = lift (of_option (ValueError "invalid literal for int()")
            (parse_trace text))
         (with_decoded (idx :: decoded s) s).
Proof.
  intros Hfind Hcontent Hblob Htext. unfold _get_trace.
  unfold bind at 1. unfold modify at 1. unfold bind at 1. unfold get at 1.
  cbn [group with_decoded]. rewrite Hfind. cbn [of_option lift].
  unfold bind at 1. unfold ret at 1. rewrite Hcontent. cbn [blob_at].
  rewrite Hblob. cbn [of_option lift]. unfold bind at 1. unfold ret at 1.
  rewrite Htext. cbn [of_option lift]. unfold bind. reflexivity.
Qed.

(** C6: the decoder returns the integers of a comma-delimited text, with
    or without the empty field that a trailing comma leaves; the blob of
    the text "12,34,56," decodes to 12, 34, 56. *)
Theorem get_trace_decodes_delimited_integers
  (s : state) (idx : Z) (blobs_child : child) (blobs : list string)
  (blob text : string) :
  find_name "blobs" (group s) = Some blobs_child ->
  content blobs_child = VLArray blobs ->
  py_index blobs idx = Some blob ->
  zlib_decompress blob = Some text ->
  (forall zs : list Z,
     text = trace_text zs \/
     (zs <> [] /\ text = join_commas (map decimal zs)) ->
     _get_trace idx s = Ok zs (with_decoded (idx :: decoded s) s)) /\
  (text = "12,34,56,"%string ->
   _get_trace idx s = Ok [12; 34; 56] (with_decoded (idx :: decoded s) s)).
Proof.
  intros Hfind Hcontent Hblob Htext.
  rewrite (get_trace_run s idx blobs_child blobs blob text)
    by assumption.
  split.
  - intros zs [-> | [Hzs ->]].
    + rewrite parse_trace_text. reflexivity.
    + rewrite (parse_join_decimal zs Hzs). reflexivity.
  - intros ->. reflexivity.
Qed.

(** Every turn of the driver's loop with a pulse at or above threshold
    decodes the slot's trace index, whatever its sign. *)
Lemma slot_time_decodes bl pulseheight trace_idx s :
  ADC_THRESHOLD <= pulseheight ->
  decoded (final (slot_time bl pulseheight trace_idx s))
  = trace_idx :: decoded s.
Proof.
  intros Hp. unfold slot_time.
  destruct (Z.ltb_spec pulseheight ADC_THRESHOLD); [lia|].
  unfold _get_trace. unfold bind, modify, get. cbn [group with_decoded].
  destruct (find_name "blobs" (group s)) as [c|]; [|reflexivity].
  cbn [of_option lift ret].
  destruct (blob_at (content c) trace_idx) as [blob|]; [|reflexivity].
  cbn [lift ret].
  destruct (zlib_decompress blob) as [text|]; [|reflexivity].
  cbn [of_option lift ret].
  destruct (parse_trace text); reflexivity.
Qed.

(** [get_traces_for_event] guards the decoder: it hands it no negative
    index. *)
Lemma for_each_get_trace_log idxs : forall s,
  exists done,
    decoded (final (for_each _get_trace idxs s)) = done ++ decoded s /\
    forall i, In i done -> In i idxs.
Proof.
  induction idxs as [|idx rest IH]; intros s.
  - exists []. split; [reflexivity | contradiction].
  - simpl for_each. unfold bind at 1.
    assert (Hlog : decoded (final (_get_trace idx s)) = idx :: decoded s).
    { unfold _get_trace. unfold bind, modify, get. cbn [group with_decoded].
      destruct (find_name "blobs" (group s)) as [c|]; [|reflexivity].
      cbn [of_option lift ret].
      destruct (blob_at (content c) idx) as [blob|]; [|reflexivity].
      cbn [lift ret].
      destruct (zlib_decompress blob) as [text|]; [|reflexivity].
      cbn [of_option lift ret].
      destruct (parse_trace text); reflexivity. }
    destruct (_get_trace idx s) as [tr s1|e s1]; cbn [final] in *.
    + destruct (IH s1) as [done [Hdone Hin]].
      exists (done ++ [idx]). split.
      * unfold bind, ret.
        destruct (for_each _get_trace rest s1); cbn [final] in *;
          rewrite Hdone, Hlog, <- app_assoc; reflexivity.
      * intros i Hi. apply in_app_or in Hi as [Hi|[<-|[]]];
          [right; apply Hin, Hi | left; reflexivity].
    + exists [idx]. split; [exact Hlog|]. intros i [<-|[]]. left. reflexivity.
Qed.

Lemma get_traces_for_event_skips_negative ev s :
  exists done,
    decoded (final (get_traces_for_event ev s)) = done ++ decoded s /\
    forall i, In i done -> 0 <= i.
Proof.
  unfold get_traces_for_event.
  destruct (for_each_get_trace_log
              (filter (fun idx => negb (idx <? 0)) (det4_list (traces ev))) s)
    as [done [Hdone Hin]].
  exists done. split.
  - unfold bind, ret. destruct (for_each _get_trace _ s); exact Hdone.
  - intros i Hi. apply Hin, filter_In in Hi as [_ Hi].
    apply negb_true_iff, Z.ltb_ge in Hi. exact Hi.
Qed.

End Decoder.

(* ================================================================== *)
(** ** The MIP peak finder *)

Section PeakFinder.

Context {collaborators : Collaborators}.

(** A detector whose window is at most 40 wide ends the whole loop: the
    fits made so far are dropped and the later detectors are never
    looked at. *)
Lemma narrow_window_returns pulsecounts bins i later mpv peak minRange maxRange :
  let occurence := histogram (map (det4_nth i) pulsecounts) bins in
  let pulsecount := bin_centres bins in
  (zsum (zip_with Z.mul pulsecount occurence) / zsum occurence <? 100) = false ->
  getFitParameters pulsecount occurence = Done (peak, minRange, maxRange) ->
  (peak - minRange <= inject_Z 40)%Q ->
  gauss_fit_loop pulsecounts bins (i :: later) mpv
  = Done (NoFit (peak - minRange)%Q (zeros 3) (repeat (zeros 3) 3) (-1)).
Proof.
  intros occurence pulsecount Havg Hfit Hwidth.
  cbn [gauss_fit_loop]. fold occurence. fold pulsecount.
  rewrite Havg, Hfit. cbn [rbind].
  apply Qle_bool_iff in Hwidth. rewrite Hwidth. reflexivity.
Qed.

(** C3 (what the code does): with a narrow first detector the fit returns
    the one triple of the early return, not a list of four values, and the
    division of the pulse heights by it raises. *)
Theorem narrow_window_ends_the_fit :
  exists width : Q,
    (width == inject_Z 10)%Q /\
    _pulse_gauss_fit narrow_first (arange 0 5000 10)
    = Done (NoFit width (zeros 3) (repeat (zeros 3) 3) (-1)) /\
    divide_by_mpv narrow_first
      (NoFit width (zeros 3) (repeat (zeros 3) 3) (-1))
    = Fail (ValueError "operands could not be broadcast together").
Proof.
  exists (160 # 16)%Q. split; [reflexivity|]. split; vm_compute; reflexivity.
Qed.

End PeakFinder.

Section Smoothing.




Lemma length_set_nth {A} (l : list A) : forall i v,
  List.length (set_nth l i v) = List.length l.
Proof.
  induction l as [|a r IH]; intros [|i] v; simpl; try reflexivity.
  rewrite IH. reflexivity.
Qed.



End Smoothing.

(* ================================================================== *)
(** ** The published group *)

Section Published.

Lemma find_name_rename_child_content h nm g c :
  find_ident h g = Some c -> find_name nm g = None ->
  find_name nm (rename_child h nm g) = Some (Child nm h (content c)).
Proof.
  unfold find_ident, find_name, rename_child.
  induction g as [|a r IH]; simpl; [discriminate|].
  destruct (Nat.eqb_spec (ident a) h) as [Ha|Ha].
  - intros [= ->] _. simpl. rewrite String.eqb_refl, Ha. reflexivity.
  - destruct (String.eqb (name a) nm) eqn:Hn; [discriminate|].
    intros Hc Hnone. simpl. apply IH; assumption.
Qed.

Lemma NoDup_ident_without nm g :
  NoDup (map ident g) -> NoDup (map ident (without_name nm g)).
Proof.
  unfold without_name. induction g as [|a r IH]; simpl; [auto|].
  intros Hnd. apply NoDup_cons_iff in Hnd as [Hnotin Hnd].
  destruct (negb (String.eqb (name a) nm)); [|apply IH, Hnd].
  simpl. constructor; [|apply IH, Hnd].
  intros Hin. apply Hnotin. apply in_map_iff in Hin as [b [Hb Hin]].
  apply filter_In in Hin as [Hin _]. rewrite <- Hb. apply in_map, Hin.
Qed.

Lemma find_ident_in g c :
  NoDup (map ident g) -> In c g -> find_ident (ident c) g = Some c.
Proof.
  unfold find_ident. induction g as [|a r IH]; simpl; [contradiction|].
  intros Hnd Hin. apply NoDup_cons_iff in Hnd as [Hnotin Hnd].
  destruct Hin as [->|Hin]; [rewrite Nat.eqb_refl; reflexivity|].
  destruct (Nat.eqb_spec (ident a) (ident c)) as [Heq|_]; [|apply IH; assumption].
  exfalso. apply Hnotin. rewrite Heq. apply in_map, Hin.
Qed.

Variable g : list child.
Variable h : nat.
Variable rows : list row.
Variable c : child.
Variable d : string.

Hypothesis Hfresh : Forall (fun c => (ident c < h)%nat) g.
Hypothesis Hnodup : NoDup (map ident g).
Hypothesis Hsource : find_ident (ident c) g = Some c.
Hypothesis Hname : name c <> "_t_events"%string.
Hypothesis Hreserved : d <> "_events"%string.

Let G0 := without_name "_t_events" g.

Lemma find_name_published :
  find_name d (published c d h rows g)
  = Some (Child d h (Table (ProcessedTable rows))).
Proof.
  unfold published, find_name. rewrite find_app_last.
  fold (find_name d (without_name d
          (published_source c (without_name "_t_events" g)))).
  rewrite find_name_without_same. cbn [name]. rewrite String.eqb_refl.
  reflexivity.
Qed.

Lemma find_ident_published :
  find_ident (ident c) (published c d h rows g)
  = if String.eqb (name c) "events"
    then Some (Child "_events" (ident c) (content c))
    else if String.eqb (name c) d then None else Some c.
Proof.
  assert (Hc0 : find_ident (ident c) G0 = Some c)
    by (apply find_ident_without; assumption).
  assert (Hh : Nat.eqb h (ident c) = false).
  { apply Nat.eqb_neq. apply find_ident_some in Hsource as [_ Hin].
    rewrite Forall_forall in Hfresh. specialize (Hfresh c Hin). lia. }
  unfold published, published_source. fold G0.
  unfold find_ident at 1. rewrite find_app_last. cbn [ident]. rewrite Hh.
  destruct (String.eqb_spec (name c) "events") as [He|He].
  - fold (find_ident (ident c)
            (without_name d (rename_child (ident c) "_events" G0))).
    rewrite (find_ident_without _ _ _ (Child "_events" (ident c) (content c)));
      [reflexivity| |cbn [name]; congruence].
    apply find_ident_rename_child, Hc0.
  - fold (find_ident (ident c) (without_name d G0)).
    destruct (String.eqb_spec (name c) d) as [Hd|Hd].
    + rewrite (find_ident_without_gone _ d G0 c); auto.
      apply NoDup_ident_without, Hnodup.
    + rewrite (find_ident_without _ d G0 c); auto.
Qed.

Lemma find_events_published :
  name c = "events"%string -> in_group "_events" G0 = false ->
  find_name "_events" (published c d h rows g)
  = Some (Child "_events" (ident c) (content c)).
Proof.
  intros He Hfree.
  assert (Hc0 : find_ident (ident c) G0 = Some c)
    by (apply find_ident_without; assumption).
  unfold published, published_source. fold G0.
  apply String.eqb_eq in He. rewrite He.
  unfold find_name at 1. rewrite find_app_last.
  fold (find_name "_events"
          (without_name d (rename_child (ident c) "_events" G0))).
  rewrite find_name_without by congruence.
  rewrite (find_name_rename_child_content _ _ _ c Hc0);
    [reflexivity | apply in_group_false, Hfree].
Qed.

Lemma find_events_published_kept :
  name c <> "events"%string ->
  find_name "_events" (published c d h rows g) = find_name "_events" g.
Proof.
  intros He. unfold published, published_source. fold G0.
  apply String.eqb_neq in He. rewrite He.
  unfold find_name at 1. rewrite find_app_last.
  fold (find_name "_events" (without_name d G0)).
  rewrite find_name_without by congruence.
  unfold G0. rewrite find_name_without by discriminate.
  destruct (find_name "_events" g); [reflexivity|].
  cbn [name]. apply String.eqb_neq in Hreserved. rewrite Hreserved.
  reflexivity.
Qed.

End Published.

Section Batch.

Context {collaborators : Collaborators}.

Lemma check_reserved overwrite s :
  exists msg,
    _check_destination (Some "_events"%string) overwrite s
    = Raise (RuntimeError msg) s.
Proof. eexists. reflexivity. Qed.

Lemma check_occupied destination s src :
  find_ident (self_source s) (group s) = Some src ->
  name src <> destination_name destination ->
  in_group (destination_name destination) (group s) = true ->
  exists msg,
    _check_destination destination false s = Raise (RuntimeError msg) s.
Proof.
  intros Hsrc Hname Hin. apply String.eqb_neq in Hname.
  unfold _check_destination.
  destruct destination as [dd|]; cbn [destination_name] in *.
  - destruct (String.eqb dd "_events"); [eexists; reflexivity|].
    unfold bind at 1. unfold get at 1. cbv beta iota.
    unfold bind at 1. rewrite deref_eq, Hsrc. cbv beta iota.
    rewrite Hname, Hin. eexists. reflexivity.
  - unfold bind at 1. unfold get at 1. cbv beta iota.
    unfold bind at 1. rewrite deref_eq, Hsrc. cbv beta iota.
    rewrite Hname, Hin. eexists. reflexivity.
Qed.

Lemma run_stops_at_check destination overwrite limit s e s' :
  _check_destination destination overwrite (with_limit limit s) = Raise e s' ->
  process_and_store_results destination overwrite limit s = Raise e s'.
Proof.
  intros H. unfold process_and_store_results.
  unfold bind at 1. unfold modify at 1. apply bind_raise, H.
Qed.

Lemma run_stops_before_publish destination overwrite limit s e s' :
  before_publish destination overwrite limit s = Raise e s' ->
  process_and_store_results destination overwrite limit s = Raise e s'.
Proof.
  intros H. rewrite process_and_store_results_steps. apply bind_raise, H.
Qed.

(** C7, as the code has it: a run that fails before it publishes leaves
    the source and the table under the destination name as they were,
    provided neither goes by the staging name [_t_events]; the two
    refusals of the destination check change no table at all; and the
    second of two runs with the default destination and no overwrite is
    refused, to the same effect. *)
Theorem failure_before_publish_keeps_tables :
  (forall s overwrite limit, exists msg,
     process_and_store_results (Some "_events"%string) overwrite limit s
     = Raise (RuntimeError msg) (with_limit limit s)) /\
  (forall s destination limit src,
     find_ident (self_source s) (group s) = Some src ->
     name src <> destination_name destination ->
     in_group (destination_name destination) (group s) = true ->
     exists msg,
       process_and_store_results destination false limit s
       = Raise (RuntimeError msg) (with_limit limit s)) /\
  (forall s destination overwrite limit e s' src,
     wf s ->
     find_ident (self_source s) (group s) = Some src ->
     name src <> "_t_events"%string ->
     destination_name destination <> "_t_events"%string ->
     before_publish destination overwrite limit s = Raise e s' ->
     process_and_store_results destination overwrite limit s = Raise e s' /\
     find_ident (self_source s) (group s') = Some src /\
     find_name (destination_name destination) (group s')
     = find_name (destination_name destination) (group s)) /\
  (forall s limit limit' s1,
     wf s ->
     process_and_store_results None false limit s = Ok tt s1 ->
     exists msg,
       process_and_store_results None false limit' s1
       = Raise (RuntimeError msg) (with_limit limit' s1)).
Proof.
  split; [|split; [|split]].
  - intros s overwrite limit.
    destruct (check_reserved overwrite (with_limit limit s)) as [msg Hmsg].
    exists msg. apply run_stops_at_check, Hmsg.
  - intros s destination limit src Hsrc Hname Hin.
    destruct (check_occupied destination (with_limit limit s) src Hsrc Hname
                Hin) as [msg Hmsg].
    exists msg. apply run_stops_at_check, Hmsg.
  - intros s destination overwrite limit e s' src [_ [Hids Hfresh]] Hsrc Hname
      Hdest Hfail.
    split; [apply run_stops_before_publish, Hfail|].
    pose proof (before_publish_cases destination overwrite limit s Hfresh)
      as Hcases. cbv zeta in Hcases. rewrite Hfail in Hcases.
    destruct Hcases as [->|[->|[rows [log ->]]]]; [auto|auto|].
    split.
    + apply (find_ident_staged_source
               (with_destination (Some (destination_name destination))
                  (with_limit limit s))); assumption.
    + apply (find_name_staged _
               (with_destination (Some (destination_name destination))
                  (with_limit limit s))), Hdest.
  - intros s limit limit' s1 [Hnames [Hids Hfresh]] Hrun.
    destruct (run_ok None false limit s s1 (conj Hnames (conj Hids Hfresh))
                Hrun)
      as [c [rows [log [Hc [Hn [Hdt [Hde [_ [_ [_ ->]]]]]]]]]].
    cbn [destination_name] in *.
    pose proof (find_ident_some _ _ _ Hc) as [Hid _].
    rewrite <- Hid in Hc.
    pose proof (find_ident_published (group s) (fresh s) rows c "events"
                  Hfresh Hids Hc Hn Hde) as Hpub.
    pose proof (find_name_published (group s) (fresh s) rows c "events")
      as Hres.
    set (s1 := with_group _ _) in *.
    assert (Hsrc1 : exists src, find_ident (self_source (with_limit limit' s1))
                       (group (with_limit limit' s1)) = Some src /\
                     name src <> "events"%string).
    { cbn [self_source group with_limit with_group s1 staged
           with_destination]. rewrite <- Hid.
      cbn [group with_group s1] in Hpub. rewrite Hpub.
      destruct (String.eqb_spec (name c) "events") as [He|He].
      - eexists. split; [reflexivity|]. cbn [name]. discriminate.
      - exists c. split; [reflexivity | exact He]. }
    destruct Hsrc1 as [src [Hsrc Hsrcname]].
    destruct (check_occupied None (with_limit limit' s1) src Hsrc Hsrcname)
      as [msg Hmsg].
    { cbn [destination_name group with_limit with_group s1].
      apply in_group_true. eexists. exact Hres. }
    exists msg. apply run_stops_at_check, Hmsg.
Qed.

End Batch.

Section Reprocessing.

Context {collaborators : Collaborators}.

Lemma get_source_default s :
  _get_source None s
  = match find_name "_events" (group s) with
    | Some c => Ok (ident c) s
    | None =>
        match find_name "events" (group s) with
        | Some c => Ok (ident c) s
        | None => Raise NoSuchNodeError s
        end
    end.
Proof.
  unfold _get_source, getNode, in_group. unfold bind, get, ret, raise.
  destruct (find_name "_events" (group s)) eqn:E1; cbv beta iota.
  - rewrite E1. reflexivity.
  - destruct (find_name "events" (group s)); reflexivity.
Qed.

Lemma child_eta c nm :
  name c = nm -> c = Child nm (ident c) (content c).
Proof. destruct c. simpl. intros ->. reflexivity. Qed.

Lemma init_default k g next indexes s0 :
  __init__ None (blank k g next indexes) = Ok tt s0 ->
  exists c0,
    s0 = with_source (ident c0) (blank k g next indexes) /\
    ((find_name "_events" g = Some c0) \/
     (find_name "_events" g = None /\ find_name "events" g = Some c0)).
Proof.
  unfold __init__, bind. rewrite get_source_default. cbn [group blank].
  destruct (find_name "_events" g) as [c|] eqn:E1.
  - intros [= <-]. exists c. auto.
  - destruct (find_name "events" g) as [c|] eqn:E2; [|discriminate].
    intros [= <-]. exists c. auto.
Qed.

(** C10: without a source name the pipeline takes [_events] when the
    group has it and [events] otherwise; so a pipeline made on a group
    that a default pipeline has processed reads the node the first one
    read, kept as [_events] with its content, and not the published
    results. *)
Theorem default_source_is_the_original :
  (forall s c, find_name "_events" (group s) = Some c ->
     _get_source None s = Ok (ident c) s) /\
  (forall s c, find_name "_events" (group s) = None ->
     find_name "events" (group s) = Some c ->
     _get_source None s = Ok (ident c) s) /\
  (forall k indexes g next destination overwrite limit s0 s1 k' indexes',
     wf (blank k g next indexes) ->
     __init__ None (blank k g next indexes) = Ok tt s0 ->
     process_and_store_results destination overwrite limit s0 = Ok tt s1 ->
     exists c0 s2 results,
       find_ident (self_source s0) g = Some c0 /\
       __init__ None (blank k' (group s1) (fresh s1) indexes') = Ok tt s2 /\
       self_source s2 = self_source s0 /\
       find_ident (self_source s2) (group s1)
       = Some (Child "_events" (self_source s0) (content c0)) /\
       find_name (destination_name destination) (group s1) = Some results /\
       ident results <> self_source s2).
Proof.
  split; [|split].
  - intros s c H. rewrite get_source_default, H. reflexivity.
  - intros s c H1 H2. rewrite get_source_default, H1, H2. reflexivity.
  - intros k indexes g next destination overwrite limit s0 s1 k' indexes'
      Hwf Hinit Hrun.
    destruct (init_default _ _ _ _ _ Hinit) as [c0 [-> Hfound]].
    destruct Hwf as [Hnames [Hids Hfresh]]. cbn [group fresh blank] in *.
    assert (Hin : In c0 g /\ (name c0 = "_events" \/ name c0 = "events")%string).
    { destruct Hfound as [H|[_ H]]; apply find_name_some in H as [Hn Hin];
        auto. }
    destruct Hin as [Hin Hname0].
    pose proof (find_ident_in g c0 Hids Hin) as Hc0.
    set (s0 := with_source (ident c0) (blank k g next indexes)) in *.
    assert (Hwf0 : wf s0) by (repeat split; assumption).
    destruct (run_ok destination overwrite limit s0 s1 Hwf0 Hrun)
      as [c [rows [log [Hc [Hn [Hdt [Hde [_ [Hev [_ ->]]]]]]]]]].
    cbn [self_source group fresh s0 with_source blank] in Hc, Hev.
    rewrite Hc0 in Hc. injection Hc as <-.
    set (d := destination_name destination) in *.
    pose proof (find_ident_published g next rows c0 d Hfresh Hids Hc0 Hn Hde)
      as Hsrc.
    pose proof (find_name_published g next rows c0 d) as Hres.
    assert (Hevents : find_name "_events" (published c0 d next rows g)
                      = Some (Child "_events" (ident c0) (content c0))).
    { destruct Hname0 as [Hn0|Hn0].
      - rewrite (find_events_published_kept g next rows c0 d Hde)
          by (rewrite Hn0; discriminate).
        destruct Hfound as [H|[_ H]].
        + rewrite H. f_equal. apply child_eta, Hn0.
        + apply find_name_some in H as [H _]. rewrite Hn0 in H.
          discriminate H.
      - apply find_events_published; try assumption. apply Hev, Hn0. }
    exists c0.
    exists (with_source (ident c0)
              (blank k' (published c0 d next rows g) (S next) indexes')).
    exists (Child d next (Table (ProcessedTable rows))).
    cbn [self_source group fresh s0 with_source with_group blank staged].
    split; [exact Hc0|]. split.
    { unfold __init__, bind. rewrite get_source_default.
      cbn [group blank]. rewrite Hevents. reflexivity. }
    split; [reflexivity|]. split.
    { rewrite Hsrc. destruct Hname0 as [Hn0|Hn0].
      - replace (String.eqb (name c0) "events") with false
          by (rewrite Hn0; reflexivity).
        replace (String.eqb (name c0) d) with false
          by (symmetry; apply String.eqb_neq; congruence).
        f_equal. apply child_eta, Hn0.
      - rewrite Hn0. reflexivity. }
    split; [exact Hres|]. cbn [ident].
    rewrite Forall_forall in Hfresh. specialize (Hfresh c0 Hin). lia.
Qed.

End Reprocessing.

(* ================================================================== *)
(** ** Runs on the sample data *)

Section Examples.

Lemma published_destination_once c d h rows g :
  List.length
    (filter (fun x => String.eqb (name x) d) (published c d h rows g))
  = 1%nat.
Proof.
  unfold published. rewrite filter_app, length_app.
  cbn [filter name]. rewrite String.eqb_refl. cbn [List.length].
  assert (H : forall l,
            filter (fun x => String.eqb (name x) d) (without_name d l) = []).
  { unfold without_name. induction l as [|a r IH]; simpl; [reflexivity|].
    destruct (String.eqb (name a) d) eqn:E; simpl; [exact IH|].
    rewrite E. exact IH. }
  rewrite H. reflexivity.
Qed.

End Examples.

Section Outcomes.

Context {collaborators : Collaborators}.

(** After a run that ends normally one child of the group has the
    destination name. *)
Lemma destination_held_once destination overwrite limit s s1 :
  wf s ->
  process_and_store_results destination overwrite limit s = Ok tt s1 ->
  List.length
    (filter (fun c => String.eqb (name c) (destination_name destination))
       (group s1)) = 1%nat.
Proof.
  intros Hwf Hrun.
  destruct (run_ok destination overwrite limit s s1 Hwf Hrun)
    as [c [rows [log [_ [_ [_ [_ [_ [_ [_ ->]]]]]]]]]].
  apply published_destination_once.
Qed.

(** A source called [events] is kept as [_events], whatever the
    destination. *)
Lemma events_source_is_kept destination overwrite limit s s1 src :
  wf s ->
  find_ident (self_source s) (group s) = Some src ->
  name src = "events"%string ->
  process_and_store_results destination overwrite limit s = Ok tt s1 ->
  find_ident (self_source s) (group s1)
  = Some (Child "_events" (self_source s) (content src)).
Proof.
  intros Hwf Hsrc Hname Hrun.
  destruct (run_ok destination overwrite limit s s1 Hwf Hrun)
    as [c [rows [log [Hc [Hn [_ [Hde [_ [_ [_ ->]]]]]]]]]].
  rewrite Hsrc in Hc. injection Hc as <-.
  destruct Hwf as [_ [Hids Hfresh]].
  pose proof (find_ident_some _ _ _ Hsrc) as [Hid _].
  cbn [group with_group]. rewrite <- Hid in Hsrc |- *.
  rewrite (find_ident_published (group s) (fresh s) rows src
             (destination_name destination) Hfresh Hids Hsrc Hn Hde).
  rewrite Hname. reflexivity.
Qed.

(** A source that has the destination name, other than [events], is
    removed with it. *)
Lemma source_under_other_name_is_removed destination overwrite limit s s1 src :
  wf s ->
  find_ident (self_source s) (group s) = Some src ->
  name src = destination_name destination ->
  name src <> "events"%string ->
  process_and_store_results destination overwrite limit s = Ok tt s1 ->
  find_ident (self_source s) (group s1) = None.
Proof.
  intros Hwf Hsrc Hname Hnot Hrun.
  destruct (run_ok destination overwrite limit s s1 Hwf Hrun)
    as [c [rows [log [Hc [Hn [_ [Hde [_ [_ [_ ->]]]]]]]]]].
  rewrite Hsrc in Hc. injection Hc as <-.
  destruct Hwf as [_ [Hids Hfresh]].
  pose proof (find_ident_some _ _ _ Hsrc) as [Hid _].
  cbn [group with_group]. rewrite <- Hid in Hsrc |- *.
  rewrite (find_ident_published (group s) (fresh s) rows src
             (destination_name destination) Hfresh Hids Hsrc Hn Hde).
  apply String.eqb_neq in Hnot. rewrite Hnot.
  apply String.eqb_eq in Hname. rewrite Hname. reflexivity.
Qed.

End Outcomes.

(** C1 (what the code does): with the source [foo] as its own destination
    the run ends normally, the source node is gone, and no [_events] has
    been made; [foo] now names the results. *)
Theorem source_named_like_destination_is_deleted :
  let run :=
    @process_and_store_results sample_collaborators
      (Some "foo"%string) false None foo_pipeline in
  value_of run = Done tt /\
  find_ident (self_source foo_pipeline) (group foo_pipeline)
  = Some (Child "foo" 0 (Table (EventsTable ten_events))) /\
  find_ident (self_source foo_pipeline) (group (final run)) = None /\
  in_group "_events" (group (final run)) = false /\
  map (fun c => (name c, ident c)) (group (final run))
  = [("blobs"%string, 1%nat); ("foo"%string, 2%nat)].
Proof. vm_compute. repeat split; reflexivity. Qed.

(** C8 (what the code does): the driver decodes the trace index -1 of a
    detector that has a pulse; what it reads is the last blob. *)
Theorem negative_trace_index_is_decoded :
  let run :=
    @_reconstruct_time_from_traces sample_collaborators traceless_pulse
      (raw_pipeline ProcessEvents []) in
  d1 (traces traceless_pulse) = -1 /\
  decoded (final run) = [-1] /\
  value_of run
  = Done (Det4 (Fin (inject_Z 3 * ADC_TIME_PER_SAMPLE)%Q) NaN NaN NaN).
Proof. vm_compute. repeat split; reflexivity. Qed.


(** C7, counterexample: with the staging name as destination a run that
    fails in the calibration has already replaced the table of that
    name. *)
Lemma staging_name_as_destination_is_replaced :
  let run :=
    @before_publish sample_collaborators (Some "_t_events"%string) true None
      leftover_pipeline in
  value_of run = Fail (ValueError "Average pulseintegral is less than 100") /\
  option_map ident (find_name "_t_events" (group leftover_pipeline))
  = Some 2%nat /\
  option_map ident (find_name "_t_events" (group (final run))) = Some 3%nat /\
  find_name "_t_events" (group (final run))
  <> find_name "_t_events" (group leftover_pipeline).
Proof.
  vm_compute. repeat split; try reflexivity. discriminate.
Qed.


Lemma nearest_sample_time_and_sentinel_witness :
  _reconstruct_time_from_trace [200; 200; 230; 250] 200
  = Fin (inject_Z (Z.of_nat 2) * 2.5e-9)%Q /\
  (_reconstruct_time_from_trace [200; 210] 200 = NaN /\
   _reconstruct_time_from_trace_LINT [200; 210] 200 = NaN).
Proof.
  split.
  - apply (proj1 (nearest_sample_time_and_sentinel [200; 200; 230; 250] 200)).
    split.
    + exists 230. split; [reflexivity | lia].
    + intros [|[|j]] t Hj Ht; simpl in Ht; try lia; injection Ht as <-; lia.
  - apply (proj2 (nearest_sample_time_and_sentinel [200; 210] 200)).
    intros t [<-|[<-|[]]]; lia.
Defined.


Lemma get_trace_decodes_delimited_integers_witness :
  @_get_trace sample_collaborators 0 decoder_pipeline
  = Ok [12; 34; 56] (with_decoded (0 :: decoded decoder_pipeline)
                       decoder_pipeline) /\
  @_get_trace sample_collaborators 0 decoder_pipeline
  = Ok [12; 34; 56] (with_decoded (0 :: decoded decoder_pipeline)
                       decoder_pipeline).
Proof.
  pose proof (@get_trace_decodes_delimited_integers sample_collaborators
                decoder_pipeline 0
                (Child "blobs" 0 (VLArray ["12,34,56,"%string]))
                ["12,34,56,"%string] "12,34,56,"%string "12,34,56,"%string
                eq_refl eq_refl eq_refl eq_refl) as [Hall Hone].
  split.
  - apply (Hall [12; 34; 56]). left. reflexivity.
  - apply Hone. reflexivity.
Defined.


Lemma wf_raw_pipeline k indexes : wf (raw_pipeline k indexes).
Proof.
  unfold wf. cbn. repeat split.
  - repeat constructor; cbn; intuition discriminate.
  - repeat constructor; cbn; intuition discriminate.
  - repeat constructor.
Qed.

Lemma wf_leftover_pipeline : wf leftover_pipeline.
Proof.
  unfold wf. cbn. repeat split.
  - repeat constructor; cbn; intuition discriminate.
  - repeat constructor; cbn; intuition discriminate.
  - repeat constructor.
Qed.

Lemma failure_before_publish_keeps_tables_witness :
  (exists msg,
     @process_and_store_results sample_collaborators (Some "_events"%string)
       false None (raw_pipeline ProcessEvents [])
     = Raise (RuntimeError msg)
         (with_limit None (raw_pipeline ProcessEvents []))) /\
  (exists msg,
     @process_and_store_results sample_collaborators
       (Some "_t_events"%string) false None leftover_pipeline
     = Raise (RuntimeError msg) (with_limit None leftover_pipeline)) /\
  (let failed :=
     @before_publish sample_collaborators None false None leftover_pipeline in
   @process_and_store_results sample_collaborators None false None
     leftover_pipeline
   = Raise (ValueError "Average pulseintegral is less than 100")
       (final failed) /\
   find_ident (self_source leftover_pipeline) (group (final failed))
   = Some (Child "events" 0 (Table (EventsTable weak_events))) /\
   find_name "events" (group (final failed))
   = find_name "events" (group leftover_pipeline)) /\
  (let first :=
     @process_and_store_results sample_collaborators None false None
       (raw_pipeline ProcessEvents []) in
   exists msg,
     @process_and_store_results sample_collaborators None false None
       (final first)
     = Raise (RuntimeError msg) (with_limit None (final first))).
Proof.
  destruct (@failure_before_publish_keeps_tables sample_collaborators)
    as [Hreserved [Hoccupied [Hstaged Hsecond]]].
  split; [|split; [|split]].
  - apply Hreserved.
  - apply (Hoccupied leftover_pipeline (Some "_t_events"%string) None
             (Child "events" 0 (Table (EventsTable weak_events)))).
    + reflexivity.
    + cbn. discriminate.
    + reflexivity.
  - cbv zeta.
    apply (Hstaged leftover_pipeline None false None
             (ValueError "Average pulseintegral is less than 100")).
    + apply wf_leftover_pipeline.
    + reflexivity.
    + cbn. discriminate.
    + cbn. discriminate.
    + vm_compute. reflexivity.
  - cbv zeta.
    apply (Hsecond (raw_pipeline ProcessEvents []) None None).
    + apply wf_raw_pipeline.
    + vm_compute. reflexivity.
Defined.

Lemma default_source_is_the_original_witness :
  @_get_source None leftover_pipeline = Ok 0%nat leftover_pipeline /\
  (let first :=
     @process_and_store_results sample_collaborators None false None
       (raw_pipeline ProcessEvents []) in
   exists c0 s2 results,
     find_ident (self_source (raw_pipeline ProcessEvents [])) raw_group
     = Some c0 /\
     __init__ None
       (blank ProcessEvents (group (final first)) (fresh (final first)) [])
     = Ok tt s2 /\
     self_source s2 = self_source (raw_pipeline ProcessEvents []) /\
     find_ident (self_source s2) (group (final first))
     = Some (Child "_events" (self_source (raw_pipeline ProcessEvents []))
               (content c0)) /\
     find_name (destination_name None) (group (final first)) = Some results /\
     ident results <> self_source s2).
Proof.
  destruct (@default_source_is_the_original sample_collaborators)
    as [Hreserved [Hevents Hagain]].
  split.
  - apply (Hevents leftover_pipeline
             (Child "events" 0 (Table (EventsTable weak_events))));
      reflexivity.
  - cbv zeta.
    apply (Hagain ProcessEvents [] raw_group 2%nat None false None
             (raw_pipeline ProcessEvents [])
             (final (@process_and_store_results sample_collaborators None
                       false None (raw_pipeline ProcessEvents [])))
             ProcessEvents []).
    + apply (wf_raw_pipeline ProcessEvents []).
    + reflexivity.
    + vm_compute. reflexivity.
Defined.

(* ================================================================== *)
(** ** Index-subset processing *)

Section Readers.

Context {collaborators : Collaborators}.

Lemma reads_alike_refl s : reads_alike s s.
Proof. split; reflexivity. Qed.

Lemma reads_alike_log s1 s2 l1 l2 :
  reads_alike s1 s2 -> reads_alike (with_decoded l1 s1) (with_decoded l2 s2).
Proof. intros H. exact H. Qed.

Lemma value_of_eq {A} (o1 o2 : outcome A) :
  value_of o1 = value_of o2 ->
  (exists a s1 s2, o1 = Ok a s1 /\ o2 = Ok a s2) \/
  (exists e s1 s2, o1 = Raise e s1 /\ o2 = Raise e s2).
Proof.
  destruct o1 as [a s1|e s1], o2 as [b s2|f s2]; simpl; intros H;
    try discriminate; injection H as <-; [left|right]; eauto.
Qed.

Lemma reader_ret {A} (a : A) : reader (ret a).
Proof.
  split.
  - intros s. exists (decoded s). destruct s; reflexivity.
  - reflexivity.
Qed.

Lemma reader_lift {A} (r : result A) : reader (lift r).
Proof.
  split.
  - intros s. exists (decoded s). destruct r, s; reflexivity.
  - intros s1 s2 _. destruct r; reflexivity.
Qed.

Lemma reader_bind {A B} (m : M A) (k : A -> M B) :
  reader m -> (forall a, reader (k a)) -> reader (bind m k).
Proof.
  intros [Hlog Hval] Hk. split.
  - intros s. unfold bind. destruct (Hlog s) as [l1 Hl1].
    destruct (m s) as [a s1|e s1]; cbn [final] in *.
    + destruct (proj1 (Hk a) s1) as [l2 Hl2]. exists l2.
      rewrite Hl2, Hl1. reflexivity.
    + exists l1. exact Hl1.
  - intros s1 s2 Halike. unfold bind.
    destruct (Hlog s1) as [l1 Hl1]. destruct (Hlog s2) as [l2 Hl2].
    destruct (value_of_eq _ _ (Hval s1 s2 Halike))
      as [[a [t1 [t2 [E1 E2]]]]|[e [t1 [t2 [E1 E2]]]]];
      rewrite E1, E2 in *; cbn [final] in *; [|reflexivity].
    subst t1 t2. apply (proj2 (Hk a)). exact Halike.
Qed.

Lemma reader_get_trace idx : reader (_get_trace idx).
Proof.
  split.
  - intros s. exists (idx :: decoded s).
    unfold _get_trace. unfold bind, modify, get. cbn [group with_decoded].
    destruct (find_name "blobs" (group s)) as [c|]; [|reflexivity].
    cbn [of_option lift ret].
    destruct (blob_at (content c) idx) as [blob|]; [|reflexivity].
    cbn [lift ret].
    destruct (zlib_decompress blob) as [text|]; [|reflexivity].
    cbn [of_option lift ret].
    destruct (parse_trace text); reflexivity.
  - intros s1 s2 [Hblobs _].
    unfold _get_trace. unfold bind, modify, get. cbn [group with_decoded].
    rewrite Hblobs.
    destruct (find_name "blobs" (group s2)) as [c|]; [|reflexivity].
    cbn [of_option lift ret].
    destruct (blob_at (content c) idx) as [blob|]; [|reflexivity].
    cbn [lift ret].
    destruct (zlib_decompress blob) as [text|]; [|reflexivity].
    cbn [of_option lift ret].
    destruct (parse_trace text); reflexivity.
Qed.

Lemma reader_strategy trace bl :
  reader (bind get (fun s =>
            ret (self_reconstruct_time_from_trace (cls s) trace bl))).
Proof.
  split.
  - intros s. exists (decoded s). destruct s; reflexivity.
  - intros s1 s2 [_ Hlint]. unfold bind, get, ret. cbn [value_of].
    unfold self_reconstruct_time_from_trace. rewrite Hlint. reflexivity.
Qed.

Lemma reader_slot_time bl pulseheight trace_idx :
  reader (slot_time bl pulseheight trace_idx).
Proof.
  unfold slot_time. destruct (pulseheight <? ADC_THRESHOLD);
    [apply reader_ret|].
  apply reader_bind; [apply reader_get_trace|]. intros trace.
  apply reader_strategy.
Qed.

Lemma reader_reconstruct ev : reader (_reconstruct_time_from_traces ev).
Proof.
  unfold _reconstruct_time_from_traces.
  repeat (apply reader_bind; [apply reader_slot_time | intros ?]).
  apply reader_ret.
Qed.

(** A loop of readers hands back, for every element, what its body gives
    in the state in which the loop started. *)
Lemma for_each_reader {A B} (body : A -> M B) (l : list A) :
  (forall a, reader (body a)) ->
  forall s bs s',
    for_each body l s = Ok bs s' ->
    Forall2 (fun a b => value_of (body a s) = Done b) l bs /\
    exists log, s' = with_decoded log s.
Proof.
  intros Hbody. induction l as [|a rest IH]; intros s bs s' Hrun.
  - injection Hrun as <- <-. split; [constructor|].
    exists (decoded s). destruct s; reflexivity.
  - simpl in Hrun. unfold bind in Hrun.
    destruct (proj1 (Hbody a) s) as [l1 Hl1].
    destruct (body a s) as [b s1|e s1] eqn:Eb; [|discriminate].
    cbn [final] in Hl1. subst s1.
    destruct (for_each body rest (with_decoded l1 s)) as [bs' s2|e s2] eqn:Er;
      [|discriminate].
    injection Hrun as <- <-.
    destruct (IH _ _ _ Er) as [Hall [l2 ->]]. split.
    + constructor; [rewrite Eb; reflexivity|].
      eapply Forall2_impl; [|exact Hall]. intros x y Hxy.
      rewrite <- Hxy. apply (proj2 (Hbody x)).
      apply (reads_alike_log s s (decoded s) l1 (reads_alike_refl s)).
    + exists l2. reflexivity.
Qed.

End Readers.

Section StagedSteps.

Context {collaborators : Collaborators}.

Variable s1 : state.
Variable h : nat.
Variable c : child.
Variable tb : table.

Hypothesis Hfresh : Forall (fun c => (ident c < h)%nat) (group s1).
Hypothesis Hnodup : NoDup (map ident (group s1)).
Hypothesis Hsource : find_ident (self_source s1) (group s1) = Some c.
Hypothesis Hname : name c <> "_t_events"%string.
Hypothesis Hcontent : content c = Table tb.

Lemma source_table_staged rows log :
  source_table (staged s1 h rows log) = Ok tb (staged s1 h rows log).
Proof.
  unfold source_table. unfold bind at 1. unfold get at 1. cbv beta iota.
  unfold bind. rewrite deref_eq.
  change (self_source (staged s1 h rows log)) with (self_source s1).
  rewrite (find_ident_staged_source s1 h rows log c Hfresh Hnodup Hsource
             Hname).
  rewrite Hcontent. reflexivity.
Qed.

Lemma copy_events_staged rows log :
  _copy_events_into_table (staged s1 h rows log)
  = if Nat.eqb (List.length (slice_to (self_limit s1) rows))
         (List.length (slice_to (self_limit s1) (table_events tb)))
    then Ok tt (staged s1 h (copied_rows tb (self_limit s1) rows) log)
    else Raise (ValueError "shape mismatch") (staged s1 h rows log).
Proof.
  unfold _copy_events_into_table. unfold bind at 1. unfold get at 1.
  cbv beta iota. cbn [self_tmp_events staged attribute].
  unfold bind at 1. unfold ret at 1.
  fold (staged s1 h rows log).
  unfold bind at 1. rewrite source_table_staged.
  unfold bind at 1. rewrite (processed_rows_staged s1 h Hfresh).
  cbn [self_limit staged].
  destruct (Nat.eqb _ _); [|reflexivity].
  rewrite (write_rows_staged s1 h Hfresh). reflexivity.
Qed.

Lemma assign_column_staged set values rows log :
  assign_column set h values (staged s1 h rows log)
  = if Nat.eqb (List.length rows) (List.length values)
    then Ok tt (staged s1 h (zip_with set rows values) log)
    else Raise (ValueError "shape mismatch") (staged s1 h rows log).
Proof.
  unfold assign_column. unfold bind.
  rewrite (processed_rows_staged s1 h Hfresh).
  destruct (Nat.eqb _ _); [|reflexivity].
  rewrite (write_rows_staged s1 h Hfresh). reflexivity.
Qed.

Lemma process_pulseheights_staged rows log :
  _process_pulseheights None (staged s1 h rows log)
  = lift (particle_counts tb (self_limit s1)) (staged s1 h rows log).
Proof.
  unfold _process_pulseheights. cbn [truthy].
  unfold bind at 1. unfold ret at 1. unfold bind at 1. unfold get at 1.
  cbv beta iota. unfold bind at 1. rewrite source_table_staged.
  cbn [self_limit staged]. unfold particle_counts.
  destruct (_pulse_gauss_fit _ _) as [mpv|e]; reflexivity.
Qed.

Lemma process_traces_all_staged rows log :
  is_indexed (cls s1) = false ->
  process_traces None (staged s1 h rows log)
  = bind (for_each _reconstruct_time_from_traces
            (slice_to (self_limit s1) (table_events tb)))
         (fun result => ret (map (det4_map to_ns) result))
         (staged s1 h rows log).
Proof.
  intros Hcls. unfold process_traces. unfold bind at 1. unfold get at 1.
  cbv beta iota. cbn [cls staged]. rewrite Hcls.
  unfold process_traces_all. cbn [truthy].
  unfold bind at 1. unfold ret at 1. unfold bind at 1. unfold get at 1.
  cbv beta iota. unfold bind at 1. rewrite source_table_staged.
  reflexivity.
Qed.

Lemma process_traces_indexed_staged rows log :
  is_indexed (cls s1) = true ->
  process_traces None (staged s1 h rows log)
  = match itersequence (table_events tb) (self_indexes s1) with
    | Done events =>
        bind (for_each _reconstruct_time_from_traces events)
             (fun result => ret (map (det4_map to_ns) result))
             (staged s1 h rows log)
    | Fail e => Raise e (staged s1 h rows log)
    end.
Proof.
  intros Hcls. unfold process_traces. unfold bind at 1. unfold get at 1.
  cbv beta iota. cbn [cls staged]. rewrite Hcls.
  unfold process_traces_indexed.
  unfold bind at 1. unfold get at 1.
  cbv beta iota. unfold bind at 1. rewrite source_table_staged.
  cbn [self_indexes staged]. unfold bind at 1.
  destruct (itersequence (table_events tb) (self_indexes s1)); reflexivity.
Qed.

End StagedSteps.

Section Columns.

Lemma nth_error_zip_with {A B C} (f : A -> B -> C) (l : list A) :
  forall (m : list B) i,
    nth_error (zip_with f l m) i
    = match nth_error l i, nth_error m i with
      | Some a, Some b => Some (f a b)
      | _, _ => None
      end.
Proof.
  induction l as [|a r IH]; intros [|b m] [|i]; simpl; try reflexivity.
  - destruct (nth_error r i); reflexivity.
  - apply IH.
Qed.

Lemma length_zip_with {A B C} (f : A -> B -> C) (l : list A) :
  forall m : list B,
    List.length l = List.length m ->
    List.length (zip_with f l m) = List.length l.
Proof.
  induction l as [|a r IH]; intros [|b m] H; simpl in *; try lia.
  rewrite IH by lia. reflexivity.
Qed.

Lemma det4_set_all {A} (v d : det4 A) :
  det4_set 3 (det4_nth 3 v)
    (det4_set 2 (det4_nth 2 v)
       (det4_set 1 (det4_nth 1 v) (det4_set 0 (det4_nth 0 v) d))) = v.
Proof. destruct v, d. reflexivity. Qed.

Lemma length_zip_column set idx (rs : list row) (values : list (det4 pyfloat)) :
  List.length rs = List.length values ->
  List.length (zip_with (set idx : row -> pyfloat -> row) rs
                 (map (det4_nth idx) values))
  = List.length values.
Proof.
  intros H. rewrite length_zip_with; [exact H|].
  rewrite length_map. exact H.
Qed.

Lemma length_write_columns set rows values :
  List.length rows = List.length values ->
  List.length (write_columns set rows values) = List.length rows.
Proof.
  intros H. unfold write_columns. cbn [seq fold_left]. rewrite H.
  do 4 apply length_zip_column. exact H.
Qed.

Lemma nth_error_write_t rows values i r v :
  nth_error rows i = Some r -> nth_error values i = Some v ->
  nth_error (write_columns set_t rows values) i
  = Some (Row (row_event r) v (row_n r)).
Proof.
  intros Hr Hv. unfold write_columns. cbn [seq fold_left].
  rewrite !nth_error_zip_with, !nth_error_map, Hr, Hv. cbn [option_map].
  unfold set_t. cbn [row_event row_t row_n]. rewrite det4_set_all.
  reflexivity.
Qed.

Lemma nth_error_write_n rows values i r v :
  nth_error rows i = Some r -> nth_error values i = Some v ->
  nth_error (write_columns set_n rows values) i
  = Some (Row (row_event r) (row_t r) v).
Proof.
  intros Hr Hv. unfold write_columns. cbn [seq fold_left].
  rewrite !nth_error_zip_with, !nth_error_map, Hr, Hv. cbn [option_map].
  unfold set_n. cbn [row_event row_t row_n]. rewrite det4_set_all.
  reflexivity.
Qed.

Lemma length_updated_row rows pair :
  List.length (updated_row rows pair) = List.length rows.
Proof.
  unfold updated_row. destruct (nth_error rows (fst pair));
    [apply length_set_nth | reflexivity].
Qed.




End Columns.

Section StagedLoops.

Context {collaborators : Collaborators}.

Variable s1 : state.
Variable h : nat.

Hypothesis Hfresh : Forall (fun c => (ident c < h)%nat) (group s1).

Lemma assign_step_staged set idx values rows log :
  bind (lift (column idx values))
       (fun values' => assign_column (set idx) h values')
       (staged s1 h rows log)
  = match values with
    | [] => Raise IndexError (staged s1 h rows log)
    | _ =>
        if Nat.eqb (List.length rows) (List.length values)
        then Ok tt (staged s1 h
                      (zip_with (set idx) rows (map (det4_nth idx) values))
                      log)
        else Raise (ValueError "shape mismatch") (staged s1 h rows log)
    end.
Proof.
  destruct values as [|v vs]; [reflexivity|].
  unfold bind. cbn [column lift ret].
  rewrite (assign_column_staged s1 h Hfresh). rewrite length_map.
  reflexivity.
Qed.

Lemma assign_loop_run set values idxs : forall rows log,
  values <> [] ->
  List.length rows = List.length values ->
  exists us,
    for_each (fun idx => bind (lift (column idx values))
                           (fun values' => assign_column (set idx) h values'))
             idxs (staged s1 h rows log)
    = Ok us (staged s1 h
               (fold_left (fun rs idx =>
                             zip_with (set idx) rs (map (det4_nth idx) values))
                          idxs rows)
               log).
Proof.
  induction idxs as [|idx rest IH]; intros rows log Hne Hlen.
  - exists []. reflexivity.
  - cbn [for_each fold_left]. unfold bind at 1.
    rewrite assign_step_staged.
    replace (match values with
             | [] => Raise IndexError (staged s1 h rows log)
             | _ :: _ =>
                 if Nat.eqb (List.length rows) (List.length values)
                 then Ok tt (staged s1 h
                               (zip_with (set idx) rows
                                  (map (det4_nth idx) values)) log)
                 else Raise (ValueError "shape mismatch")
                        (staged s1 h rows log)
             end)
      with (Ok tt (staged s1 h
                     (zip_with (set idx) rows (map (det4_nth idx) values))
                     log)).
    2:{ destruct values; [contradiction|].
        rewrite Hlen, Nat.eqb_refl. reflexivity. }
    destruct (IH (zip_with (set idx) rows (map (det4_nth idx) values)) log Hne)
      as [us Hus].
    { apply length_zip_column. exact Hlen. }
    exists (tt :: us). cbv beta iota.
    rewrite (bind_ok _ _ _ _ _ Hus). reflexivity.
Qed.

Lemma assign_loop_staged set values rows log us s' :
  for_each (fun idx => bind (lift (column idx values))
                         (fun values' => assign_column (set idx) h values'))
           (seq 0 4) (staged s1 h rows log) = Ok us s' ->
  List.length rows = List.length values /\
  s' = staged s1 h (write_columns set rows values) log.
Proof.
  intros Hrun.
  assert (Hne : values <> []).
  { intros ->. discriminate Hrun. }
  destruct (Nat.eq_dec (List.length rows) (List.length values)) as [Hlen|Hlen].
  - split; [exact Hlen|].
    destruct (assign_loop_run set values (seq 0 4) rows log Hne Hlen)
      as [us' Hus].
    rewrite Hus in Hrun. injection Hrun as _ <-. reflexivity.
  - exfalso. cbn [seq for_each] in Hrun. unfold bind at 1 in Hrun.
    rewrite assign_step_staged in Hrun. destruct values; [contradiction|].
    apply Nat.eqb_neq in Hlen. rewrite Hlen in Hrun. discriminate.
Qed.

Lemma update_row_staged pair rows log :
  update_row h pair (staged s1 h rows log)
  = match nth_error rows (fst pair) with
    | Some _ => Ok tt (staged s1 h (updated_row rows pair) log)
    | None => Raise IndexError (staged s1 h rows log)
    end.
Proof.
  unfold update_row, updated_row. destruct pair as [index times].
  unfold bind. rewrite (processed_rows_staged s1 h Hfresh).
  cbn [fst snd]. destruct (nth_error rows index); [|reflexivity].
  rewrite (write_rows_staged s1 h Hfresh). reflexivity.
Qed.

Lemma update_loop_staged pairs : forall rows log us s',
  for_each (update_row h) pairs (staged s1 h rows log) = Ok us s' ->
  s' = staged s1 h (updated_rows rows pairs) log /\
  Forall (fun p => (fst p < List.length rows)%nat) pairs.
Proof.
  unfold updated_rows.
  induction pairs as [|p rest IH]; intros rows log us s' Hrun.
  - injection Hrun as _ <-. split; [reflexivity | constructor].
  - simpl in Hrun. unfold bind at 1 in Hrun.
    rewrite update_row_staged in Hrun.
    destruct (nth_error rows (fst p)) as [r|] eqn:Er; [|discriminate].
    unfold bind in Hrun.
    destruct (for_each (update_row h) rest _) as [us' s2|e s2] eqn:Erest;
      [|discriminate].
    injection Hrun as _ <-.
    destruct (IH _ _ _ _ Erest) as [-> Hall]. split; [reflexivity|].
    constructor.
    + apply nth_error_Some. congruence.
    + eapply Forall_impl; [|exact Hall]. intros q Hq.
      rewrite length_updated_row in Hq. exact Hq.
Qed.

End StagedLoops.

Section StoreSteps.

Context {collaborators : Collaborators}.

Variable s1 : state.
Variable h : nat.
Variable c : child.

Hypothesis Hfresh : Forall (fun c => (ident c < h)%nat) (group s1).
Hypothesis Hnodup : NoDup (map ident (group s1)).
Hypothesis Hsource : find_ident (self_source s1) (group s1) = Some c.
Hypothesis Hname : name c <> "_t_events"%string.

Lemma source_table_staged_node rows log :
  source_table (staged s1 h rows log)
  = match content c with
    | Table tb => Ok tb (staged s1 h rows log)
    | VLArray _ => Raise AttributeError (staged s1 h rows log)
    end.
Proof.
  unfold source_table. unfold bind at 1. unfold get at 1. cbv beta iota.
  unfold bind. rewrite deref_eq.
  change (self_source (staged s1 h rows log)) with (self_source s1).
  rewrite (find_ident_staged_source s1 h rows log c Hfresh Hnodup Hsource
             Hname).
  destruct (content c); reflexivity.
Qed.

(** Copying needs a source that is a table. *)
Lemma copy_events_needs_table rows log s' :
  _copy_events_into_table (staged s1 h rows log) = Ok tt s' ->
  exists tb, content c = Table tb.
Proof.
  unfold _copy_events_into_table. unfold bind at 1. unfold get at 1.
  cbv beta iota. cbn [self_tmp_events staged attribute].
  unfold bind at 1. unfold ret at 1.
  fold (staged s1 h rows log).
  unfold bind at 1. rewrite source_table_staged_node.
  destruct (content c) as [tb|blobs]; [eauto | discriminate].
Qed.

Variable tb : table.
Hypothesis Hcontent : content c = Table tb.
Hypothesis Htraces : without_traces (cls s1) = false.

Lemma store_results_all_staged rows log s' :
  is_indexed (cls s1) = false ->
  _store_results_from_traces (staged s1 h rows log) = Ok tt s' ->
  exists result log',
    Forall2 (fun ev tm =>
               value_of (_reconstruct_time_from_traces ev
                           (staged s1 h rows log)) = Done tm)
            (slice_to (self_limit s1) (table_events tb)) result /\
    List.length rows = List.length result /\
    s' = staged s1 h
           (write_columns set_t rows (map (det4_map to_ns) result)) log'.
Proof.
  intros Hcls. unfold _store_results_from_traces.
  unfold bind at 1. unfold get at 1. cbv beta iota.
  cbn [cls staged]. rewrite Htraces, Hcls.
  fold (staged s1 h rows log). unfold store_results_all.
  unfold bind at 1. unfold get at 1. cbv beta iota.
  cbn [self_tmp_events staged attribute]. unfold bind at 1. unfold ret at 1.
  fold (staged s1 h rows log). unfold bind at 1.
  rewrite (process_traces_all_staged s1 h c tb Hfresh Hnodup Hsource Hname
             Hcontent rows log Hcls).
  unfold bind at 1.
  destruct (for_each _reconstruct_time_from_traces _ _)
    as [result s2|e s2] eqn:Eloop; [|discriminate].
  destruct (for_each_reader _ _ reader_reconstruct _ _ _ Eloop)
    as [Hall [log' ->]].
  unfold ret at 1.
  change (with_decoded log' (staged s1 h rows log))
    with (staged s1 h rows log').
  unfold bind at 1.
  destruct (for_each _ (seq 0 4) _) as [us s3|e s3] eqn:Eassign;
    [|discriminate].
  intros Hrun. injection Hrun as <-.
  destruct (assign_loop_staged s1 h Hfresh _ _ _ _ _ _ Eassign)
    as [Hlen ->].
  exists result, log'. rewrite length_map in Hlen. auto.
Qed.

Lemma store_results_indexed_staged rows log s' :
  is_indexed (cls s1) = true ->
  _store_results_from_traces (staged s1 h rows log) = Ok tt s' ->
  exists events result log',
    itersequence (table_events tb) (self_indexes s1) = Done events /\
    Forall2 (fun ev tm =>
               value_of (_reconstruct_time_from_traces ev
                           (staged s1 h rows log)) = Done tm)
            events result /\
    Forall (fun i => (i < List.length rows)%nat) (self_indexes s1) /\
    s' = staged s1 h
           (updated_rows rows
              (combine (self_indexes s1) (map (det4_map to_ns) result)))
           log'.
Proof.
  intros Hcls. unfold _store_results_from_traces.
  unfold bind at 1. unfold get at 1. cbv beta iota.
  cbn [cls staged]. rewrite Htraces, Hcls.
  fold (staged s1 h rows log). unfold store_results_indexed.
  unfold bind at 1. unfold get at 1. cbv beta iota.
  cbn [self_tmp_events self_indexes staged attribute].
  unfold bind at 1. unfold ret at 1.
  fold (staged s1 h rows log). unfold bind at 1.
  rewrite (process_traces_indexed_staged s1 h c tb Hfresh Hnodup Hsource Hname
             Hcontent rows log Hcls).
  destruct (itersequence (table_events tb) (self_indexes s1))
    as [events|e] eqn:Eseq; [|discriminate].
  unfold bind at 1.
  destruct (for_each _reconstruct_time_from_traces _ _)
    as [result s2|e s2] eqn:Eloop; [|discriminate].
  destruct (for_each_reader _ _ reader_reconstruct _ _ _ Eloop)
    as [Hall [log' ->]].
  unfold ret at 1.
  change (with_decoded log' (staged s1 h rows log))
    with (staged s1 h rows log').
  unfold bind at 1.
  destruct (for_each (update_row h) _ _) as [us s3|e s3] eqn:Eupdate;
    [|discriminate].
  intros Hrun. injection Hrun as <-.
  destruct (update_loop_staged s1 h Hfresh _ _ _ _ _ Eupdate)
    as [-> Hbound].
  exists events, result, log'. repeat split; auto.
  (* every index has met its row *)
  assert (Hlen : List.length (self_indexes s1) = List.length result).
  { apply Forall2_length in Hall. rewrite <- Hall.
    clear - Eseq. revert events Eseq.
    induction (self_indexes s1) as [|i rest IH]; intros events Eseq.
    - injection Eseq as <-. reflexivity.
    - simpl in Eseq.
      destruct (nth_error (table_events tb) i); [|discriminate].
      simpl in Eseq.
      destruct (itersequence (table_events tb) rest); [|discriminate].
      injection Eseq as <-. simpl. f_equal. eauto. }
  apply Forall_forall. intros i Hi.
  apply In_nth_error in Hi as [k Hk].
  assert (Hk' : (k < List.length (map (det4_map to_ns) result))%nat).
  { rewrite length_map, <- Hlen. apply nth_error_Some. congruence. }
  apply nth_error_Some in Hk'.
  destruct (nth_error (map (det4_map to_ns) result) k) as [tm|] eqn:Etm;
    [|congruence].
  rewrite Forall_forall in Hbound.
  apply (Hbound (i, tm)).
  apply (nth_error_In _ k).
  clear - Hk Etm. revert k Hk Etm.
  generalize (map (det4_map to_ns) result) as tms.
  induction (self_indexes s1) as [|j rest IH]; intros tms k Hk Etm.
  - destruct k; discriminate.
  - destruct tms as [|t tms]; [destruct k; discriminate|].
    destruct k as [|k]; simpl in *.
    + congruence.
    + eauto.
Qed.

Lemma store_particles_staged rows log s' :
  _store_number_of_particles (staged s1 h rows log) = Ok tt s' ->
  exists np,
    particle_counts tb (self_limit s1) = Done np /\
    List.length rows = List.length np /\
    s' = staged s1 h (write_columns set_n rows np) log.
Proof.
  unfold _store_number_of_particles.
  unfold bind at 1. unfold get at 1. cbv beta iota.
  cbn [self_tmp_events staged attribute]. unfold bind at 1. unfold ret at 1.
  fold (staged s1 h rows log). unfold bind at 1.
  rewrite (process_pulseheights_staged s1 h c tb Hfresh Hnodup Hsource Hname
             Hcontent rows log).
  destruct (particle_counts tb (self_limit s1)) as [np|e]; [|discriminate].
  cbn [lift ret]. unfold bind at 1.
  destruct (for_each _ (seq 0 4) _) as [us s3|e s3] eqn:Eassign;
    [|discriminate].
  intros Hrun. injection Hrun as <-.
  destruct (assign_loop_staged s1 h Hfresh _ _ _ _ _ _ Eassign)
    as [Hlen ->].
  exists np. auto.
Qed.

End StoreSteps.

Section Staged.

Context {collaborators : Collaborators}.

Lemma staged_rows s h rows log rows' log' :
  staged s h rows log = staged s h rows' log' -> rows = rows'.
Proof.
  unfold staged. intros H. injection H as Hg _.
  apply app_inj_tail in Hg as [_ Hc]. congruence.
Qed.


Lemma length_slice_to {A} (k : option nat) (l : list A) :
  (List.length (slice_to k l) <= List.length l)%nat.
Proof.
  destruct k as [n|]; simpl; [|lia]. rewrite length_firstn. lia.
Qed.



Lemma nth_error_slice_to {A} (k : option nat) (l : list A) i :
  (i < List.length (slice_to k l))%nat ->
  nth_error (slice_to k l) i = nth_error l i.
Proof.
  destruct k as [n|]; simpl; [|reflexivity]. rewrite length_firstn.
  intros Hi. rewrite nth_error_firstn.
  replace (Nat.ltb i n) with true; [reflexivity|].
  symmetry. apply Nat.ltb_lt. lia.
Qed.


End Staged.

Section Indexed.

Context {collaborators : Collaborators}.

Lemma Forall2_nth_error {A B} (R : A -> B -> Prop) (l : list A) :
  forall (m : list B) k a,
    Forall2 R l m -> nth_error l k = Some a ->
    exists b, nth_error m k = Some b /\ R a b.
Proof.
  induction l as [|x l IH]; intros m k a Hall Hk.
  - destruct k; discriminate.
  - inversion Hall as [|x' y l' m' Hxy Hrest]; subst.
    destruct k as [|k]; simpl in *.
    + injection Hk as <-. eauto.
    + eauto.
Qed.



End Indexed.



(* ================================================================== *)
(** ** The bins around the peak *)

Section PeakBins.

Lemma Qltb_lt a b : Qltb a b = true <-> (a < b)%Q.
Proof.
  unfold Qltb. rewrite Qlt_alt. destruct (a ?= b)%Q; split; congruence.
Qed.

Lemma Qltb_ge a b : Qltb a b = false <-> (b <= a)%Q.
Proof.
  split.
  - intros H. apply Qnot_lt_le. intros Hlt. apply Qltb_lt in Hlt. congruence.
  - intros H. destruct (Qltb a b) eqn:E; [|reflexivity].
    apply Qltb_lt in E. apply Qle_not_lt in H. contradiction.
Qed.

Lemma Qltb_compat a a' b b' :
  (a == a')%Q -> (b == b')%Q -> Qltb a b = Qltb a' b'.
Proof. intros Ha Hb. unfold Qltb. rewrite Ha, Hb. reflexivity. Qed.

Lemma next_minimum_scan_compat rest : forall m m' i,
  (m == m')%Q -> next_minimum_scan m i rest = next_minimum_scan m' i rest.
Proof.
  induction rest as [|c more IH]; intros m m' i Hm; [reflexivity|].
  simpl. rewrite (Qltb_compat c c m m' (Qeq_refl c) Hm).
  rewrite (Qltb_compat m m' c c Hm (Qeq_refl c)).
  destruct (Qltb c m'); [reflexivity|].
  destruct (Qltb m' c); [reflexivity|]. apply IH, Hm.
Qed.

(** The scan, seen on the list [m :: rest] of the value before and the
    values ahead: it stops at the first place where the next value is
    larger. *)
Lemma next_minimum_scan_first_rise rest : forall m i r,
  next_minimum_scan m (S i) rest = Some r <->
  exists k, r = (i + k)%nat /\ (k < List.length rest)%nat /\
    (nth k (m :: rest) 0 < nth (S k) (m :: rest) 0)%Q /\
    forall j, (j < k)%nat ->
      (nth (S j) (m :: rest) 0 <= nth j (m :: rest) 0)%Q.
Proof.
  induction rest as [|c more IH]; intros m i r.
  - simpl. split; [discriminate|]. intros [k [_ [Hk _]]]. lia.
  - cbn [next_minimum_scan].
    destruct (Qltb c m) eqn:Hcm.
    + (* the value falls *)
      rewrite IH. apply Qltb_lt in Hcm. split.
      * intros [k [-> [Hk [Hrise Hbefore]]]].
        exists (S k). split; [lia|]. split; [simpl; lia|].
        split; [exact Hrise|].
        intros [|j] Hj; [simpl; apply Qlt_le_weak, Hcm|].
        apply (Hbefore j). lia.
      * intros [[|k] [-> [Hk [Hrise Hbefore]]]].
        { simpl in Hrise. exfalso. apply (Qlt_irrefl m).
          eapply Qlt_trans; eassumption. }
        exists k. split; [lia|]. split; [simpl in Hk; lia|].
        split; [exact Hrise|].
        intros j Hj. apply (Hbefore (S j)). lia.
    + destruct (Qltb m c) eqn:Hmc.
      * (* the value rises *)
        apply Qltb_lt in Hmc. split.
        -- intros H. injection H as <-. exists 0%nat.
           split; [lia|]. split; [simpl; lia|].
           split; [exact Hmc|]. intros j Hj. lia.
        -- intros [[|k] [-> [Hk [Hrise Hbefore]]]].
           ++ f_equal. lia.
           ++ exfalso. specialize (Hbefore 0%nat (Nat.lt_0_succ _)).
              simpl in Hbefore. apply Qle_not_lt in Hbefore. contradiction.
      * (* the value stays *)
        apply Qltb_ge in Hcm, Hmc.
        assert (Heq : (m == c)%Q) by (apply Qle_antisym; assumption).
        rewrite (next_minimum_scan_compat more m c _ Heq).
        rewrite IH. split.
        -- intros [k [-> [Hk [Hrise Hbefore]]]].
           exists (S k). split; [lia|]. split; [simpl; lia|].
           split; [exact Hrise|].
           intros [|j] Hj; [simpl; exact Hmc|].
           apply (Hbefore j). lia.
        -- intros [[|k] [-> [Hk [Hrise Hbefore]]]].
           { simpl in Hrise. apply Qle_not_lt in Hmc. contradiction. }
           exists k. split; [lia|]. split; [simpl in Hk; lia|].
           split; [exact Hrise|].
           intros j Hj. apply (Hbefore (S j)). lia.
Qed.

Lemma next_maximum_scan_compat rest : forall m m' i,
  (m == m')%Q -> next_maximum_scan m i rest = next_maximum_scan m' i rest.
Proof.
  induction rest as [|c more IH]; intros m m' i Hm; [reflexivity|].
  simpl. rewrite (Qltb_compat c c m m' (Qeq_refl c) Hm).
  rewrite (Qltb_compat m m' c c Hm (Qeq_refl c)).
  destruct (Qltb m' c); [reflexivity|].
  destruct (Qltb c m'); [reflexivity|]. apply IH, Hm.
Qed.

Lemma next_maximum_scan_first_fall rest : forall m i r,
  next_maximum_scan m (S i) rest = Some r <->
  exists k, r = (i + k)%nat /\ (k < List.length rest)%nat /\
    (nth (S k) (m :: rest) 0 < nth k (m :: rest) 0)%Q /\
    forall j, (j < k)%nat ->
      (nth j (m :: rest) 0 <= nth (S j) (m :: rest) 0)%Q.
Proof.
  induction rest as [|c more IH]; intros m i r.
  - simpl. split; [discriminate|]. intros [k [_ [Hk _]]]. lia.
  - cbn [next_maximum_scan].
    destruct (Qltb m c) eqn:Hmc.
    + rewrite IH. apply Qltb_lt in Hmc. split.
      * intros [k [-> [Hk [Hfall Hbefore]]]].
        exists (S k). split; [lia|]. split; [simpl; lia|].
        split; [exact Hfall|].
        intros [|j] Hj; [simpl; apply Qlt_le_weak, Hmc|].
        apply (Hbefore j). lia.
      * intros [[|k] [-> [Hk [Hfall Hbefore]]]].
        { simpl in Hfall. exfalso. apply (Qlt_irrefl m).
          eapply Qlt_trans; eassumption. }
        exists k. split; [lia|]. split; [simpl in Hk; lia|].
        split; [exact Hfall|].
        intros j Hj. apply (Hbefore (S j)). lia.
    + destruct (Qltb c m) eqn:Hcm.
      * apply Qltb_lt in Hcm. split.
        -- intros H. injection H as <-. exists 0%nat.
           split; [lia|]. split; [simpl; lia|].
           split; [exact Hcm|]. intros j Hj. lia.
        -- intros [[|k] [-> [Hk [Hfall Hbefore]]]].
           ++ f_equal. lia.
           ++ exfalso. specialize (Hbefore 0%nat (Nat.lt_0_succ _)).
              simpl in Hbefore. apply Qle_not_lt in Hbefore. contradiction.
      * apply Qltb_ge in Hcm, Hmc.
        assert (Heq : (m == c)%Q) by (apply Qle_antisym; assumption).
        rewrite (next_maximum_scan_compat more m c _ Heq).
        rewrite IH. split.
        -- intros [k [-> [Hk [Hfall Hbefore]]]].
           exists (S k). split; [lia|]. split; [simpl; lia|].
           split; [exact Hfall|].
           intros [|j] Hj; [simpl; exact Hcm|].
           apply (Hbefore j). lia.
        -- intros [[|k] [-> [Hk [Hfall Hbefore]]]].
           { simpl in Hfall. apply Qle_not_lt in Hcm. contradiction. }
           exists k. split; [lia|]. split; [simpl in Hk; lia|].
           split; [exact Hfall|].
           intros j Hj. apply (Hbefore (S j)). lia.
Qed.

Lemma skipn_cons_nth {A} (l : list A) : forall n a,
  nth_error l n = Some a -> skipn n l = a :: skipn (S n) l.
Proof.
  induction l as [|x l IH]; intros [|n] a H; try discriminate.
  - injection H as ->. reflexivity.
  - simpl in *. apply IH, H.
Qed.

Lemma nth_skipn_cons {A} (l : list A) (d : A) : forall n a k,
  nth_error l n = Some a ->
  nth k (a :: skipn (S n) l) d = nth (n + k) l d.
Proof.
  intros n a k H. rewrite <- (skipn_cons_nth l n a H).
  revert l H. induction n as [|n IH]; intros l H; [reflexivity|].
  destruct l as [|x l]; [discriminate|]. simpl in *. apply IH, H.
Qed.

Lemma first_from (P Q' : nat -> Prop)
  (dec : forall n, {P n} + {Q' n}) : forall d start,
  P (start + d)%nat ->
  exists r, (start <= r <= start + d)%nat /\ P r /\
    forall i, (start <= i < r)%nat -> Q' i.
Proof.
  induction d as [|d IH]; intros start Hp.
  - exists start. rewrite Nat.add_0_r in Hp. split; [lia|].
    split; [exact Hp|]. intros i Hi. lia.
  - destruct (dec start) as [Hs|Hs].
    + exists start. split; [lia|]. split; [exact Hs|]. intros i Hi. lia.
    + destruct (IH (S start)) as [r [Hr [Hpr Hbefore]]].
      { replace (S start + d)%nat with (start + S d)%nat by lia. exact Hp. }
      exists r. split; [lia|]. split; [exact Hpr|].
      intros i Hi. destruct (Nat.eq_dec i start) as [->|Hne];
        [exact Hs | apply Hbefore; lia].
Qed.

End PeakBins.

Lemma findBinNextMinimum_some (y : list Q) (startBin r : nat) :
  findBinNextMinimum y startBin = Some r <->
   (startBin <= r)%nat /\ (S r < List.length y)%nat /\
   (nth r y 0 < nth (S r) y 0)%Q /\
   forall j, (startBin <= j < r)%nat -> (nth (S j) y 0 <= nth j y 0)%Q.
Proof.
  unfold findBinNextMinimum.
  destruct (nth_error y startBin) as [m|] eqn:Em.
  - rewrite (skipn_cons_nth y startBin m Em). cbn [next_minimum_scan].
    replace (Qltb m m) with false
      by (symmetry; apply Qltb_ge, Qle_refl).
    rewrite next_minimum_scan_first_rise.
    assert (Hlen : (startBin < List.length y)%nat)
      by (apply nth_error_Some; congruence).
    split.
    + intros [k [-> [Hk [Hrise Hbefore]]]].
      rewrite length_skipn in Hk.
      rewrite !(nth_skipn_cons y 0%Q startBin m _ Em) in Hrise.
      rewrite Nat.add_succ_r in Hrise.
      split; [lia|]. split; [lia|]. split; [exact Hrise|].
      intros j Hj. specialize (Hbefore (j - startBin)%nat).
      rewrite !(nth_skipn_cons y 0%Q startBin m _ Em) in Hbefore.
      rewrite Nat.add_succ_r in Hbefore.
      replace (startBin + (j - startBin))%nat with j in Hbefore by lia.
      apply Hbefore. lia.
    + intros [Hr [Hlast [Hrise Hbefore]]].
      exists (r - startBin)%nat. split; [lia|].
      split; [rewrite length_skipn; lia|].
      rewrite !(nth_skipn_cons y 0%Q startBin m _ Em).
      rewrite Nat.add_succ_r.
      replace (startBin + (r - startBin))%nat with r by lia.
      split; [exact Hrise|].
      intros j Hj. rewrite !(nth_skipn_cons y 0%Q startBin m _ Em).
      rewrite Nat.add_succ_r. apply Hbefore. lia.
  - apply nth_error_None in Em. split; [discriminate|].
    intros [Hr [Hlast _]]. lia.
Qed.

Lemma findBinNextMaximum_some (y : list Q) (startBin r : nat) :
  findBinNextMaximum y startBin = Some r <->
   (startBin <= r)%nat /\ (S r < List.length y)%nat /\
   (nth (S r) y 0 < nth r y 0)%Q /\
   forall j, (startBin <= j < r)%nat -> (nth j y 0 <= nth (S j) y 0)%Q.
Proof.
  unfold findBinNextMaximum.
  destruct (nth_error y startBin) as [m|] eqn:Em.
  - rewrite (skipn_cons_nth y startBin m Em). cbn [next_maximum_scan].
    replace (Qltb m m) with false
      by (symmetry; apply Qltb_ge, Qle_refl).
    rewrite next_maximum_scan_first_fall.
    assert (Hlen : (startBin < List.length y)%nat)
      by (apply nth_error_Some; congruence).
    split.
    + intros [k [-> [Hk [Hrise Hbefore]]]].
      rewrite length_skipn in Hk.
      rewrite !(nth_skipn_cons y 0%Q startBin m _ Em) in Hrise.
      rewrite Nat.add_succ_r in Hrise.
      split; [lia|]. split; [lia|]. split; [exact Hrise|].
      intros j Hj. specialize (Hbefore (j - startBin)%nat).
      rewrite !(nth_skipn_cons y 0%Q startBin m _ Em) in Hbefore.
      rewrite Nat.add_succ_r in Hbefore.
      replace (startBin + (j - startBin))%nat with j in Hbefore by lia.
      apply Hbefore. lia.
    + intros [Hr [Hlast [Hrise Hbefore]]].
      exists (r - startBin)%nat. split; [lia|].
      split; [rewrite length_skipn; lia|].
      rewrite !(nth_skipn_cons y 0%Q startBin m _ Em).
      rewrite Nat.add_succ_r.
      replace (startBin + (r - startBin))%nat with r by lia.
      split; [exact Hrise|].
      intros j Hj. rewrite !(nth_skipn_cons y 0%Q startBin m _ Em).
      rewrite Nat.add_succ_r. apply Hbefore. lia.
  - apply nth_error_None in Em. split; [discriminate|].
    intros [Hr [Hlast _]]. lia.
Qed.

(** X1: [findBinNextMinimum(y, startBin)] returns the first bin [r] at or
    after [startBin] whose successor holds a larger value; up to [r] no
    value is followed by a larger one.  It returns no bin (the loop reads
    [y[len(y)]], an [IndexError]) exactly when the values never rise from
    [startBin] on. *)
Theorem findBinNextMinimum_first_rise (y : list Q) (startBin : nat) :
  (forall r,
     findBinNextMinimum y startBin = Some r <->
     (startBin <= r)%nat /\ (S r < List.length y)%nat /\
     (nth r y 0 < nth (S r) y 0)%Q /\
     forall j, (startBin <= j < r)%nat -> (nth (S j) y 0 <= nth j y 0)%Q) /\
  (findBinNextMinimum y startBin = None <->
   forall j, (startBin <= j)%nat -> (S j < List.length y)%nat ->
     (nth (S j) y 0 <= nth j y 0)%Q).
Proof.
  pose proof (fun r => findBinNextMinimum_some y startBin r) as Hsome.
  split; [exact Hsome|].
  split.
  - intros Hnone j Hj Hlast.
    apply Qnot_lt_le. intros Hrise.
    (* the first rise from startBin on would be returned *)
    destruct (first_from (fun i => (nth i y 0 < nth (S i) y 0)%Q)
                (fun i => (nth (S i) y 0 <= nth i y 0)%Q)
                (fun i => Qlt_le_dec (nth i y 0%Q) (nth (S i) y 0%Q))
                (j - startBin) startBin)
      as [r [Hr [Hrr Hbefore]]].
    { replace (startBin + (j - startBin))%nat with j by lia. exact Hrise. }
    assert (Hfound : findBinNextMinimum y startBin = Some r).
    { apply Hsome. split; [lia|]. split; [lia|]. split; [exact Hrr|].
      intros i Hi. apply Hbefore. exact Hi. }
    congruence.
  - intros Hnever.
    destruct (findBinNextMinimum y startBin) as [r|] eqn:E; [|reflexivity].
    destruct (proj1 (Hsome r) eq_refl) as [Hr [Hlast [Hrise _]]].
    specialize (Hnever r Hr Hlast). apply Qle_not_lt in Hnever.
    contradiction.
Qed.

(** X2: [findBinNextMaximum(y, startBin)] returns the first bin [r] at or
    after [startBin] whose successor holds a smaller value; up to [r] no
    value is followed by a smaller one.  It returns no bin (the loop reads
    [y[len(y)]], an [IndexError]) exactly when the values never fall from
    [startBin] on. *)
Theorem findBinNextMaximum_first_fall (y : list Q) (startBin : nat) :
  (forall r,
     findBinNextMaximum y startBin = Some r <->
     (startBin <= r)%nat /\ (S r < List.length y)%nat /\
     (nth (S r) y 0 < nth r y 0)%Q /\
     forall j, (startBin <= j < r)%nat -> (nth j y 0 <= nth (S j) y 0)%Q) /\
  (findBinNextMaximum y startBin = None <->
   forall j, (startBin <= j)%nat -> (S j < List.length y)%nat ->
     (nth j y 0 <= nth (S j) y 0)%Q).
Proof.
  pose proof (fun r => findBinNextMaximum_some y startBin r) as Hsome.
  split; [exact Hsome|].
  split.
  - intros Hnone j Hj Hlast.
    apply Qnot_lt_le. intros Hrise.
    (* the first fall from startBin on would be returned *)
    destruct (first_from (fun i => (nth (S i) y 0 < nth i y 0)%Q)
                (fun i => (nth i y 0 <= nth (S i) y 0)%Q)
                (fun i => Qlt_le_dec (nth (S i) y 0%Q) (nth i y 0%Q))
                (j - startBin) startBin)
      as [r [Hr [Hrr Hbefore]]].
    { replace (startBin + (j - startBin))%nat with j by lia. exact Hrise. }
    assert (Hfound : findBinNextMaximum y startBin = Some r).
    { apply Hsome. split; [lia|]. split; [lia|]. split; [exact Hrr|].
      intros i Hi. apply Hbefore. exact Hi. }
    congruence.
  - intros Hnever.
    destruct (findBinNextMaximum y startBin) as [r|] eqn:E; [|reflexivity].
    destruct (proj1 (Hsome r) eq_refl) as [Hr [Hlast [Hrise _]]].
    specialize (Hnever r Hr Hlast). apply Qle_not_lt in Hnever.
    contradiction.
Qed.

Section Window.

Lemma nondecreasingb_nth x : nondecreasingb x = true ->
  forall i j a b, (i <= j)%nat ->
    nth_error x i = Some a -> nth_error x j = Some b -> a <= b.
Proof.
  induction x as [|x0 rest IH]; intros Hs i j a b Hij Ha Hb.
  - destruct i; discriminate.
  - assert (Hrest : nondecreasingb rest = true).
    { destruct rest as [|x1 more]; [reflexivity|].
      cbn [nondecreasingb] in Hs. apply andb_true_iff in Hs as [_ Hs].
      exact Hs. }
    assert (Hhead : forall k c, nth_error rest k = Some c -> x0 <= c).
    { intros k c Hk. destruct rest as [|x1 more]; [destruct k; discriminate|].
      cbn [nondecreasingb] in Hs. apply andb_true_iff in Hs as [Hle _].
      apply Z.leb_le in Hle.
      assert (x1 <= c); [|lia].
      apply (IH Hrest 0%nat k x1 c); [lia | reflexivity | exact Hk]. }
    destruct i as [|i], j as [|j]; simpl in Ha, Hb.
    + congruence || (injection Ha as <-; injection Hb as <-; lia).
    + injection Ha as <-. eapply Hhead, Hb.
    + lia.
    + apply (IH Hrest i j); [lia | assumption | assumption].
Qed.

Lemma ordered_inject x : nondecreasingb x = true -> ordered (map inject_Z x).
Proof.
  intros Hs i j a b Hij Ha Hb. rewrite nth_error_map in Ha, Hb.
  destruct (nth_error x i) as [a'|] eqn:Ea; [|discriminate].
  destruct (nth_error x j) as [b'|] eqn:Eb; [|discriminate].
  injection Ha as <-. injection Hb as <-. rewrite <- Zle_Qle.
  eapply nondecreasingb_nth; eassumption.
Qed.

Lemma nondecreasingb_app x v :
  nondecreasingb x = true -> (forall a, In a x -> a <= v) ->
  nondecreasingb (x ++ [v]) = true.
Proof.
  induction x as [|a rest IH]; intros Hs Hv; [reflexivity|].
  destruct rest as [|b more].
  - simpl. rewrite andb_true_r. apply Z.leb_le, Hv. left. reflexivity.
  - cbn [nondecreasingb] in Hs. apply andb_true_iff in Hs as [Hab Hs].
    change ((a :: b :: more) ++ [v]) with (a :: (b :: more) ++ [v]).
    change ((b :: more) ++ [v]) with (b :: more ++ [v]) at 1.
    cbn [nondecreasingb]. rewrite Hab. 
    change (b :: more ++ [v]) with ((b :: more) ++ [v]).
    apply IH; [exact Hs|]. intros c Hc. apply Hv. right. exact Hc.
Qed.

Lemma nth_error_pairs {A} : forall (l : list A) k p,
  nth_error (pairs l) k = Some p ->
  nth_error l (2 * k) = Some (fst p) /\ nth_error l (2 * k + 1) = Some (snd p).
Proof.
  fix IH 1. intros [|a [|b r]] k p H; try (destruct k; discriminate).
  cbn [pairs] in H. destruct k as [|k].
  - injection H as <-. split; reflexivity.
  - cbn [nth_error] in H. apply IH in H as [H1 H2].
    replace (2 * S k)%nat with (S (S (2 * k))) by lia.
    replace (S (S (2 * k)) + 1)%nat with (S (S (2 * k + 1))) by lia.
    split; assumption.
Qed.

Lemma ordered_pair_means l : ordered l -> ordered (pair_means l).
Proof.
  intros Hl i j a b Hij Ha Hb. unfold pair_means in Ha, Hb.
  rewrite nth_error_map in Ha, Hb.
  destruct (nth_error (pairs l) i) as [p|] eqn:Ep; [|discriminate].
  destruct (nth_error (pairs l) j) as [q|] eqn:Eq; [|discriminate].
  injection Ha as <-. injection Hb as <-.
  apply nth_error_pairs in Ep as [Hp1 Hp2].
  apply nth_error_pairs in Eq as [Hq1 Hq2].
  assert (H1 : (fst p <= fst q)%Q) 
    by (apply (Hl (2 * i)%nat (2 * j)%nat); [lia | exact Hp1 | exact Hq1]).
  assert (H2 : (snd p <= snd q)%Q) 
    by (apply (Hl (2 * i + 1)%nat (2 * j + 1)%nat);
        [lia | exact Hp2 | exact Hq2]).
  change (inject_Z 2) with 2%Q.
  unfold Qdiv. apply Qmult_le_compat_r; [lra|]. discriminate.
Qed.

Lemma py_index_last_In {A} (l : list A) a :
  py_index l (-1) = Some a -> In a l.
Proof.
  unfold py_index. intros H.
  destruct (-1 <? - Z.of_nat (List.length l)); [discriminate|].
  change (-1 <? 0) with true in H. cbv iota in H.
  eapply nth_error_In, H.
Qed.

End Window.

(** X3: for bin centres that never fall, whenever [getFitParameters]
    returns, the peak lies midway between the two ends of the fit range
    that come with it: the range minimum is at most the peak, the peak at
    most the range maximum, and both are equally far from it. *)
Theorem getFitParameters_range_around_peak
  (x y : list Z) (peak minRange maxRange : Q) :
  nondecreasingb x = true ->
  getFitParameters x y = Done (peak, minRange, maxRange) ->
  (minRange <= peak)%Q /\ (peak <= maxRange)%Q /\
  (peak - minRange == maxRange - peak)%Q.
Proof.
  intros Hx H. unfold getFitParameters in H.
  destruct (py_index x 0) as [x0|] eqn:E0; [|discriminate].
  destruct (py_index x 1) as [x1|] eqn:E1; [|discriminate].
  destruct (py_index x (-1)) as [xl|] eqn:El; [|discriminate].
  cbn [of_option rbind] in H.
  destruct (cut_smoothed x (smooth_forward y 5)) as [ys|]; [|discriminate].
  cbn [rbind] in H.
  destruct (cut_diff _ 0 _) as [y_diff|]; [|discriminate].
  cbn [rbind] in H.
  destruct (convolve_same y_diff _) as [smoothed|]; [|discriminate].
  cbn [of_option rbind] in H.
  destruct (findBinNextMinimum smoothed 0) as [bin0|]; [|discriminate].
  cbn [of_option rbind] in H.
  destruct (findBinNextMaximum smoothed bin0) as [binMaximum|];
    [|discriminate].
  cbn [of_option rbind] in H.
  destruct (findBinNextMinimum smoothed binMaximum) as [binMinimum|] eqn:Emin;
    [|discriminate].
  cbn [of_option rbind] in H.
  destruct (nth_error _ binMaximum) as [maxX|] eqn:EmaxX; [|discriminate].
  cbn [of_option rbind] in H.
  destruct (nth_error _ binMinimum) as [minX|] eqn:EminX; [|discriminate].
  cbn [of_option rbind] in H.
  injection H as <- <- <-.
  assert (Hbins : (binMaximum <= binMinimum)%nat)
    by (apply findBinNextMinimum_some in Emin; tauto).
  assert (Hord : ordered (pair_means
                   (map inject_Z (pad_odd x (xl + x1 - x0))))).
  { apply ordered_pair_means, ordered_inject. unfold pad_odd.
    destruct (Nat.odd (List.length x)); [|exact Hx].
    apply nondecreasingb_app; [exact Hx|].
    intros a Ha. apply In_nth_error in Ha as [k Hk].
    assert (Hlast : a <= xl).
    { unfold py_index in El.
      destruct (-1 <? - Z.of_nat (List.length x)) eqn:Eneg; [discriminate|].
      change (-1 <? 0) with true in El. cbv iota in El.
      apply (nondecreasingb_nth x Hx k _ a xl) in El; [exact El| |exact Hk].
      apply Z.ltb_ge in Eneg.
      assert (k < List.length x)%nat by (apply nth_error_Some; congruence).
      lia. }
    assert (Hstep : x0 <= x1).
    { unfold py_index in E0, E1. 
      destruct (0 <? - Z.of_nat (List.length x)); [discriminate|].
      destruct (1 <? - Z.of_nat (List.length x)); [discriminate|].
      change (0 <? 0) with false in E0. change (1 <? 0) with false in E1.
      cbv iota in E0, E1.
      apply (nondecreasingb_nth x Hx 0%nat 1%nat); [lia | exact E0 | exact E1]. }
    lia. }
  pose proof (Hord _ _ _ _ Hbins EmaxX EminX) as Hle.
  change (inject_Z 2) with 2%Q.
  set (bias := inject_Z ((x1 - x0) * 2)).
  assert (Emid : (2 * ((maxX + minX) / 2) == maxX + minX)%Q) by field.
  set (mid := ((maxX + minX) / 2)%Q) in *.
  repeat split; lra.
Qed.

Lemma getFitParameters_range_around_peak_witness :
  exists peak minRange maxRange,
    getFitParameters sample_pulsecount sample_occurence
    = Done (peak, minRange, maxRange) /\
    (minRange <= peak)%Q /\ (peak <= maxRange)%Q /\
    (peak - minRange == maxRange - peak)%Q.
Proof.
  eexists. eexists. eexists. split; [vm_compute; reflexivity|].
  apply (getFitParameters_range_around_peak sample_pulsecount
           sample_occurence);
    vm_compute; reflexivity.
Defined.

(* ================================================================== *)
(** ** The first sample of a trace *)

Section Wrap.




End Wrap.



(* ================================================================== *)
(** ** The calibration of the pulse heights *)

Section Average.

Context {collaborators : Collaborators}.

Lemma zsum_from l : forall acc, fold_left Z.add l acc = acc + zsum l.
Proof.
  unfold zsum. induction l as [|a l IH]; intros acc; simpl; [lia|].
  rewrite (IH (acc + a)), (IH a). lia.
Qed.

Lemma zsum_cons a l : zsum (a :: l) = a + zsum l.
Proof. unfold zsum at 1. simpl. apply zsum_from. Qed.

Lemma bin_centres_cons lo hi more :
  bin_centres (lo :: hi :: more) = (lo + hi) / 2 :: bin_centres (hi :: more).
Proof. reflexivity. Qed.

Lemma count_if_nonneg {A} (p : A -> bool) l : 0 <= count_if p l.
Proof. unfold count_if. lia. Qed.

Lemma count_if_none {A} (p : A -> bool) l :
  (forall v, In v l -> p v = false) -> count_if p l = 0.
Proof.
  intros H. unfold count_if.
  replace (filter p l) with (@nil A); [reflexivity|].
  symmetry. induction l as [|a l IH]; [reflexivity|].
  simpl. rewrite (H a) by (left; reflexivity).
  apply IH. intros v Hv. apply H. right. exact Hv.
Qed.

Lemma histogram_cons a lo hi more :
  histogram a (lo :: hi :: more)
  = count_if (fun v => (lo <=? v) && ((v <? hi) ||
      (match more with [] => true | _ => false end && (v =? hi)))) a
    :: histogram a (hi :: more).
Proof. reflexivity. Qed.

Lemma zsum_histogram_nonneg a bins : 0 <= zsum (histogram a bins).
Proof.
  induction bins as [|lo rest IH]; [unfold zsum; simpl; lia|].
  destruct rest as [|hi more]; [unfold zsum; simpl; lia|].
  rewrite histogram_cons, zsum_cons.
  pose proof (count_if_nonneg
    (fun v => (lo <=? v) && ((v <? hi) ||
       (match more with [] => true | _ => false end && (v =? hi)))) a).
  lia.
Qed.

(** The weighted sum of the centres stays below [centre] times the number
    of entries when no value reaches [bound]. *)
Lemma weighted_centres_le a bound centre bins :
  (forall v, In v a -> v < bound) ->
  low_bins bound centre bins = true ->
  zsum (zip_with Z.mul (bin_centres bins) (histogram a bins))
  <= centre * zsum (histogram a bins).
Proof.
  intros Ha. induction bins as [|lo rest IH]; intros Hlow.
  - unfold zsum. simpl. lia.
  - destruct rest as [|hi more]; [unfold zsum; simpl; lia|].
    cbn [low_bins] in Hlow. apply andb_true_iff in Hlow as [Hbin Hrest].
    specialize (IH Hrest).
    rewrite bin_centres_cons, histogram_cons. cbn [zip_with].
    rewrite !zsum_cons.
    set (occ := count_if _ a).
    assert (Hocc : 0 <= occ) by apply count_if_nonneg.
    apply orb_true_iff in Hbin as [Hout|Hin].
    + apply Z.leb_le in Hout.
      assert (Hzero : occ = 0).
      { apply count_if_none. intros v Hv. specialize (Ha v Hv).
        apply andb_false_iff. left. apply Z.leb_gt. lia. }
      rewrite Hzero. lia.
    + apply Z.leb_le in Hin. nia.
Qed.

Lemma low_average_fails pulsecounts bins later mpv centre :
  (forall r, In r pulsecounts -> d1 r < 100) ->
  low_bins 100 centre bins = true -> centre < 100 ->
  gauss_fit_loop pulsecounts bins (0%nat :: later) mpv
  = Fail (ValueError "Average pulseintegral is less than 100").
Proof.
  intros Hlow Hbins Hcentre. cbn [gauss_fit_loop].
  set (a := map (det4_nth 0) pulsecounts).
  assert (Ha : forall v, In v a -> v < 100).
  { intros v Hv. apply in_map_iff in Hv as [r [<- Hr]]. apply Hlow, Hr. }
  pose proof (weighted_centres_le a 100 centre bins Ha Hbins) as Hw.
  pose proof (zsum_histogram_nonneg a bins) as Hn.
  replace (_ / _ <? 100) with true; [reflexivity|].
  symmetry. apply Z.ltb_lt.
  destruct (Z.eq_dec (zsum (histogram a bins)) 0) as [Hzero|Hpos].
  - rewrite Hzero, Z.div_0_r. lia.
  - apply Z.div_lt_upper_bound; [lia|]. nia.
Qed.

End Average.

(** X5: the calibration refuses a data set whose first detector has no
    value of 100 or more: for pulse heights (bins of 10 up to 5000) and for
    pulse integrals (bins of 100 up to 50000) alike, the mean of the
    histogram is then below 100 and [_pulse_gauss_fit] raises
    [ValueError], before any window is looked for. *)
Theorem low_first_detector_is_refused
  {collaborators : Collaborators} (pulsecounts : list (det4 Z)) :
  pulsecounts <> [] ->
  (forall r, In r pulsecounts -> d1 r < 100) ->
  _pulse_gauss_fit pulsecounts (arange 0 5000 10)
  = Fail (ValueError "Average pulseintegral is less than 100") /\
  _pulse_gauss_fit pulsecounts (arange 0 50000 100)
  = Fail (ValueError "Average pulseintegral is less than 100").
Proof.
  intros Hne Hlow. destruct pulsecounts as [|first rest]; [contradiction|].
  unfold _pulse_gauss_fit. cbn [det4_list List.length seq].
  split.
  - apply (low_average_fails _ _ _ _ 95); [exact Hlow | | lia].
    vm_compute. reflexivity.
  - apply (low_average_fails _ _ _ _ 50); [exact Hlow | | lia].
    vm_compute. reflexivity.
Qed.

Lemma low_first_detector_is_refused_witness :
  @_pulse_gauss_fit sample_collaborators (map pulseheights weak_events)
    (arange 0 5000 10)
  = Fail (ValueError "Average pulseintegral is less than 100") /\
  @_pulse_gauss_fit sample_collaborators (map pulseheights weak_events)
    (arange 0 50000 100)
  = Fail (ValueError "Average pulseintegral is less than 100").
Proof.
  apply (@low_first_detector_is_refused sample_collaborators
           (map pulseheights weak_events)).
  - discriminate.
  - intros r Hr. vm_compute in Hr.
    repeat (destruct Hr as [<-|Hr]; [reflexivity|]). destruct Hr.
Defined.

(* ================================================================== *)
(** ** The loop over the events *)

Section DecoderCalls.

Context {collaborators : Collaborators}.

Lemma with_decoded_same s : with_decoded (decoded s) s = s.
Proof. destruct s; reflexivity. Qed.

Lemma with_decoded_twice l l' s :
  with_decoded l (with_decoded l' s) = with_decoded l s.
Proof. reflexivity. Qed.

Lemma decoded_with_decoded l s : decoded (with_decoded l s) = l.
Proof. reflexivity. Qed.

Lemma slot_time_log bl pulseheight trace_idx s t s' :
  slot_time bl pulseheight trace_idx s = Ok t s' ->
  s' = with_decoded
         ((if pulseheight <? ADC_THRESHOLD then [] else [trace_idx])
          ++ decoded s) s.
Proof.
  intros Hrun.
  destruct (proj1 (reader_slot_time bl pulseheight trace_idx) s) as [log Hlog].
  rewrite Hrun in Hlog. cbn [final] in Hlog. rewrite Hlog. f_equal.
  assert (Hd : decoded s' = log) by (rewrite Hlog; reflexivity).
  rewrite <- Hd.
  destruct (Z.ltb_spec pulseheight ADC_THRESHOLD) as [Hlt|Hge].
  - unfold slot_time in Hrun.
    destruct (Z.ltb_spec pulseheight ADC_THRESHOLD); [|lia].
    injection Hrun as _ <-. reflexivity.
  - pose proof (slot_time_decodes bl pulseheight trace_idx s Hge) as Hdec.
    rewrite Hrun in Hdec. exact Hdec.
Qed.

Lemma decoded_slots_eq ev :
  decoded_slots ev
  = (if d1 (pulseheights ev) <? ADC_THRESHOLD then [] else [d1 (traces ev)])
    ++ (if d2 (pulseheights ev) <? ADC_THRESHOLD then [] else [d2 (traces ev)])
    ++ (if d3 (pulseheights ev) <? ADC_THRESHOLD then [] else [d3 (traces ev)])
    ++ (if d4 (pulseheights ev) <? ADC_THRESHOLD then [] else [d4 (traces ev)]).
Proof.
  unfold decoded_slots. cbn [det4_list combine filter fst].
  destruct (d1 (pulseheights ev) <? ADC_THRESHOLD),
           (d2 (pulseheights ev) <? ADC_THRESHOLD),
           (d3 (pulseheights ev) <? ADC_THRESHOLD),
           (d4 (pulseheights ev) <? ADC_THRESHOLD); reflexivity.
Qed.

Lemma reconstruct_log ev s t s' :
  _reconstruct_time_from_traces ev s = Ok t s' ->
  s' = with_decoded (rev (decoded_slots ev) ++ decoded s) s.
Proof.
  unfold _reconstruct_time_from_traces. intros Hrun.
  unfold bind at 1 in Hrun.
  destruct (slot_time _ _ _ s) as [t1 s1|] eqn:E1; [|discriminate].
  apply slot_time_log in E1. unfold bind at 1 in Hrun.
  destruct (slot_time _ _ _ s1) as [t2 s2|] eqn:E2; [|discriminate].
  apply slot_time_log in E2. unfold bind at 1 in Hrun.
  destruct (slot_time _ _ _ s2) as [t3 s3|] eqn:E3; [|discriminate].
  apply slot_time_log in E3. unfold bind at 1 in Hrun.
  destruct (slot_time _ _ _ s3) as [t4 s4|] eqn:E4; [|discriminate].
  apply slot_time_log in E4. injection Hrun as _ <-.
  subst s4 s3 s2 s1.
  rewrite !decoded_with_decoded, !with_decoded_twice. f_equal.
  rewrite decoded_slots_eq, !rev_app_distr, <- !app_assoc.
  destruct (d1 (pulseheights ev) <? ADC_THRESHOLD),
           (d2 (pulseheights ev) <? ADC_THRESHOLD),
           (d3 (pulseheights ev) <? ADC_THRESHOLD),
           (d4 (pulseheights ev) <? ADC_THRESHOLD); reflexivity.
Qed.

Lemma reconstruct_loop_log events : forall s ts s',
  for_each _reconstruct_time_from_traces events s = Ok ts s' ->
  s' = with_decoded (rev (flat_map decoded_slots events) ++ decoded s) s /\
  List.length ts = List.length events.
Proof.
  induction events as [|ev rest IH]; intros s ts s' Hrun.
  - injection Hrun as <- <-. split; [|reflexivity].
    symmetry. apply with_decoded_same.
  - cbn [for_each] in Hrun. unfold bind at 1 in Hrun.
    destruct (_reconstruct_time_from_traces ev s) as [t s1|] eqn:E1;
      [|discriminate].
    apply reconstruct_log in E1. unfold bind at 1 in Hrun.
    destruct (for_each _ rest s1) as [ts' s2|] eqn:E2; [|discriminate].
    apply IH in E2 as [-> Hlen]. injection Hrun as <- <-.
    subst s1. rewrite decoded_with_decoded, with_decoded_twice.
    cbn [flat_map List.length].
    split; [|rewrite Hlen; reflexivity].
    f_equal. rewrite rev_app_distr, <- app_assoc. reflexivity.
Qed.

End DecoderCalls.

(** X6: when the loop over the events ends normally, the decoder has been
    called once for every detector slot whose pulse height is at least the
    threshold of 20, with the trace index of that slot, in the order of the
    events and of the detectors, and for no other slot; nothing else of
    the object or the file has changed, and there is one row of timings
    for every event. *)
Theorem decoder_is_called_for_slots_with_a_pulse
  {collaborators : Collaborators} (events : list event) (s s' : state)
  (timings : list (det4 pyfloat)) :
  _process_traces_from_event_list events s = Ok timings s' ->
  s' = with_decoded (rev (flat_map decoded_slots events) ++ decoded s) s /\
  List.length timings = List.length events.
Proof.
  unfold _process_traces_from_event_list, bind. intros Hrun.
  destruct (for_each _reconstruct_time_from_traces events s)
    as [result s1|] eqn:Eloop; [|discriminate].
  injection Hrun as <- <-.
  destruct (reconstruct_loop_log events s result s1 Eloop) as [-> Hlen].
  split; [reflexivity|]. rewrite length_map. exact Hlen.
Qed.

Lemma decoder_is_called_for_slots_with_a_pulse_witness :
  exists timings,
    @_process_traces_from_event_list sample_collaborators
      [sample_event 305 0; traceless_pulse; sample_event 10 1]
      (raw_pipeline ProcessEvents [])
    = Ok timings (with_decoded [-1; 0; 0; 0; 0] (raw_pipeline ProcessEvents []))
    /\ List.length timings = 3%nat.
Proof.
  destruct (@_process_traces_from_event_list sample_collaborators
              [sample_event 305 0; traceless_pulse; sample_event 10 1]
              (raw_pipeline ProcessEvents [])) as [timings s'|e s'] eqn:Erun.
  - destruct (@decoder_is_called_for_slots_with_a_pulse sample_collaborators
                _ _ _ _ Erun) as [Hs Hlen].
    exists timings. split; [rewrite Hs; reflexivity | exact Hlen].
  - exfalso. vm_compute in Erun. discriminate.
Defined.

Section Timings.

Context {collaborators : Collaborators}.




End Timings.



(* ================================================================== *)
(** ** What a run leaves in the group *)

Section MoveFails.

Context {collaborators : Collaborators}.

Variable s1 : state.
Variable h : nat.
Variable rows : list row.
Variable log : list Z.
Variable c : child.
Variable d : string.

Hypothesis Hfresh : Forall (fun c => (ident c < h)%nat) (group s1).
Hypothesis Hnodup : NoDup (map ident (group s1)).
Hypothesis Hsource : find_ident (self_source s1) (group s1) = Some c.
Hypothesis Hdest : self_destination s1 = Some d.

(** The publishing step fails before it has changed the group, or, for
    the destination [_t_events], once it has removed the staging table. *)
Lemma move_staged_raise e s3 :
  _move_results_table_into_destination (staged s1 h rows log) = Raise e s3 ->
  s3 = staged s1 h rows log \/
  (d = "_t_events"%string /\
   group s3
   = without_name d
       (published_source c (without_name "_t_events" (group s1)))).
Proof.
  set (G0 := without_name "_t_events" (group s1)).
  set (tmp := Child "_t_events" h (Table (ProcessedTable rows))).
  unfold _move_results_table_into_destination.
  unfold bind at 1. unfold get at 1. cbv beta iota.
  unfold bind at 1. rewrite deref_eq.
  cbn [group self_source staged].
  rewrite (find_source_staged s1 h rows c Hfresh Hnodup Hsource).
  fold G0. fold tmp.
  destruct (String.eqb_spec (name c) "_t_events") as [Hn|Hn].
  { intros [= _ <-]. left. reflexivity. }
  cbv beta iota.
  set (s2 := State (G0 ++ [tmp]) (S h) log (cls s1) (self_indexes s1)
               (self_source s1) (self_limit s1) (self_destination s1) (Some h)).
  change (staged s1 h rows log) with s2.
  assert (Hsrc2 : find_ident (self_source s1) (group s2) = Some c).
  { cbn [group s2]. unfold G0, tmp.
    rewrite (find_source_staged s1 h rows c Hfresh Hnodup Hsource).
    destruct (String.eqb_spec (name c) "_t_events"); [contradiction|reflexivity]. }
  assert (Hfresh0 : Forall (fun c => (ident c < h)%nat) G0)
    by (apply Forall_without, Hfresh).
  assert (Hid : ident c = self_source s1)
    by (apply (find_ident_some _ _ _ Hsource)).
  assert (Hnot : self_source s1 <> h)
    by (apply (source_not_tmp s1 h c Hfresh Hsource)).
  assert (Hstep :
    match (if String.eqb (name c) "events"
           then bind (rename (self_source s1) "_events")
                  (fun _ => bind (getNode "_events")
                              (fun h0 => modify (with_source h0)))
           else ret tt) s2 with
    | Ok _ s2a => s2a = with_group (published_source c G0 ++ [tmp]) s2
    | Raise _ s2a => s2a = s2
    end).
  { unfold published_source.
    destruct (String.eqb_spec (name c) "events") as [He|He].
    - assert (Hne : name c <> "_events"%string) by (rewrite He; discriminate).
      destruct (in_group "_events" (group s2)) eqn:Hin.
      + rewrite (bind_raise _ _ _ _ _
                   (rename_taken _ _ s2 c Hsrc2 Hne Hin)). reflexivity.
      + rewrite (bind_ok _ _ _ _ _
                   (rename_run _ _ s2 c Hsrc2 Hne Hin)).
        assert (Hin0 : in_group "_events" G0 = false).
        { apply in_group_false in Hin. apply in_group_false.
          cbn [group s2] in Hin. unfold find_name in *.
          rewrite find_app_last in Hin.
          destruct (find _ G0); [discriminate | reflexivity]. }
        assert (Hsrc0 : find_ident (self_source s1) G0 = Some c)
          by (apply find_ident_without; assumption).
        destruct (find_name_rename_child _ "_events" G0 c Hsrc0
                    (proj1 (in_group_false _ _) Hin0)) as [c' [Hc' Hic']].
        assert (Hren : rename_child (self_source s1) "_events" (G0 ++ [tmp])
                       = rename_child (self_source s1) "_events" G0 ++ [tmp]).
        { unfold rename_child. rewrite map_app. simpl.
          destruct (Nat.eqb_spec h (self_source s1)); [|reflexivity].
          exfalso. apply Hnot. congruence. }
        cbn [group s2]. rewrite Hren.
        assert (Hget : find_name "_events"
                  (group (with_group
                     (rename_child (self_source s1) "_events" G0 ++ [tmp]) s2))
                = Some c').
        { cbn [group with_group]. unfold find_name. rewrite find_app_last.
          unfold find_name in Hc'. rewrite Hc'. reflexivity. }
        rewrite (bind_ok _ _ _ _ _ (getNode_run _ _ _ Hget)).
        rewrite Hic'. unfold modify. rewrite Hid. reflexivity.
    - reflexivity. }
  unfold bind at 1.
  match goal with
  | |- context [match ?o with Ok _ _ => _ | Raise _ _ => _ end] =>
      destruct o as [[] s2a|e2 s2a]
  end.
  2:{ intros [= _ <-]. left. exact Hstep. }
  subst s2a.
  cbn [self_destination s2]. rewrite Hdest. unfold attribute.
  unfold bind at 1. unfold ret at 1. unfold bind at 1. unfold get at 1.
  cbv beta iota. unfold bind at 1. rewrite remove_if_present.
  cbn [self_tmp_events with_group s2]. unfold bind at 1. unfold ret at 1.
  cbn [group with_group].
  set (G1 := published_source c G0).
  assert (Hfresh1 : Forall (fun c => (ident c < h)%nat) G1).
  { unfold G1, published_source. destruct (String.eqb (name c) "events");
      [apply (Forall_rename_child (fun i => (i < h)%nat)) | ]; exact Hfresh0. }
  rewrite without_name_app.
  destruct (String.eqb_spec d "_t_events") as [Hd|Hd].
  - intros Hrun. right. split; [exact Hd|]. revert Hrun.
    rewrite rename_closed.
    + intros [= _ <-]. cbn [group with_group].
      subst d. unfold without_name at 2. simpl. apply app_nil_r.
    + cbn [group with_group]. subst d. unfold without_name at 2. simpl.
      rewrite app_nil_r. apply find_ident_fresh, Forall_without, Hfresh1.
  - assert (Hneq : String.eqb "_t_events" d = false)
      by (apply String.eqb_neq; congruence).
    assert (Htmp : without_name d [tmp] = [tmp]).
    { unfold without_name, tmp. cbn [filter name]. rewrite Hneq. reflexivity. }
    rewrite Htmp.
    rewrite (rename_run h d _ tmp); [discriminate| | |].
    + cbn [group with_group]. unfold find_ident. rewrite find_app_last.
      fold (find_ident h (without_name d G1)).
      rewrite find_ident_fresh by (apply Forall_without, Hfresh1).
      unfold tmp. cbn [ident]. rewrite Nat.eqb_refl. reflexivity.
    + unfold tmp. cbn [name]. congruence.
    + cbn [group with_group]. apply in_group_false. unfold find_name.
      rewrite find_app_last. fold (find_name d (without_name d G1)).
      rewrite find_name_without_same. unfold tmp. cbn [name].
      rewrite Hneq. reflexivity.
Qed.

End MoveFails.

Section Frame.

Context {collaborators : Collaborators}.

Lemma find_name_rename_other h new nm g c :
  NoDup (map ident g) -> find_ident h g = Some c ->
  name c <> nm -> new <> nm ->
  find_name nm (rename_child h new g) = find_name nm g.
Proof.
  intros Hnd Hc Hname Hnew.
  assert (Hall : forall a, In a g -> ident a = h -> name a <> nm).
  { intros a Ha Hid. subst h.
    rewrite (find_ident_in g a Hnd Ha) in Hc. injection Hc as <-.
    exact Hname. }
  clear Hc Hnd. unfold find_name, rename_child.
  induction g as [|a r IH]; [reflexivity|].
  cbn [map find].
  assert (IH' := IH (fun x Hx => Hall x (or_intror Hx))).
  destruct (Nat.eqb_spec (ident a) h) as [Ha|Ha].
  - cbn [name]. apply String.eqb_neq in Hnew. rewrite Hnew.
    specialize (Hall a (or_introl eq_refl) Ha).
    apply String.eqb_neq in Hall. rewrite Hall. exact IH'.
  - destruct (String.eqb (name a) nm); [reflexivity | exact IH'].
Qed.

Lemma find_name_published_source nm g c :
  NoDup (map ident g) -> find_ident (ident c) g = Some c ->
  (name c = "events"%string ->
   nm <> "events"%string /\ nm <> "_events"%string) ->
  find_name nm (published_source c g) = find_name nm g.
Proof.
  intros Hnd Hc Hnm. unfold published_source.
  destruct (String.eqb_spec (name c) "events") as [He|He]; [|reflexivity].
  destruct (Hnm He) as [Hev Hun].
  apply (find_name_rename_other _ _ _ _ c Hnd Hc); congruence.
Qed.

Lemma find_name_last_other nm g a :
  name a <> nm -> find_name nm (g ++ [a]) = find_name nm g.
Proof.
  intros Ha. unfold find_name. rewrite find_app_last.
  destruct (find _ g); [reflexivity|].
  apply String.eqb_neq in Ha. rewrite Ha. reflexivity.
Qed.

Lemma find_name_published_staged nm g c :
  NoDup (map ident g) -> find_ident (ident c) g = Some c ->
  nm <> "_t_events"%string ->
  (name c = "events"%string ->
   nm <> "events"%string /\ nm <> "_events"%string) ->
  find_name nm (published_source c (without_name "_t_events" g))
  = find_name nm g.
Proof.
  intros Hnd Hc Ht Hnm.
  destruct (String.eqb_spec (name c) "_t_events") as [Hn|Hn].
  - unfold published_source. rewrite Hn. cbn [String.eqb Ascii.eqb Bool.eqb].
    apply find_name_without, Ht.
  - rewrite find_name_published_source.
    + apply find_name_without, Ht.
    + apply NoDup_ident_without, Hnd.
    + apply find_ident_without; assumption.
    + exact Hnm.
Qed.

End Frame.

(** X8: whatever its outcome, a run of [process_and_store_results] leaves
    every child of the group as it was, apart from those that go by the
    destination name or by [_t_events] and, when the source is called
    [events], those that go by [events] or [_events]; the [blobs] array,
    for one, is never changed unless it is named as the destination. *)
Theorem run_leaves_other_children_alone
  {collaborators : Collaborators} (destination : option string)
  (overwrite : bool) (limit : option nat) (s : state) (src : child)
  (nm : string) :
  wf s ->
  find_ident (self_source s) (group s) = Some src ->
  nm <> destination_name destination ->
  nm <> "_t_events"%string ->
  (name src = "events"%string ->
   nm <> "events"%string /\ nm <> "_events"%string) ->
  find_name nm
    (group (final (process_and_store_results destination overwrite limit s)))
  = find_name nm (group s).
Proof.
  intros Hwf Hsrc Hd Ht Hev.
  pose proof Hwf as [_ [Hids Hfresh]].
  set (d := destination_name destination) in *.
  set (s1 := with_destination (Some d) (with_limit limit s)).
  pose proof (before_publish_cases destination overwrite limit s Hfresh)
    as Hcases.
  rewrite process_and_store_results_steps. unfold bind.
  assert (Hsrc1 : find_ident (self_source s1) (group s1) = Some src)
    by exact Hsrc.
  assert (Hid : find_ident (ident src) (group s) = Some src).
  { destruct (find_ident_some _ _ _ Hsrc) as [Hid _]. rewrite Hid.
    exact Hsrc. }
  destruct (before_publish destination overwrite limit s) as [[] s2|e s2].
  - destruct Hcases as [[rows [log ->]] _]. fold d. fold s1.
    destruct (_move_results_table_into_destination
                (staged s1 (fresh s) rows log)) as [[] s3|e s3] eqn:Emove;
      cbn [final].
    + destruct (move_staged s1 (fresh s) rows log src d Hfresh Hids Hsrc1
                  eq_refl s3 Emove) as [_ [_ [_ ->]]].
      cbn [group with_group]. unfold published.
      rewrite find_name_last_other by (cbn [name]; congruence).
      rewrite find_name_without by exact Hd.
      apply find_name_published_staged; assumption.
    + destruct (move_staged_raise s1 (fresh s) rows log src d Hfresh Hids
                  Hsrc1 eq_refl e s3 Emove) as [->|[_ ->]].
      * rewrite find_name_staged by exact Ht. reflexivity.
      * rewrite find_name_without by exact Hd.
        apply find_name_published_staged; assumption.
  - cbn [final].
    destruct Hcases as [->|[->|[rows [log ->]]]];
      [reflexivity | reflexivity |].
    rewrite find_name_staged by exact Ht. reflexivity.
Qed.

Lemma run_leaves_other_children_alone_witness :
  find_name "blobs"
    (group (final (@process_and_store_results sample_collaborators None false
                     None (raw_pipeline ProcessEvents []))))
  = find_name "blobs" (group (raw_pipeline ProcessEvents [])) /\
  find_name "blobs"
    (group (final (@process_and_store_results sample_collaborators None false
                     None leftover_pipeline)))
  = find_name "blobs" (group leftover_pipeline).
Proof.
  split.
  - apply (@run_leaves_other_children_alone sample_collaborators None false
             None (raw_pipeline ProcessEvents [])
             (Child "events" 0 (Table (EventsTable ten_events)))).
    + apply wf_raw_pipeline.
    + reflexivity.
    + discriminate.
    + discriminate.
    + intros _. split; discriminate.
  - apply (@run_leaves_other_children_alone sample_collaborators None false
             None leftover_pipeline
             (Child "events" 0 (Table (EventsTable weak_events)))).
    + apply wf_leftover_pipeline.
    + reflexivity.
    + discriminate.
    + discriminate.
    + intros _. split; discriminate.
Defined.

Section Steps.

Context {collaborators : Collaborators}.

(** The steps of a run of any class up to the publishing one, when they
    end normally. *)
Lemma before_publish_steps destination overwrite limit s c s' :
  wf s ->
  find_ident (self_source s) (group s) = Some c ->
  name c <> "_t_events"%string ->
  before_publish destination overwrite limit s = Ok tt s' ->
  let s1 := with_destination (Some (destination_name destination))
              (with_limit limit s) in
  exists tb len rows1 log np,
    content c = Table tb /\
    staging_length s1 = Some len /\
    List.length (slice_to limit (repeat fresh_row len))
    = List.length (slice_to limit (table_events tb)) /\
    _store_results_from_traces
      (staged s1 (fresh s) (copied_rows tb limit (repeat fresh_row len))
         (decoded s))
    = Ok tt (staged s1 (fresh s) rows1 log) /\
    particle_counts tb limit = Done np /\
    List.length rows1 = List.length np /\
    s' = staged s1 (fresh s) (write_columns set_n rows1 np) log.
Proof.
  intros [Hnames [Hids Hfresh]] Hc Hname Hrun s1.
  unfold before_publish in Hrun.
  unfold bind at 1 in Hrun. unfold modify at 1 in Hrun.
  unfold bind at 1 in Hrun.
  pose proof (check_destination_cases destination overwrite
                (with_limit limit s)) as Hcheck.
  destruct (_check_destination destination overwrite (with_limit limit s))
    as [[] s0|e s0]; [|discriminate].
  destruct Hcheck as [-> _]. fold s1 in Hrun.
  assert (Hcreate : _create_results_table s1
            = bind (bind _create_empty_results_table
                      (fun table => modify (with_tmp_events (Some table))))
                   (fun _ => _copy_events_into_table) s1).
  { unfold _create_results_table. rewrite bind_assoc. reflexivity. }
  unfold bind at 1 in Hrun. rewrite Hcreate in Hrun.
  unfold bind at 1 in Hrun.
  rewrite (create_empty_results_table_run s1 Hfresh) in Hrun.
  destruct (staging_length s1) as [len|] eqn:Elen; [|discriminate].
  change (fresh s1) with (fresh s) in Hrun.
  change (decoded s1) with (decoded s) in Hrun.
  assert (Hc1 : find_ident (self_source s1) (group s1) = Some c) by exact Hc.
  assert (Hfresh1 : Forall (fun c => (ident c < fresh s)%nat) (group s1))
    by exact Hfresh.
  assert (Hids1 : NoDup (map ident (group s1))) by exact Hids.
  destruct (_copy_events_into_table _) as [[] s2|e s2] eqn:Ecopy;
    [|discriminate].
  destruct (copy_events_needs_table s1 (fresh s) c Hfresh1 Hids1 Hc1 Hname
              _ _ _ Ecopy) as [tb Htb].
  rewrite (copy_events_staged s1 (fresh s) c tb Hfresh1 Hids1 Hc1 Hname Htb)
    in Ecopy.
  change (self_limit s1) with limit in Ecopy.
  destruct (Nat.eqb _ _) eqn:Eshape in Ecopy; [|discriminate].
  apply Nat.eqb_eq in Eshape.
  injection Ecopy as <-.
  pose proof (keeps_store_results s1 (fresh s) Hfresh1
                (staged s1 (fresh s)
                   (copied_rows tb limit (repeat fresh_row len)) (decoded s)))
    as Hstore.
  unfold bind at 1 in Hrun.
  destruct (_store_results_from_traces _) as [[] s3|e s3] eqn:Estore;
    [|discriminate].
  destruct Hstore as [rows1 [log ->]];
    [eexists; eexists; reflexivity|].
  destruct (store_particles_staged s1 (fresh s) c Hfresh1 Hids1 Hc1 Hname tb
              Htb _ _ _ Hrun) as [np [Hnp [Hlen ->]]].
  exists tb, len, rows1, log, np. repeat split; auto.
Qed.

End Steps.

Section EventColumns.

Context {collaborators : Collaborators}.

Lemma map_zip_with_keep {A B C} (f : A -> C) (g : A -> B -> A)
  (l : list A) : forall m : list B,
  (forall a b, f (g a b) = f a) ->
  (List.length l <= List.length m)%nat ->
  map f (zip_with g l m) = map f l.
Proof.
  induction l as [|a r IH]; intros [|b m] Hg Hlen; simpl in *;
    try reflexivity; try lia.
  rewrite Hg, IH by (auto; lia). reflexivity.
Qed.

Lemma map_write_columns {C} (f : row -> C) set rows values :
  (forall idx r v, f (set idx r v) = f r) ->
  List.length rows = List.length values ->
  map f (write_columns set rows values) = map f rows.
Proof.
  intros Hset Hlen. unfold write_columns. cbn [seq fold_left].
  pose proof (length_zip_column set 0 rows values Hlen) as L0.
  pose proof (length_zip_column set 1 _ values L0) as L1.
  pose proof (length_zip_column set 2 _ values L1) as L2.
  rewrite !map_zip_with_keep; try reflexivity;
    try (intros a b; apply Hset); rewrite length_map; lia.
Qed.

Lemma map_set_nth_keep {A C} (f : A -> C) (l : list A) : forall i a v,
  nth_error l i = Some a -> f v = f a -> map f (set_nth l i v) = map f l.
Proof.
  induction l as [|x r IH]; intros [|i] a v Ha Hv; simpl in *;
    try discriminate.
  - injection Ha as ->. rewrite Hv. reflexivity.
  - rewrite (IH i a v Ha Hv). reflexivity.
Qed.

Lemma map_updated_rows {C} (f : row -> C) pairs :
  (forall r t, f (Row (row_event r) t (row_n r)) = f r) ->
  forall rows, map f (updated_rows rows pairs) = map f rows.
Proof.
  intros Hf. unfold updated_rows.
  induction pairs as [|p rest IH]; intros rows; [reflexivity|].
  simpl. rewrite IH. unfold updated_row.
  destruct (nth_error rows (fst p)) as [ev|] eqn:Eev; [|reflexivity].
  apply (map_set_nth_keep f rows (fst p) ev); [exact Eev | apply Hf].
Qed.

Variable s1 : state.
Variable h : nat.
Variable c : child.
Variable tb : table.

Hypothesis Hfresh : Forall (fun c => (ident c < h)%nat) (group s1).
Hypothesis Hnodup : NoDup (map ident (group s1)).
Hypothesis Hsource : find_ident (self_source s1) (group s1) = Some c.
Hypothesis Hname : name c <> "_t_events"%string.
Hypothesis Hcontent : content c = Table tb.

(** Storing the times changes neither the event columns nor the particle
    counts of a row; a class without traces stores nothing. *)
Lemma store_results_keeps_columns rows log rows1 log1 :
  _store_results_from_traces (staged s1 h rows log)
  = Ok tt (staged s1 h rows1 log1) ->
  map row_event rows1 = map row_event rows /\
  map row_n rows1 = map row_n rows /\
  (without_traces (cls s1) = true -> rows1 = rows /\ log1 = log).
Proof.
  intros Hrun.
  destruct (without_traces (cls s1)) eqn:Htraces.
  - unfold _store_results_from_traces in Hrun.
    unfold bind, get in Hrun. cbn [cls staged] in Hrun.
    rewrite Htraces in Hrun. unfold ret in Hrun.
    injection Hrun as Hg Hl. apply app_inj_tail in Hg as [_ Hc].
    assert (rows1 = rows) by congruence. subst rows1.
    repeat split; auto.
  - destruct (is_indexed (cls s1)) eqn:Hidx.
    + destruct (store_results_indexed_staged s1 h c Hfresh Hnodup Hsource
                  Hname tb Hcontent Htraces _ _ _ Hidx Hrun)
        as [events [result [log' [_ [_ [_ Heq]]]]]].
      apply staged_rows in Heq. subst rows1.
      split; [|split; [|discriminate]]; apply map_updated_rows; reflexivity.
    + destruct (store_results_all_staged s1 h c Hfresh Hnodup Hsource
                  Hname tb Hcontent Htraces _ _ _ Hidx Hrun)
        as [result [log' [_ [Hlen Heq]]]].
      apply staged_rows in Heq. subst rows1.
      split; [|split; [|discriminate]];
        (apply map_write_columns; [reflexivity | rewrite length_map; exact Hlen]).
Qed.

End EventColumns.

Section Copied.

Lemma map_row_event_copy tb head :
  (List.length head <= List.length (table_events tb))%nat ->
  map row_event (copy_columns tb head)
  = firstn (List.length head) (table_events tb).
Proof.
  destruct tb as [evs|prs]; cbn [copy_columns table_events].
  - revert evs. induction head as [|r head IH]; intros [|e evs] Hlen;
      simpl in *; try reflexivity; try lia.
    rewrite IH by lia. reflexivity.
  - revert prs. induction head as [|r head IH]; intros [|p prs] Hlen;
      simpl in *; try reflexivity; try lia.
    rewrite IH by lia. reflexivity.
Qed.

Lemma slice_to_firstn_length {A B} (limit : option nat) (rows : list A)
  (events : list B) :
  List.length (slice_to limit rows) = List.length (slice_to limit events) ->
  firstn (List.length (slice_to limit rows)) events = slice_to limit events.
Proof.
  destruct limit as [k|]; cbn [slice_to]; intros Hlen.
  - rewrite Hlen, length_firstn, <- firstn_firstn, firstn_all. reflexivity.
  - rewrite Hlen. apply firstn_all.
Qed.

End Copied.

Section Results.

Context {collaborators : Collaborators}.

Lemma copied_rows_events tb limit len np :
  staging_length_of limit (List.length (table_events tb)) = len ->
  List.length (slice_to limit (repeat fresh_row len))
  = List.length (slice_to limit (table_events tb)) ->
  particle_counts tb limit = Done np ->
  map row_event (copied_rows tb limit (repeat fresh_row len))
  = slice_to limit (table_events tb).
Proof.
  intros Hlen Hshape Hnp. unfold copied_rows. rewrite map_app.
  rewrite map_row_event_copy by (rewrite Hshape; apply length_slice_to).
  rewrite (slice_to_firstn_length limit _ _ Hshape).
  assert (Hrest : skipn (List.length (slice_to limit (repeat fresh_row len)))
                    (repeat fresh_row len) = []).
  { destruct limit as [[|k]|]; cbn [slice_to staging_length_of] in *.
    - exfalso. unfold particle_counts in Hnp. cbn [slice_to firstn] in Hnp.
      discriminate Hnp.
    - subst len. rewrite firstn_all2 by (rewrite repeat_length; lia).
      apply skipn_all.
    - apply skipn_all. }
  rewrite Hrest. apply app_nil_r.
Qed.

Lemma in_group_published_staging c d h rows g :
  NoDup (map ident g) -> find_ident (ident c) g = Some c ->
  d <> "_t_events"%string ->
  in_group "_t_events" (published c d h rows g) = false.
Proof.
  intros Hnd Hc Hd. apply in_group_false. unfold published.
  rewrite find_name_last_other by (cbn [name]; exact Hd).
  rewrite find_name_without by congruence.
  destruct (String.eqb_spec (name c) "_t_events") as [Hn|Hn].
  - unfold published_source. rewrite Hn. cbn [String.eqb Ascii.eqb Bool.eqb].
    apply find_name_without_same.
  - rewrite find_name_published_source.
    + apply find_name_without_same.
    + apply NoDup_ident_without, Hnd.
    + apply find_ident_without; assumption.
    + intros He. split; discriminate.
Qed.

End Results.

(** X9: after a run that ends normally exactly one child of the group has
    the destination name: a node made by the run, holding a processed
    table whose event columns are the events of the source, in order, or
    the first [limit] of them; the staging table [_t_events] is gone. *)
Theorem results_hold_the_source_events
  {collaborators : Collaborators} (destination : option string)
  (overwrite : bool) (limit : option nat) (s s' : state) :
  wf s ->
  process_and_store_results destination overwrite limit s = Ok tt s' ->
  let d := destination_name destination in
  exists src tb rows,
    find_ident (self_source s) (group s) = Some src /\
    content src = Table tb /\
    find_name d (group s')
    = Some (Child d (fresh s) (Table (ProcessedTable rows))) /\
    List.length (filter (fun c => String.eqb (name c) d) (group s')) = 1%nat /\
    map row_event rows = slice_to limit (table_events tb) /\
    in_group "_t_events" (group s') = false.
Proof.
  intros Hwf Hrun d.
  destruct (run_ok destination overwrite limit s s' Hwf Hrun)
    as [c [rows [log [Hc [Hn [Hdt [_ [_ [_ [Hbefore ->]]]]]]]]]].
  fold d in Hbefore, Hdt |- *.
  destruct (before_publish_steps destination overwrite limit s c _ Hwf Hc Hn
              Hbefore)
    as [tb [len [rows1 [log1 [np [Htb [Hlen [Hshape [Hstore [Hnp [Hl1 Heq]]]]]]]]]]].
  fold d in Hlen, Hstore, Heq.
  pose proof Hwf as [_ [Hids Hfresh]].
  set (s1 := with_destination (Some d) (with_limit limit s)) in *.
  assert (Hc1 : find_ident (self_source s1) (group s1) = Some c) by exact Hc.
  destruct (store_results_keeps_columns s1 (fresh s) c tb Hfresh Hids Hc1 Hn
              Htb _ _ _ _ Hstore) as [Hev _].
  pose proof (staged_rows _ _ _ _ _ _ Heq) as Hrows.
  assert (Hid : find_ident (ident c) (group s) = Some c).
  { destruct (find_ident_some _ _ _ Hc) as [Hid _]. rewrite Hid. exact Hc. }
  exists c, tb, rows. split; [exact Hc|]. split; [exact Htb|].
  cbn [group with_group].
  split; [apply find_name_published|].
  split; [apply published_destination_once|].
  split.
  - rewrite Hrows, map_write_columns by (reflexivity || exact Hl1).
    rewrite Hev. apply (copied_rows_events tb limit len np); auto.
    unfold staging_length in Hlen.
    change (self_limit s1) with limit in Hlen.
    change (find_ident (self_source s1) (group s1))
      with (find_ident (self_source s) (group s)) in Hlen.
    rewrite Hc in Hlen. cbn [option_map] in Hlen. rewrite Htb in Hlen.
    cbn [node_len] in Hlen.
    unfold staging_length_of. destruct limit as [[|k]|]; congruence.
  - apply in_group_published_staging; assumption.
Qed.

Lemma results_hold_the_source_events_witness :
  let run :=
    @process_and_store_results sample_collaborators None false None
      (raw_pipeline ProcessEvents []) in
  exists src tb rows,
    find_ident 0%nat raw_group = Some src /\
    content src = Table tb /\
    find_name "events" (group (final run))
    = Some (Child "events" 2 (Table (ProcessedTable rows))) /\
    List.length
      (filter (fun c => String.eqb (name c) "events") (group (final run)))
    = 1%nat /\
    map row_event rows = table_events tb /\
    in_group "_t_events" (group (final run)) = false.
Proof.
  cbv zeta.
  apply (@results_hold_the_source_events sample_collaborators None false None
           (raw_pipeline ProcessEvents [])).
  - apply wf_raw_pipeline.
  - vm_compute. reflexivity.
Defined.

(** X10: what a run that ends normally does to its source.  A source
    called [events] is kept, with its content, under the name [_events],
    whatever the destination.  A source of another name that is also the
    destination is removed from the group; and a source of another name
    that is not the destination stays as it was. *)
Theorem source_after_a_run
  {collaborators : Collaborators} (destination : option string)
  (overwrite : bool) (limit : option nat) (s s' : state) (src : child) :
  wf s ->
  find_ident (self_source s) (group s) = Some src ->
  process_and_store_results destination overwrite limit s = Ok tt s' ->
  let d := destination_name destination in
  let after := find_ident (self_source s) (group s') in
  (name src = "events"%string ->
   after = Some (Child "_events" (self_source s) (content src))) /\
  (name src <> "events"%string -> name src = d -> after = None) /\
  (name src <> "events"%string -> name src <> d -> after = Some src).
Proof.
  intros Hwf Hsrc Hrun d after.
  destruct (run_ok destination overwrite limit s s' Hwf Hrun)
    as [c [rows [log [Hc [Hn [_ [Hde [_ [_ [_ Hs']]]]]]]]]].
  rewrite Hsrc in Hc. injection Hc as <-.
  destruct Hwf as [_ [Hids Hfresh]].
  pose proof (find_ident_some _ _ _ Hsrc) as [Hid _].
  assert (Hafter : after
            = if String.eqb (name src) "events"
              then Some (Child "_events" (ident src) (content src))
              else if String.eqb (name src) d then None else Some src).
  { unfold after. rewrite Hs'. cbn [group with_group].
    rewrite <- Hid in Hsrc |- *.
    apply (find_ident_published (group s) (fresh s) rows src d Hfresh Hids
             Hsrc Hn Hde). }
  rewrite Hafter, Hid. split; [|split].
  - intros He. apply String.eqb_eq in He. rewrite He. reflexivity.
  - intros He Hd. apply String.eqb_neq in He. apply String.eqb_eq in Hd.
    rewrite He, Hd. reflexivity.
  - intros He Hd. apply String.eqb_neq in He. apply String.eqb_neq in Hd.
    rewrite He, Hd. reflexivity.
Qed.

Lemma source_after_a_run_witness :
  find_ident 0%nat
    (group (final (@process_and_store_results sample_collaborators None false
                     None (raw_pipeline ProcessEvents []))))
  = Some (Child "_events" 0 (Table (EventsTable ten_events))) /\
  find_ident 0%nat
    (group (final (@process_and_store_results sample_collaborators
                     (Some "foo"%string) false None foo_pipeline)))
  = None /\
  find_ident 0%nat
    (group (final (@process_and_store_results sample_collaborators
                     (Some "bar"%string) false None foo_pipeline)))
  = Some (Child "foo" 0 (Table (EventsTable ten_events))).
Proof.
  assert (wf foo_pipeline).
  { unfold wf. cbn. repeat split.
    - repeat constructor; cbn; intuition discriminate.
    - repeat constructor; cbn; intuition discriminate.
    - repeat constructor. }
  split; [|split].
  - apply (@source_after_a_run sample_collaborators None false None
             (raw_pipeline ProcessEvents []) _
             (Child "events" 0 (Table (EventsTable ten_events)))).
    + apply wf_raw_pipeline.
    + reflexivity.
    + vm_compute. reflexivity.
    + reflexivity.
  - apply (@source_after_a_run sample_collaborators (Some "foo"%string) false
             None foo_pipeline _
             (Child "foo" 0 (Table (EventsTable ten_events)))).
    + assumption.
    + reflexivity.
    + vm_compute. reflexivity.
    + cbn. discriminate.
    + reflexivity.
  - apply (@source_after_a_run sample_collaborators (Some "bar"%string) false
             None foo_pipeline _
             (Child "foo" 0 (Table (EventsTable ten_events)))).
    + assumption.
    + reflexivity.
    + vm_compute. reflexivity.
    + cbn. discriminate.
    + cbn. discriminate.
Defined.

Section WithoutTraces.

Context {collaborators : Collaborators}.

Lemma copied_tail_empty tb limit len np :
  staging_length_of limit (List.length (table_events tb)) = len ->
  particle_counts tb limit = Done np ->
  skipn (List.length (slice_to limit (repeat fresh_row len)))
    (repeat fresh_row len) = [].
Proof.
  intros Hlen Hnp.
  destruct limit as [[|k]|]; cbn [slice_to staging_length_of] in *.
  - exfalso. unfold particle_counts in Hnp. cbn [slice_to firstn] in Hnp.
    discriminate Hnp.
  - subst len. rewrite firstn_all2 by (rewrite repeat_length; lia).
    apply skipn_all.
  - apply skipn_all.
Qed.

Lemma Forall_zip_with {A B C} (P : C -> Prop) (f : A -> B -> C)
  (l : list A) : forall m : list B,
  (forall a b, In a l -> P (f a b)) -> Forall P (zip_with f l m).
Proof.
  induction l as [|a r IH]; intros [|b m] H; simpl; constructor.
  - apply H. left. reflexivity.
  - apply IH. intros x y Hx. apply H. right. exact Hx.
Qed.

Lemma In_firstn {A} (a : A) : forall k l, In a (firstn k l) -> In a l.
Proof.
  induction k as [|k IH]; intros [|x l] H; simpl in *; try contradiction.
  destruct H as [->|H]; [left; reflexivity | right; apply IH, H].
Qed.

Lemma map_row_t_copy prs head :
  (List.length head <= List.length prs)%nat ->
  map row_t (copy_columns (ProcessedTable prs) head)
  = firstn (List.length head) (map row_t prs).
Proof.
  cbn [copy_columns]. revert prs.
  induction head as [|r head IH]; intros [|p prs] Hlen;
    simpl in *; try reflexivity; try lia.
  rewrite IH by lia. reflexivity.
Qed.

End WithoutTraces.

(** X11: a run of a class without traces that ends normally has decoded
    no trace; the arrival-time columns of its results are those of a newly
    appended row when the source is a table of raw events, and those of
    the source rows when the source is itself a processed table. *)
Theorem without_traces_nothing_is_decoded
  {collaborators : Collaborators} (destination : option string)
  (overwrite : bool) (limit : option nat) (s s' : state) :
  wf s ->
  without_traces (cls s) = true ->
  process_and_store_results destination overwrite limit s = Ok tt s' ->
  let d := destination_name destination in
  decoded s' = decoded s /\
  exists src tb rows,
    find_ident (self_source s) (group s) = Some src /\
    content src = Table tb /\
    find_name d (group s')
    = Some (Child d (fresh s) (Table (ProcessedTable rows))) /\
    (forall events, tb = EventsTable events ->
       Forall (fun r => row_t r = row_t fresh_row) rows) /\
    (forall processed, tb = ProcessedTable processed ->
       map row_t rows = map row_t (slice_to limit processed)).
Proof.
  intros Hwf Hcls Hrun d.
  destruct (run_ok destination overwrite limit s s' Hwf Hrun)
    as [c [rows [log [Hc [Hn [Hdt [_ [_ [_ [Hbefore ->]]]]]]]]]].
  fold d in Hbefore, Hdt |- *.
  destruct (before_publish_steps destination overwrite limit s c _ Hwf Hc Hn
              Hbefore)
    as [tb [len [rows1 [log1 [np [Htb [Hlen [Hshape [Hstore [Hnp [Hl1 Heq]]]]]]]]]]].
  fold d in Hlen, Hstore, Heq.
  pose proof Hwf as [_ [Hids Hfresh]].
  set (s1 := with_destination (Some d) (with_limit limit s)) in *.
  assert (Hc1 : find_ident (self_source s1) (group s1) = Some c) by exact Hc.
  destruct (store_results_keeps_columns s1 (fresh s) c tb Hfresh Hids Hc1 Hn
              Htb _ _ _ _ Hstore) as [_ [_ Hnone]].
  destruct (Hnone Hcls) as [-> ->].
  pose proof (staged_rows _ _ _ _ _ _ Heq) as Hrows.
  assert (Hlog : log = decoded s).
  { unfold staged in Heq. injection Heq as _ Hl. exact Hl. }
  assert (Hsize : staging_length_of limit (List.length (table_events tb))
                  = len).
  { unfold staging_length in Hlen.
    change (self_limit s1) with limit in Hlen.
    change (find_ident (self_source s1) (group s1))
      with (find_ident (self_source s) (group s)) in Hlen.
    rewrite Hc in Hlen. cbn [option_map] in Hlen. rewrite Htb in Hlen.
    cbn [node_len] in Hlen.
    unfold staging_length_of. destruct limit as [[|k]|]; congruence. }
  pose proof (copied_tail_empty tb limit len np Hsize Hnp) as Htail.
  split; [cbn [decoded with_group staged]; exact Hlog|].
  exists c, tb, rows. split; [exact Hc|]. split; [exact Htb|].
  cbn [group with_group]. split; [apply find_name_published|].
  assert (Ht : map row_t rows
               = map row_t (copy_columns tb
                              (slice_to limit (repeat fresh_row len)))).
  { rewrite Hrows, map_write_columns by (reflexivity || exact Hl1).
    unfold copied_rows. rewrite Htail, app_nil_r. reflexivity. }
  split.
  - intros events ->.
    apply (proj1 (Forall_map row_t (fun t => t = row_t fresh_row) rows)).
    rewrite Ht. apply Forall_map. cbn [copy_columns].
    apply Forall_zip_with. intros r e Hr. cbn [row_t].
    assert (Hin : In r (repeat fresh_row len)).
    { destruct limit as [k|]; cbn [slice_to] in Hr;
        [eapply In_firstn, Hr | exact Hr]. }
    apply repeat_spec in Hin. rewrite Hin. reflexivity.
  - intros processed ->. rewrite Ht. cbn [table_events] in Hshape.
    assert (Hhead : List.length (slice_to limit (repeat fresh_row len))
                    = List.length (slice_to limit processed)).
    { rewrite Hshape. destruct limit as [k|]; cbn [slice_to];
        [rewrite !length_firstn, length_map | rewrite length_map];
        reflexivity. }
    rewrite map_row_t_copy by (rewrite Hhead; apply length_slice_to).
    rewrite Hhead. rewrite firstn_map.
    rewrite <- (slice_to_firstn_length limit processed processed eq_refl)
      at 2.
    reflexivity.
Qed.

Lemma without_traces_nothing_is_decoded_witness :
  let run :=
    @process_and_store_results sample_collaborators None false None
      (raw_pipeline ProcessEventsWithoutTraces []) in
  decoded (final run) = [] /\
  exists src tb rows,
    find_ident 0%nat raw_group = Some src /\
    content src = Table tb /\
    find_name "events" (group (final run))
    = Some (Child "events" 2 (Table (ProcessedTable rows))) /\
    (forall events, tb = EventsTable events ->
       Forall (fun r => row_t r = row_t (@fresh_row sample_collaborators))
         rows) /\
    (forall processed, tb = ProcessedTable processed ->
       map row_t rows = map row_t processed).
Proof.
  cbv zeta.
  apply (@without_traces_nothing_is_decoded sample_collaborators None false
           None (raw_pipeline ProcessEventsWithoutTraces [])).
  - apply wf_raw_pipeline.
  - reflexivity.
  - vm_compute. reflexivity.
Defined.

(* ================================================================== *)
(** ** The trace accessors and the limit *)

Section TraceColumns.

Context {collaborators : Collaborators}.

Lemma get_trace_log idx s :
  final (_get_trace idx s) = with_decoded (idx :: decoded s) s.
Proof.
  unfold _get_trace. unfold bind, modify, get. cbn [group with_decoded].
  destruct (find_name "blobs" (group s)) as [c|]; [|reflexivity].
  cbn [of_option lift ret].
  destruct (blob_at (content c) idx) as [blob|]; [|reflexivity].
  cbn [lift ret].
  destruct (zlib_decompress blob) as [text|]; [|reflexivity].
  cbn [of_option lift ret].
  destruct (parse_trace text); reflexivity.
Qed.

Lemma get_trace_loop_log idxs : forall s trs s',
  for_each _get_trace idxs s = Ok trs s' ->
  s' = with_decoded (rev idxs ++ decoded s) s.
Proof.
  induction idxs as [|idx rest IH]; intros s trs s' Hrun.
  - injection Hrun as _ <-. symmetry. apply with_decoded_same.
  - cbn [for_each] in Hrun. unfold bind at 1 in Hrun.
    pose proof (get_trace_log idx s) as Hlog.
    destruct (_get_trace idx s) as [tr s1|]; [|discriminate].
    cbn [final] in Hlog. subst s1. unfold bind at 1 in Hrun.
    destruct (for_each _get_trace rest _) as [trs' s2|] eqn:Erest;
      [|discriminate].
    apply IH in Erest. injection Hrun as _ <-. subst s2.
    rewrite decoded_with_decoded, with_decoded_twice. cbn [rev].
    rewrite <- app_assoc. reflexivity.
Qed.

Lemma nth_error_transpose w : forall rows j,
  (j < w)%nat ->
  nth_error (transpose w rows) j = Some (map (fun r => nth j r 0) rows).
Proof.
  induction w as [|w IH]; intros rows j Hj; [lia|].
  cbn [transpose]. destruct j as [|j]; cbn [nth_error].
  - f_equal. apply map_ext. intros [|a r]; reflexivity.
  - rewrite IH by lia. rewrite map_map. f_equal. apply map_ext.
    intros [|a r]; [destruct j|]; reflexivity.
Qed.

Lemma length_transpose w : forall rows, List.length (transpose w rows) = w.
Proof.
  induction w as [|w IH]; intros rows; [reflexivity|].
  cbn [transpose List.length]. rewrite IH. reflexivity.
Qed.

Lemma array_T_same_length traces L :
  traces <> [] -> Forall (fun tr => List.length tr = L) traces ->
  array_T traces = transpose L traces.
Proof.
  intros Hne Hall. destruct traces as [|first rest]; [contradiction|].
  unfold array_T.
  assert (HL : List.length first = L) by (inversion Hall; assumption).
  rewrite HL.
  replace (forallb _ (first :: rest)) with true; [reflexivity|].
  symmetry. apply forallb_forall. intros tr Htr.
  rewrite Forall_forall in Hall. apply Nat.eqb_eq, Hall, Htr.
Qed.

End TraceColumns.

(** X12: [get_traces_for_event] calls the decoder for the trace indexes of
    the event that are not negative, in detector order, and for no other.
    When the decoded traces have one length [L] the result has [L] rows,
    and row [j] holds sample [j] of every decoded trace: the traces are
    the columns.  With no trace at all the result is empty. *)
Theorem get_traces_for_event_columns
  {collaborators : Collaborators} (ev : event) (s s' : state)
  (result : list (list Z)) :
  get_traces_for_event ev s = Ok result s' ->
  let wanted := filter (fun idx => negb (idx <? 0)) (det4_list (traces ev)) in
  s' = with_decoded (rev wanted ++ decoded s) s /\
  exists decoded_traces,
    Forall2 (fun idx tr => value_of (_get_trace idx s) = Done tr)
      wanted decoded_traces /\
    (wanted = [] -> result = []) /\
    forall L,
      wanted <> [] ->
      Forall (fun tr => List.length tr = L) decoded_traces ->
      List.length result = L /\
      forall j, (j < L)%nat ->
        nth_error result j
        = Some (map (fun tr => nth j tr 0) decoded_traces).
Proof.
  intros Hrun wanted. unfold get_traces_for_event in Hrun.
  fold wanted in Hrun.
  unfold bind at 1 in Hrun.
  destruct (for_each _get_trace wanted s) as [trs s1|] eqn:Eloop;
    [|discriminate].
  injection Hrun as <- <-.
  split; [apply (get_trace_loop_log _ _ _ _ Eloop)|].
  destruct (for_each_reader _ _ reader_get_trace _ _ _ Eloop) as [Hall _].
  exists trs. split; [exact Hall|]. split.
  - intros Hnone. rewrite Hnone in Hall. inversion Hall. reflexivity.
  - intros L Hsome Hlen.
    assert (Hne : trs <> []).
    { intros ->. inversion Hall as [Hw|]. congruence. }
    rewrite (array_T_same_length trs L Hne Hlen).
    split; [apply length_transpose|].
    intros j Hj. apply nth_error_transpose, Hj.
Qed.

Lemma get_traces_for_event_columns_witness :
  exists result,
    @get_traces_for_event sample_collaborators
      (Event (Det4 200 200 200 200) (Det4 305 305 0 0) (Det4 0 0 0 0)
             (Det4 0 (-1) 0 (-1)))
      (raw_pipeline ProcessEvents [])
    = Ok result (with_decoded [0; 0] (raw_pipeline ProcessEvents [])) /\
    List.length result = 4%nat /\
    nth_error result 2 = Some [230; 230].
Proof.
  destruct (@get_traces_for_event sample_collaborators
              (Event (Det4 200 200 200 200) (Det4 305 305 0 0) (Det4 0 0 0 0)
                     (Det4 0 (-1) 0 (-1)))
              (raw_pipeline ProcessEvents [])) as [result s'|e s'] eqn:Erun.
  - destruct (@get_traces_for_event_columns sample_collaborators _ _ _ _ Erun)
      as [Hs [trs [Hall [_ Hshape]]]].
    cbn in Hall.
    inversion Hall as [|i0 t0 l0 m0 H0 Hrest]; subst.
    inversion Hrest as [|i1 t1 l1 m1 H1 Hnil]; subst.
    inversion Hnil; subst.
    vm_compute in H0. injection H0 as <-.
    vm_compute in H1. injection H1 as <-.
    destruct (Hshape 4%nat) as [Hlen Hrows].
    + cbn. discriminate.
    + repeat constructor.
    + exists result. split; [reflexivity|].
      split; [exact Hlen|]. apply (Hrows 2%nat). lia.
  - exfalso. vm_compute in Erun. discriminate.
Defined.

Section AccessorFacts.

Context {collaborators : Collaborators}.

Lemma py_index_out {A} (l : list A) idx :
  idx < - Z.of_nat (List.length l) \/ Z.of_nat (List.length l) <= idx ->
  py_index l idx = None.
Proof.
  intros H. unfold py_index.
  destruct (Z.ltb_spec idx (- Z.of_nat (List.length l))) as [Hlow|Hlow];
    [reflexivity|].
  destruct (Z.ltb_spec idx 0) as [Hneg|Hneg]; [lia|].
  apply nth_error_None. lia.
Qed.



End AccessorFacts.



Section Limit.

Context {collaborators : Collaborators}.

Lemma source_table_with_limit limit s src :
  source_table s = Ok src s ->
  source_table (with_limit limit s) = Ok src (with_limit limit s).
Proof.
  cbv [source_table bind get deref ret raise].
  cbn [group self_source with_limit].
  destruct (find_ident (self_source s) (group s)) as [c|]; [|discriminate].
  destruct (content c); [|discriminate].
  intros [= ->]. reflexivity.
Qed.

End Limit.

(** X14: [ProcessEvents.process_traces(limit)] keeps a limit that is given
    and not zero in [self.limit]; with no limit, or zero, the limit of an
    earlier call stays in force.  When the method ends normally it returns
    one row of timings for each of the first that many events of the
    source (for all of them without a limit), and it has changed nothing
    but [self.limit] and the record of decoder calls. *)
Theorem process_traces_keeps_its_limit
  {collaborators : Collaborators} (limit : option nat) (s s' : state)
  (src : table) (timings : list (det4 pyfloat)) :
  is_indexed (cls s) = false ->
  source_table s = Ok src s ->
  process_traces limit s = Ok timings s' ->
  let effective := if truthy limit then limit else self_limit s in
  self_limit s' = effective /\
  List.length timings
  = List.length (slice_to effective (table_events src)) /\
  s' = with_decoded (decoded s') (with_limit effective s).
Proof.
  intros Hcls Hsrc Hrun effective.
  unfold process_traces in Hrun. unfold bind at 1 in Hrun.
  unfold get at 1 in Hrun. cbv beta iota in Hrun. rewrite Hcls in Hrun.
  unfold process_traces_all in Hrun.
  assert (Hfirst : (if truthy limit then modify (with_limit limit)
                    else ret tt) s = Ok tt (with_limit effective s)).
  { unfold effective. destruct (truthy limit); [reflexivity|].
    unfold ret. f_equal. destruct s; reflexivity. }
  rewrite (bind_ok _ _ _ _ _ Hfirst) in Hrun.
  unfold bind at 1 in Hrun. unfold get at 1 in Hrun. cbv beta iota in Hrun.
  rewrite (bind_ok _ _ _ _ _ (source_table_with_limit effective s src Hsrc))
    in Hrun.
  change (self_limit (with_limit effective s)) with effective in Hrun.
  unfold _process_traces_from_event_list, bind in Hrun.
  destruct (for_each _reconstruct_time_from_traces _ _)
    as [result s1|] eqn:Eloop; [|discriminate].
  injection Hrun as <- <-.
  destruct (reconstruct_loop_log _ _ _ _ Eloop) as [-> Hlen].
  split; [reflexivity|]. split; [rewrite length_map; exact Hlen|].
  reflexivity.
Qed.

Lemma process_traces_keeps_its_limit_witness :
  let s := raw_pipeline ProcessEvents [] in
  exists t3 s3 t0 s0,
    @process_traces sample_collaborators (Some 3%nat) s = Ok t3 s3 /\
    self_limit s3 = Some 3%nat /\ List.length t3 = 3%nat /\
    @process_traces sample_collaborators (Some 0%nat) s3 = Ok t0 s0 /\
    self_limit s0 = Some 3%nat /\ List.length t0 = 3%nat.
Proof.
  cbv zeta.
  eassert (E3 : @process_traces sample_collaborators (Some 3%nat)
                  (raw_pipeline ProcessEvents []) = Ok _ _)
    by (vm_compute; reflexivity).
  match type of E3 with
  | _ = Ok ?t3 ?s3 =>
      exists t3, s3;
      eassert (E0 : @process_traces sample_collaborators (Some 0%nat) s3
                    = Ok _ _) by (vm_compute; reflexivity);
      destruct (@process_traces_keeps_its_limit sample_collaborators
                  (Some 3%nat) (raw_pipeline ProcessEvents []) s3
                  (EventsTable ten_events) t3 eq_refl eq_refl E3)
        as [Hl3 [Hn3 _]];
      match type of E0 with
      | _ = Ok ?t0 ?s0 =>
          exists t0, s0;
          destruct (@process_traces_keeps_its_limit sample_collaborators
                      (Some 0%nat) s3 s0 (EventsTable ten_events) t0
                      eq_refl eq_refl E0) as [Hl0 [Hn0 _]]
      end
  end.
  split; [exact E3|]. split; [exact Hl3|]. split; [exact Hn3|].
  split; [exact E0|]. split; [exact Hl0 | exact Hn0].
Defined.

(* ================================================================== *)
(** ** The shapes of the fit and degenerate histograms *)

Section FitShapes.

Context {collaborators : Collaborators}.

Lemma gauss_fit_loop_shape pulsecounts bins detectors : forall mpv r,
  gauss_fit_loop pulsecounts bins detectors mpv = Done r ->
  match r with
  | Mpv l => List.length l = (List.length mpv + List.length detectors)%nat
  | NoFit width fitParameters fitCovariance chiSquare =>
      (width <= inject_Z 40)%Q /\ fitParameters = zeros 3 /\
      fitCovariance = repeat (zeros 3) 3 /\ chiSquare = -1
  end.
Proof.
  induction detectors as [|i later IH]; intros mpv r Hrun.
  - injection Hrun as <-. simpl. lia.
  - cbn [gauss_fit_loop] in Hrun.
    destruct (_ <? 100); [discriminate|].
    destruct (getFitParameters _ _) as [[[peak minRange] maxRange]|];
      [|discriminate].
    cbn [rbind] in Hrun.
    destruct (Qle_bool (peak - minRange) (inject_Z 40)) eqn:Ewidth.
    + injection Hrun as <-. apply Qle_bool_iff in Ewidth. auto.
    + destruct (leastsq _ _ _) as [[[N mean] sigma]|]; [|discriminate].
      cbn [of_option rbind] in Hrun. apply IH in Hrun.
      destruct r as [l|]; [|exact Hrun].
      rewrite Hrun, length_app. simpl. lia.
Qed.

End FitShapes.

(** X15: [_pulse_gauss_fit] returns one of two things.  Either the list
    [mpv], which then has a value for each of the four detectors, and the
    division of the pulse heights by it gives one row for every event; or
    the triple of the early return, whose width is at most 40 and whose
    fit is all zeros with -1 as its chi-square, and then the division
    raises, whatever the other detectors hold. *)
Theorem pulse_gauss_fit_result_shapes
  {collaborators : Collaborators} (pulsecounts : list (det4 Z))
  (bins : list Z) (fit : gauss_fit) :
  _pulse_gauss_fit pulsecounts bins = Done fit ->
  (exists m1 m2 m3 m4 counts,
     fit = Mpv [m1; m2; m3; m4] /\
     divide_by_mpv pulsecounts fit = Done counts /\
     List.length counts = List.length pulsecounts) \/
  (exists width,
     fit = NoFit width (zeros 3) (repeat (zeros 3) 3) (-1) /\
     (width <= inject_Z 40)%Q /\
     divide_by_mpv pulsecounts fit
     = Fail (ValueError "operands could not be broadcast together")).
Proof.
  unfold _pulse_gauss_fit. destruct pulsecounts as [|first rest];
    [discriminate|].
  intros Hrun. apply gauss_fit_loop_shape in Hrun.
  destruct fit as [l|width p c chi].
  - left. cbn in Hrun.
    destruct l as [|m1 [|m2 [|m3 [|m4 [|m5 l]]]]]; try discriminate.
    exists m1, m2, m3, m4. eexists. split; [reflexivity|].
    split; [reflexivity|]. apply length_map.
  - right. destruct Hrun as [Hw [-> [-> ->]]].
    exists width. repeat split; auto.
Qed.

Lemma pulse_gauss_fit_result_shapes_witness :
  (exists m1 m2 m3 m4 counts,
     @_pulse_gauss_fit sample_collaborators (map pulseheights ten_events)
       (arange 0 5000 10) = Done (Mpv [m1; m2; m3; m4]) /\
     divide_by_mpv (map pulseheights ten_events) (Mpv [m1; m2; m3; m4])
     = Done counts /\
     List.length counts = 10%nat) /\
  (exists width,
     @_pulse_gauss_fit sample_collaborators narrow_first (arange 0 5000 10)
     = Done (NoFit width (zeros 3) (repeat (zeros 3) 3) (-1)) /\
     (width <= inject_Z 40)%Q).
Proof.
  split.
  - eassert (E : @_pulse_gauss_fit sample_collaborators
                   (map pulseheights ten_events) (arange 0 5000 10)
                 = Done _) by (vm_compute; reflexivity).
    destruct (@pulse_gauss_fit_result_shapes sample_collaborators _ _ _ E)
      as [[m1 [m2 [m3 [m4 [counts [Hfit [Hdiv Hlen]]]]]]]
         |[width [Hfit _]]]; [|discriminate Hfit].
    exists m1, m2, m3, m4, counts. rewrite <- Hfit.
    split; [exact E|]. split; [exact Hdiv | exact Hlen].
  - eassert (E : @_pulse_gauss_fit sample_collaborators narrow_first
                   (arange 0 5000 10) = Done _) by (vm_compute; reflexivity).
    destruct (@pulse_gauss_fit_result_shapes sample_collaborators _ _ _ E)
      as [[m1 [m2 [m3 [m4 [counts [Hfit _]]]]]]
         |[width [Hfit [Hwidth _]]]]; [discriminate Hfit|].
    exists width. rewrite <- Hfit. split; [exact E | exact Hwidth].
Defined.

Section Degenerate.

Lemma cut_index_last x : forall remaining k,
  (forall j, (k <= j < k + remaining)%nat ->
     exists xj, nth_error x j = Some xj /\ xj <= 120) ->
  (0 < remaining)%nat ->
  cut_index x k remaining = Done (Some (k + remaining - 1)%nat).
Proof.
  induction remaining as [|more IH]; intros k Hall Hpos; [lia|].
  cbn [cut_index].
  destruct (Hall k ltac:(lia)) as [xk [Hxk Hle]]. rewrite Hxk.
  destruct more as [|more'].
  - f_equal. f_equal. lia.
  - destruct (Z.ltb_spec 120 xk); [lia|].
    rewrite IH; [f_equal; f_equal; lia | | lia].
    intros j Hj. apply Hall. lia.
Qed.

Lemma py_index_some {A} (l : list A) (i : Z) :
  - Z.of_nat (List.length l) <= i < Z.of_nat (List.length l) ->
  exists a, py_index l i = Some a.
Proof.
  intros H. unfold py_index.
  destruct (Z.ltb_spec i (- Z.of_nat (List.length l))); [lia|].
  destruct (Z.ltb_spec i 0).
  - destruct (nth_error l (Z.to_nat (i + Z.of_nat (List.length l)))) eqn:E;
      [eauto|]. apply nth_error_None in E. lia.
  - destruct (nth_error l (Z.to_nat i)) eqn:E; [eauto|].
    apply nth_error_None in E. lia.
Qed.

End Degenerate.

(** X16: [getFitParameters] on degenerate input.  With fewer than two bin
    centres it raises [IndexError]; with two or more centres and at most
    five occurrences the smoothed list is empty, the loop that looks for
    the bin past 120 never binds its variable, and the assignment after it
    raises [UnboundLocalError].  And when none of the bins that match the
    smoothed values exceeds 120, the loop runs to its end and the last
    smoothed value is the one set to zero. *)
Theorem getFitParameters_degenerate_input (x y : list Z) :
  ((List.length x < 2)%nat -> getFitParameters x y = Fail IndexError) /\
  ((2 <= List.length x)%nat -> (List.length y <= 5)%nat ->
   getFitParameters x y = Fail UnboundLocalError) /\
  (forall y_smoothed,
     y_smoothed <> [] ->
     (forall j, (j < List.length y_smoothed)%nat ->
        exists xj, nth_error x j = Some xj /\ xj <= 120) ->
     cut_smoothed x y_smoothed
     = Done (set_nth y_smoothed (List.length y_smoothed - 1) 0)).
Proof.
  split; [|split].
  - intros Hx. unfold getFitParameters.
    destruct (py_index x 0) as [x0|]; [|reflexivity].
    cbn [of_option rbind].
    rewrite (py_index_out x 1) by (right; lia). reflexivity.
  - intros Hx Hy. unfold getFitParameters.
    destruct (py_index_some x 0) as [x0 ->]; [lia|].
    destruct (py_index_some x 1) as [x1 ->]; [lia|].
    destruct (py_index_some x (-1)) as [xl ->]; [lia|].
    cbn [of_option rbind].
    unfold smooth_forward. replace (List.length y - 5)%nat with 0%nat by lia.
    reflexivity.
  - intros ys Hne Hall. unfold cut_smoothed.
    rewrite (cut_index_last x (List.length ys) 0).
    + reflexivity.
    + intros j Hj. apply Hall. lia.
    + destruct ys; [contradiction | simpl; lia].
Qed.

Lemma getFitParameters_degenerate_input_witness :
  getFitParameters [5] [1; 2; 3; 4; 5; 6; 7] = Fail IndexError /\
  getFitParameters [5; 15; 25] [1; 2; 3; 4; 5] = Fail UnboundLocalError /\
  cut_smoothed [5; 15; 25] [7; 8] = Done [7; 0].
Proof.
  destruct (getFitParameters_degenerate_input [5] [1; 2; 3; 4; 5; 6; 7])
    as [Hshort _].
  destruct (getFitParameters_degenerate_input [5; 15; 25] [1; 2; 3; 4; 5])
    as [_ [Hempty Hlast]].
  split; [apply Hshort; simpl; lia|].
  split; [apply Hempty; simpl; lia|].
  apply (Hlast [7; 8]); [discriminate|].
  intros j Hj. destruct j as [|[|j]]; [| |simpl in Hj; lia].
  - exists 5. split; [reflexivity | lia].
  - exists 15. split; [reflexivity | lia].
Defined.

(* ================================================================== *)
(** ** Well-formed groups and processing again *)

Section WellFormed.

Context {collaborators : Collaborators}.

Lemma NoDup_name_without nm g :
  NoDup (map name g) -> NoDup (map name (without_name nm g)).
Proof.
  unfold without_name. induction g as [|a r IH]; simpl; [auto|].
  intros Hnd. apply NoDup_cons_iff in Hnd as [Hnotin Hnd].
  destruct (negb (String.eqb (name a) nm)); [|apply IH, Hnd].
  simpl. constructor; [|apply IH, Hnd].
  intros Hin. apply Hnotin. apply in_map_iff in Hin as [b [Hb Hin]].
  apply filter_In in Hin as [Hin _]. rewrite <- Hb. apply in_map, Hin.
Qed.

Lemma not_in_names_without nm g : ~ In nm (map name (without_name nm g)).
Proof.
  intros Hin. apply in_map_iff in Hin as [a [Ha Hin]].
  apply filter_In in Hin as [_ Hne].
  apply negb_true_iff, String.eqb_neq in Hne. contradiction.
Qed.

Lemma map_ident_rename_child h nm g :
  map ident (rename_child h nm g) = map ident g.
Proof.
  unfold rename_child. rewrite map_map. apply map_ext.
  intros a. destruct (Nat.eqb (ident a) h); reflexivity.
Qed.

Lemma NoDup_name_rename_child h nm g :
  NoDup (map ident g) -> NoDup (map name g) -> ~ In nm (map name g) ->
  NoDup (map name (rename_child h nm g)).
Proof.
  unfold rename_child. induction g as [|a r IH]; simpl; [auto|].
  intros Hids Hnames Hfree.
  apply NoDup_cons_iff in Hids as [Hid Hids].
  apply NoDup_cons_iff in Hnames as [Hname Hnames].
  assert (Hfree' : ~ In nm (map name r)) by tauto.
  destruct (Nat.eqb_spec (ident a) h) as [Ha|Ha].
  - (* the node itself: no later child has its identity *)
    assert (Hrest : map (fun c => if Nat.eqb (ident c) h
                                  then Child nm (ident c) (content c) else c) r
                    = r).
    { rewrite <- (map_id r) at 2. apply map_ext_in. intros b Hb.
      destruct (Nat.eqb_spec (ident b) h) as [Hbh|]; [|reflexivity].
      exfalso. apply Hid. rewrite Ha, <- Hbh. apply in_map, Hb. }
    rewrite Hrest. cbn [name]. constructor; assumption.
  - constructor; [|apply IH; assumption].
    intros Hin. apply in_map_iff in Hin as [b [Hb Hin]].
    apply in_map_iff in Hin as [b0 [Hb0 Hin]]. subst b.
    destruct (Nat.eqb (ident b0) h); cbn [name] in Hb.
    + apply Hfree. left. congruence.
    + apply Hname. rewrite <- Hb. apply in_map, Hin.
Qed.

Lemma in_group_false_names nm g :
  in_group nm g = false -> ~ In nm (map name g).
Proof.
  intros Hin Hnm. apply in_group_false in Hin.
  apply in_map_iff in Hnm as [a [Ha Hag]].
  unfold find_name in Hin.
  apply (find_none _ _ Hin) in Hag. apply String.eqb_neq in Hag.
  contradiction.
Qed.

Lemma NoDup_app_last {A} (l : list A) a :
  NoDup l -> ~ In a l -> NoDup (l ++ [a]).
Proof.
  intros Hl Ha. induction l as [|x r IH]; simpl.
  - constructor; [intros [] | constructor].
  - apply NoDup_cons_iff in Hl as [Hx Hr]. constructor.
    + intros Hin. apply in_app_or in Hin as [Hin|[<-|[]]];
        [contradiction | apply Ha; left; reflexivity].
    + apply IH; [exact Hr | intros Hin; apply Ha; right; exact Hin].
Qed.

Lemma wf_published s c d rows log :
  wf s -> find_ident (self_source s) (group s) = Some c ->
  (name c = "events"%string ->
   in_group "_events" (without_name "_t_events" (group s)) = false) ->
  wf (with_group (published c d (fresh s) rows (group s))
        (staged (with_destination (Some d) (with_limit None s))
           (fresh s) rows log)).
Proof.
  intros [Hnames [Hids Hfresh]] Hc Hfree.
  set (G0 := without_name "_t_events" (group s)) in *.
  assert (Hids0 : NoDup (map ident G0)) by (apply NoDup_ident_without, Hids).
  assert (Hnames0 : NoDup (map name G0))
    by (apply NoDup_name_without, Hnames).
  assert (Hfresh0 : Forall (fun a => (ident a < fresh s)%nat) G0)
    by (apply Forall_without, Hfresh).
  set (G1 := published_source c G0).
  assert (Hids1 : NoDup (map ident G1)).
  { unfold G1, published_source. destruct (String.eqb (name c) "events");
      [rewrite map_ident_rename_child|]; exact Hids0. }
  assert (Hnames1 : NoDup (map name G1)).
  { unfold G1, published_source.
    destruct (String.eqb_spec (name c) "events") as [He|He]; [|exact Hnames0].
    apply NoDup_name_rename_child; [exact Hids0 | exact Hnames0 |].
    apply in_group_false_names, Hfree, He. }
  assert (Hfresh1 : Forall (fun a => (ident a < fresh s)%nat) G1).
  { unfold G1, published_source. destruct (String.eqb (name c) "events");
      [apply (Forall_rename_child (fun i => (i < fresh s)%nat))|];
      exact Hfresh0. }
  unfold wf. cbn [group fresh with_group staged]. unfold published.
  fold G0. fold G1. rewrite !map_app. cbn [map name ident].
  split; [|split].
  - apply NoDup_app_last; [apply NoDup_name_without, Hnames1|].
    apply not_in_names_without.
  - apply NoDup_app_last; [apply NoDup_ident_without, Hids1|].
    intros Hin. apply in_map_iff in Hin as [a [Ha Hin]].
    apply filter_In in Hin as [Hin _].
    rewrite Forall_forall in Hfresh1. specialize (Hfresh1 a Hin). lia.
  - apply Forall_app. split.
    + apply Forall_without. eapply Forall_impl; [|exact Hfresh1].
      intros a Ha. cbn beta in *. lia.
    + constructor; [cbn [ident]; lia | constructor].
Qed.

Lemma wf_of_run destination overwrite limit s s' :
  wf s ->
  process_and_store_results destination overwrite limit s = Ok tt s' ->
  wf s'.
Proof.
  intros Hwf Hrun.
  destruct (run_ok destination overwrite limit s s' Hwf Hrun)
    as [c [rows [log [Hc [_ [_ [_ [_ [Hfree [_ ->]]]]]]]]]].
  exact (wf_published s c (destination_name destination) rows log Hwf Hc
           Hfree).
Qed.

End WellFormed.

(** X17: a run that ends normally keeps the group well formed: afterwards
    no two children share a name, no two share a node, and every node is
    older than the next one that the file will hand out. *)
Theorem run_keeps_the_group_well_formed
  {collaborators : Collaborators} (destination : option string)
  (overwrite : bool) (limit : option nat) (s s' : state) :
  wf s ->
  process_and_store_results destination overwrite limit s = Ok tt s' ->
  wf s'.
Proof. apply wf_of_run. Qed.

Lemma run_keeps_the_group_well_formed_witness :
  wf (final (@process_and_store_results sample_collaborators None false None
               (raw_pipeline ProcessEvents []))).
Proof.
  apply (@run_keeps_the_group_well_formed sample_collaborators None false None
           (raw_pipeline ProcessEvents [])).
  - apply wf_raw_pipeline.
  - vm_compute. reflexivity.
Defined.

Section Again.

Context {collaborators : Collaborators}.

Lemma Forall2_same_values {A B} (f g : A -> result B) (l : list A) :
  forall m1 m2,
    Forall2 (fun a b => f a = Done b) l m1 ->
    Forall2 (fun a b => g a = Done b) l m2 ->
    (forall a, f a = g a) -> m1 = m2.
Proof.
  induction l as [|a r IH]; intros m1 m2 H1 H2 Hfg.
  - inversion H1. inversion H2. reflexivity.
  - inversion H1 as [|a1 b1 r1 t1 Hb1 Hr1]; subst.
    inversion H2 as [|a2 b2 r2 t2 Hb2 Hr2]; subst.
    rewrite Hfg, Hb2 in Hb1. injection Hb1 as <-.
    f_equal. apply IH; assumption.
Qed.

(** Two staged runs that read alike store the same times. *)
Lemma store_results_alike sA hA cA sB hB cB tb rows logA logB
  rowsA logA' rowsB logB' :
  Forall (fun c => (ident c < hA)%nat) (group sA) ->
  NoDup (map ident (group sA)) ->
  find_ident (self_source sA) (group sA) = Some cA ->
  name cA <> "_t_events"%string -> content cA = Table tb ->
  Forall (fun c => (ident c < hB)%nat) (group sB) ->
  NoDup (map ident (group sB)) ->
  find_ident (self_source sB) (group sB) = Some cB ->
  name cB <> "_t_events"%string -> content cB = Table tb ->
  cls sB = cls sA -> self_indexes sB = self_indexes sA ->
  self_limit sB = self_limit sA ->
  find_name "blobs" (group sB) = find_name "blobs" (group sA) ->
  _store_results_from_traces (staged sA hA rows logA)
  = Ok tt (staged sA hA rowsA logA') ->
  _store_results_from_traces (staged sB hB rows logB)
  = Ok tt (staged sB hB rowsB logB') ->
  rowsA = rowsB.
Proof.
  intros HfA HnA HcA HnameA HtbA HfB HnB HcB HnameB HtbB Hcls Hidx Hlim
    Hblobs HrunA HrunB.
  assert (Halike : reads_alike (staged sA hA rows logA)
                     (staged sB hB rows logB)).
  { split.
    - rewrite !find_name_staged by discriminate. symmetry. exact Hblobs.
    - cbn [cls staged]. rewrite Hcls. reflexivity. }
  assert (Hval : forall ev,
            value_of (_reconstruct_time_from_traces ev
                        (staged sA hA rows logA))
            = value_of (_reconstruct_time_from_traces ev
                          (staged sB hB rows logB))).
  { intros ev. apply (proj2 (reader_reconstruct ev)), Halike. }
  destruct (without_traces (cls sA)) eqn:Htraces.
  - destruct (store_results_keeps_columns sA hA cA tb HfA HnA HcA HnameA HtbA
                _ _ _ _ HrunA) as [_ [_ HA]].
    destruct (store_results_keeps_columns sB hB cB tb HfB HnB HcB HnameB HtbB
                _ _ _ _ HrunB) as [_ [_ HB]].
    rewrite Hcls in HB.
    destruct (HA Htraces) as [-> _]. destruct (HB Htraces) as [-> _].
    reflexivity.
  - assert (HtracesB : without_traces (cls sB) = false)
      by (rewrite Hcls; exact Htraces).
    destruct (is_indexed (cls sA)) eqn:Hind.
    + assert (HindB : is_indexed (cls sB) = true)
        by (rewrite Hcls; exact Hind).
      destruct (store_results_indexed_staged sA hA cA HfA HnA HcA HnameA tb
                  HtbA Htraces _ _ _ Hind HrunA)
        as [evA [resA [lA [HseqA [HallA [_ HeqA]]]]]].
      destruct (store_results_indexed_staged sB hB cB HfB HnB HcB HnameB tb
                  HtbB HtracesB _ _ _ HindB HrunB)
        as [evB [resB [lB [HseqB [HallB [_ HeqB]]]]]].
      rewrite Hidx, HseqA in HseqB. injection HseqB as <-.
      apply staged_rows in HeqA, HeqB. subst rowsA rowsB.
      rewrite Hidx.
      rewrite (Forall2_same_values _ _ _ _ _ HallA HallB Hval).
      reflexivity.
    + assert (HindB : is_indexed (cls sB) = false)
        by (rewrite Hcls; exact Hind).
      destruct (store_results_all_staged sA hA cA HfA HnA HcA HnameA tb
                  HtbA Htraces _ _ _ Hind HrunA)
        as [resA [lA [HallA [_ HeqA]]]].
      destruct (store_results_all_staged sB hB cB HfB HnB HcB HnameB tb
                  HtbB HtracesB _ _ _ HindB HrunB)
        as [resB [lB [HallB [_ HeqB]]]].
      rewrite Hlim in HallB.
      apply staged_rows in HeqA, HeqB. subst rowsA rowsB.
      rewrite (Forall2_same_values _ _ _ _ _ HallA HallB Hval).
      reflexivity.
Qed.

End Again.

(** X18: processing again reproduces the results.  When a run with a
    destination other than [blobs] has ended normally and a second run of
    the same object, with the same destination and limit, ends normally
    too, the table that the second run publishes has the rows of the
    first: it is computed from the same source rows, which the first run
    kept or moved to [_events], not from the published results. *)
Theorem second_run_reproduces_the_results
  {collaborators : Collaborators} (destination : option string)
  (overwrite overwrite' : bool) (limit : option nat) (s s1 s2 : state) :
  wf s ->
  destination_name destination <> "blobs"%string ->
  process_and_store_results destination overwrite limit s = Ok tt s1 ->
  process_and_store_results destination overwrite' limit s1 = Ok tt s2 ->
  let d := destination_name destination in
  exists rows,
    find_name d (group s1)
    = Some (Child d (fresh s) (Table (ProcessedTable rows))) /\
    find_name d (group s2)
    = Some (Child d (fresh s1) (Table (ProcessedTable rows))).
Proof.
  intros Hwf Hblobs Hrun1 Hrun2 d. fold d in Hblobs.
  pose proof (wf_of_run destination overwrite limit s s1 Hwf Hrun1) as Hwf1.
  destruct (run_ok destination overwrite limit s s1 Hwf Hrun1)
    as [c1 [rows1 [log1 [Hc1 [Hn1 [Hdt [Hde [_ [Hfree1 [Hbefore1 Hs1]]]]]]]]]].
  destruct (run_ok destination overwrite' limit s1 s2 Hwf1 Hrun2)
    as [c2 [rows2 [log2 [Hc2 [Hn2 [_ [_ [_ [_ [Hbefore2 Hs2]]]]]]]]]].
  fold d in Hbefore1, Hbefore2, Hs1, Hs2, Hdt, Hde.
  destruct (before_publish_steps destination overwrite limit s c1 _ Hwf Hc1
              Hn1 Hbefore1)
    as [tb1 [len1 [r1 [l1 [np1 [Htb1 [Hlen1 [_ [Hstore1 [Hnp1 [_ Heq1]]]]]]]]]]].
  destruct (before_publish_steps destination overwrite' limit s1 c2 _ Hwf1 Hc2
              Hn2 Hbefore2)
    as [tb2 [len2 [r2 [l2 [np2 [Htb2 [Hlen2 [_ [Hstore2 [Hnp2 [_ Heq2]]]]]]]]]]].
  fold d in Hlen1, Hlen2, Hstore1, Hstore2, Heq1, Heq2.
  pose proof Hwf as [_ [Hids Hfresh]].
  pose proof Hwf1 as [_ [Hids1 Hfresh1]].
  destruct (find_ident_some _ _ _ Hc1) as [Hid1 _].
  (* the source of the second run has the content of the first *)
  assert (Hcontent : content c2 = content c1).
  { rewrite Hs1 in Hc2. cbn [self_source group with_group staged] in Hc2.
    cbn [self_source with_destination with_limit] in Hc2.
    rewrite <- Hid1 in Hc1, Hc2.
    rewrite (find_ident_published (group s) (fresh s) rows1 c1 d Hfresh Hids
               Hc1 Hn1 Hde) in Hc2.
    destruct (String.eqb (name c1) "events");
      [injection Hc2 as <-; reflexivity|].
    destruct (String.eqb (name c1) d); [discriminate|].
    injection Hc2 as <-. reflexivity. }
  rewrite Hcontent, Htb1 in Htb2. injection Htb2 as <-.
  rewrite Hnp1 in Hnp2. injection Hnp2 as <-.
  set (sA := with_destination (Some d) (with_limit limit s)) in *.
  set (sB := with_destination (Some d) (with_limit limit s1)) in *.
  assert (Hsame : len2 = len1).
  { unfold staging_length in Hlen1, Hlen2.
    change (self_limit sA) with limit in Hlen1.
    change (self_limit sB) with limit in Hlen2.
    change (find_ident (self_source sA) (group sA))
      with (find_ident (self_source s) (group s)) in Hlen1.
    change (find_ident (self_source sB) (group sB))
      with (find_ident (self_source s1) (group s1)) in Hlen2.
    rewrite Hc1 in Hlen1. rewrite Hc2 in Hlen2.
    cbn [option_map] in Hlen1, Hlen2. rewrite Hcontent in Hlen2.
    destruct limit as [[|k]|]; congruence. }
  subst len2.
  assert (Hblobs1 : find_name "blobs" (group sB)
                    = find_name "blobs" (group sA)).
  { change (group sB) with (group s1). change (group sA) with (group s).
    rewrite Hs1. cbn [group with_group]. unfold published.
    rewrite find_name_last_other by (cbn [name]; exact Hblobs).
    rewrite find_name_without by congruence.
    rewrite <- Hid1 in Hc1.
    apply find_name_published_staged; try assumption; try discriminate.
    intros _. split; discriminate. }
  assert (Hrows : r1 = r2).
  { apply (store_results_alike sA (fresh s) c1 sB (fresh s1) c2 tb1
             (copied_rows tb1 limit (repeat fresh_row len1))
             (decoded s) (decoded s1) r1 l1 r2 l2); try assumption.
    - rewrite Hcontent. exact Htb1.
    - change (cls sB) with (cls s1). rewrite Hs1. reflexivity.
    - change (self_indexes sB) with (self_indexes s1). rewrite Hs1.
      reflexivity.
    - reflexivity. }
  subst r2.
  apply staged_rows in Heq1, Heq2.
  exists rows1. rewrite Hs1 at 1. rewrite Hs2. cbn [group with_group].
  split; [apply find_name_published|].
  rewrite Heq2, <- Heq1. apply find_name_published.
Qed.

Lemma second_run_reproduces_the_results_witness :
  let first :=
    final (@process_and_store_results sample_collaborators None false None
             (raw_pipeline ProcessEventsWithLINT [])) in
  let second :=
    final (@process_and_store_results sample_collaborators None true None
             first) in
  exists rows,
    find_name "events" (group first)
    = Some (Child "events" 2 (Table (ProcessedTable rows))) /\
    find_name "events" (group second)
    = Some (Child "events" 3 (Table (ProcessedTable rows))).
Proof.
  cbv zeta.
  apply (@second_run_reproduces_the_results sample_collaborators None false
           true None (raw_pipeline ProcessEventsWithLINT [])).
  - apply wf_raw_pipeline.
  - discriminate.
  - vm_compute. reflexivity.
  - vm_compute. reflexivity.
Defined.

(* ================================================================== *)
(** ** The timing offsets *)

Section OffsetFacts.

Variable curve_fit :
  list Q -> list Z -> nat * pyfloat * pyfloat
  -> result (pyfloat * pyfloat * pyfloat).

Lemma offset_differences_filter rows idx :
  offset_differences rows idx
  = map (fun r => fsub (det4_nth idx (row_t r)) (d2 (row_t r)))
        (filter (fun r => fge0 (d2 (row_t r))
                          && fge0 (det4_nth idx (row_t r))) rows).
Proof.
  unfold offset_differences, compress.
  induction rows as [|r rest IH]; [reflexivity|].
  cbn [map zip_with combine filter fst].
  destruct (fge0 (d2 (row_t r)) && fge0 (det4_nth idx (row_t r)));
    cbn [map snd]; rewrite IH; reflexivity.
Qed.

Lemma filter_after_filter {A} (p keep : A -> bool) (l : list A) :
  (forall a, In a l -> keep a = false -> p a = false) ->
  filter p (filter keep l) = filter p l.
Proof.
  induction l as [|a r IH]; intros H; [reflexivity|].
  cbn [filter].
  assert (IH' := IH (fun x Hx => H x (or_intror Hx))).
  destruct (keep a) eqn:Ek.
  - cbn [filter]. rewrite IH'. reflexivity.
  - rewrite (H a (or_introl eq_refl) Ek). exact IH'.
Qed.

Lemma offset_differences_kept rows keep idx :
  (forall r, In r rows -> keep r = false -> fge0 (d2 (row_t r)) = false) ->
  offset_differences (filter keep rows) idx = offset_differences rows idx.
Proof.
  intros H. rewrite !offset_differences_filter. f_equal.
  apply filter_after_filter. intros r Hr Hk.
  rewrite (H r Hr Hk). reflexivity.
Qed.

Lemma offsets_loop_kept rows keep idxs :
  (forall r, In r rows -> keep r = false -> fge0 (d2 (row_t r)) = false) ->
  forall out offsets,
    offsets_loop curve_fit (filter keep rows) idxs out offsets
    = offsets_loop curve_fit rows idxs out offsets.
Proof.
  intros H. induction idxs as [|idx later IH]; intros out offsets;
    [reflexivity|].
  cbn [offsets_loop]. rewrite (offset_differences_kept rows keep idx H).
  destruct (curve_fit _ _ _) as [[[N mean] sigma]|e]; [apply IH | reflexivity].
Qed.

End OffsetFacts.

(** X19: [determine_detector_timing_offsets] takes no notice of a row
    whose time of detector 2 is negative, as the no-data value -999 is, or
    not a number: with or without such rows in the table it prints the
    same counts and returns the same list.  The list that it returns has
    four entries, the second of which, that of detector 2 itself, is 0. *)
Theorem timing_offsets_ignore_rows_without_t2
  (curve_fit : list Q -> list Z -> nat * pyfloat * pyfloat
               -> result (pyfloat * pyfloat * pyfloat))
  (timings_table : string) (s s' : state) (c c' : child)
  (rows : list row) (keep : row -> bool) :
  find_name timings_table (group s) = Some c ->
  content c = Table (ProcessedTable rows) ->
  find_name timings_table (group s') = Some c' ->
  content c' = Table (ProcessedTable (filter keep rows)) ->
  (forall r, In r rows -> keep r = false -> fge0 (d2 (row_t r)) = false) ->
  determine_detector_timing_offsets curve_fit timings_table s'
  = determine_detector_timing_offsets curve_fit timings_table s /\
  forall offsets,
    returned (determine_detector_timing_offsets curve_fit timings_table s)
    = inr offsets ->
    exists o1 o3 o4, offsets = [o1; Fin (inject_Z 0); o3; o4].
Proof.
  intros Hc Hrows Hc' Hrows' Hkeep.
  unfold determine_detector_timing_offsets.
  rewrite Hc, Hc', Hrows, Hrows'. split.
  - apply offsets_loop_kept, Hkeep.
  - intros offsets. cbn [offsets_loop].
    destruct (curve_fit _ _ _) as [[[N1 m1] s1]|e]; [|discriminate].
    destruct (curve_fit _ _ _) as [[[N3 m3] s3]|e]; [|discriminate].
    destruct (curve_fit _ _ _) as [[[N4 m4] s4]|e]; [|discriminate].
    cbn [returned app]. intros [= <-]. exists m1, m3, m4. reflexivity.
Qed.

Lemma timing_offsets_ignore_rows_without_t2_witness :
  let keep := fun r => fge0 (d2 (row_t r)) in
  determine_detector_timing_offsets sample_curve_fit "events"
    (processed_pipeline (filter keep timed_rows))
  = determine_detector_timing_offsets sample_curve_fit "events"
      (processed_pipeline timed_rows) /\
  printed (determine_detector_timing_offsets sample_curve_fit "events"
             (processed_pipeline timed_rows))
  = [Text "Determining offsets based on # events:";
     Number 1; Number 2; Number 2; Newline] /\
  exists o1 o3 o4,
    returned (determine_detector_timing_offsets sample_curve_fit "events"
                (processed_pipeline timed_rows))
    = inr [o1; Fin (inject_Z 0); o3; o4].
Proof.
  cbv zeta.
  destruct (timing_offsets_ignore_rows_without_t2 sample_curve_fit "events"
              (processed_pipeline timed_rows)
              (processed_pipeline
                 (filter (fun r => fge0 (d2 (row_t r))) timed_rows))
              (Child "events" 0 (Table (ProcessedTable timed_rows)))
              (Child "events" 0
                 (Table (ProcessedTable
                    (filter (fun r => fge0 (d2 (row_t r))) timed_rows))))
              timed_rows (fun r => fge0 (d2 (row_t r)))
              eq_refl eq_refl eq_refl eq_refl (fun r _ H => H))
    as [Hsame Hshape].
  split; [exact Hsame|]. split; [reflexivity|].
  destruct (Hshape _ eq_refl) as [o1 [o3 [o4 Hoffsets]]].
  exists o1, o3, o4. rewrite <- Hoffsets. reflexivity.
Defined.

(* ================================================================== *)
(** ** The rows of a full run *)

(** X20: the rows of the results of a run that processes every event with
    its traces.  Row [i] holds event [i] of the source; its arrival times
    are those that [_reconstruct_time_from_traces] gives for that event,
    in nanoseconds, with -999 for not-a-number; and its particle counts
    are row [i] of the pulse heights divided by the fitted values. *)
Theorem results_rows_of_a_full_run
  {collaborators : Collaborators} (destination : option string)
  (overwrite : bool) (limit : option nat) (s s' : state) :
  wf s ->
  is_indexed (cls s) = false -> without_traces (cls s) = false ->
  process_and_store_results destination overwrite limit s = Ok tt s' ->
  let d := destination_name destination in
  exists src tb rows counts,
    find_ident (self_source s) (group s) = Some src /\
    content src = Table tb /\
    find_name d (group s')
    = Some (Child d (fresh s) (Table (ProcessedTable rows))) /\
    particle_counts tb limit = Done counts /\
    List.length rows = List.length (slice_to limit (table_events tb)) /\
    forall i r, nth_error rows i = Some r ->
      exists ev times,
        nth_error (table_events tb) i = Some ev /\
        value_of (_reconstruct_time_from_traces ev s) = Done times /\
        r = Row ev (det4_map to_ns times)
              (nth i counts (row_n fresh_row)).
Proof.
  intros Hwf Hidx Htr Hrun d.
  destruct (run_ok destination overwrite limit s s' Hwf Hrun)
    as [c [rows [log [Hc [Hn [Hdt [_ [_ [_ [Hbefore ->]]]]]]]]]].
  fold d in Hbefore, Hdt |- *.
  destruct (before_publish_steps destination overwrite limit s c _ Hwf Hc Hn
              Hbefore)
    as [tb [len [rows1 [log1 [np [Htb [Hlen [Hshape [Hstore [Hnp [Hl1 Heq]]]]]]]]]]].
  fold d in Hlen, Hstore, Heq.
  pose proof Hwf as [_ [Hids Hfresh]].
  set (s1 := with_destination (Some d) (with_limit limit s)) in *.
  assert (Hc1 : find_ident (self_source s1) (group s1) = Some c) by exact Hc.
  set (rows0 := copied_rows tb limit (repeat fresh_row len)) in *.
  destruct (store_results_all_staged s1 (fresh s) c Hfresh Hids Hc1 Hn tb Htb
              Htr _ _ _ Hidx Hstore)
    as [result [log' [Hall [Hlen0 Heq1]]]].
  change (self_limit s1) with limit in Hall.
  apply staged_rows in Heq, Heq1. subst rows rows1.
  assert (Hsize : staging_length_of limit (List.length (table_events tb))
                  = len).
  { unfold staging_length in Hlen.
    change (self_limit s1) with limit in Hlen.
    change (find_ident (self_source s1) (group s1))
      with (find_ident (self_source s) (group s)) in Hlen.
    rewrite Hc in Hlen. cbn [option_map] in Hlen. rewrite Htb in Hlen.
    cbn [node_len] in Hlen.
    unfold staging_length_of. destruct limit as [[|k]|]; congruence. }
  pose proof (copied_rows_events tb limit len np Hsize Hshape Hnp) as Hevents.
  fold rows0 in Hevents.
  assert (HlenT : List.length
            (write_columns set_t rows0 (map (det4_map to_ns) result))
          = List.length rows0).
  { apply length_write_columns. rewrite length_map. exact Hlen0. }
  rewrite HlenT in Hl1.
  assert (Hrows0 : List.length rows0
                   = List.length (slice_to limit (table_events tb))).
  { rewrite <- Hevents, length_map. reflexivity. }
  exists c, tb. eexists. exists np.
  split; [exact Hc|]. split; [exact Htb|].
  cbn [group with_group]. split; [apply find_name_published|].
  split; [exact Hnp|].
  split.
  { rewrite length_write_columns by (rewrite HlenT; exact Hl1).
    rewrite HlenT. exact Hrows0. }
  intros i r Hr.
  assert (Hi : (i < List.length rows0)%nat).
  { rewrite <- HlenT.
    rewrite <- (length_write_columns set_n _ np)
      by (rewrite HlenT; exact Hl1).
    apply nth_error_Some. congruence. }
  destruct (nth_error rows0 i) as [r0|] eqn:Er0;
    [|apply nth_error_None in Er0; lia].
  assert (Hev : nth_error (slice_to limit (table_events tb)) i
                = Some (row_event r0)).
  { rewrite <- Hevents, nth_error_map, Er0. reflexivity. }
  destruct (Forall2_nth_error _ _ _ _ _ Hall Hev) as [t [Ht Hval]].
  destruct (nth_error np i) as [n|] eqn:En;
    [|apply nth_error_None in En; lia].
  assert (Htm : nth_error (map (det4_map to_ns) result) i
                = Some (det4_map to_ns t))
    by (rewrite nth_error_map, Ht; reflexivity).
  rewrite (nth_error_write_n _ _ _ _ _
             (nth_error_write_t _ _ _ _ _ Er0 Htm) En) in Hr.
  injection Hr as <-.
  exists (row_event r0), t. split; [|split].
  - rewrite <- (nth_error_slice_to limit (table_events tb) i);
      [exact Hev | rewrite <- Hrows0; exact Hi].
  - rewrite <- Hval. apply (proj2 (reader_reconstruct (row_event r0))).
    split.
    + symmetry.
      apply (find_name_staged "blobs" s1 (fresh s) rows0 (decoded s)).
      discriminate.
    + reflexivity.
  - f_equal. symmetry. apply nth_error_nth, En.
Qed.

Lemma results_rows_of_a_full_run_witness :
  let run :=
    @process_and_store_results sample_collaborators None false None
      (raw_pipeline ProcessEvents []) in
  exists src tb rows counts,
    find_ident 0%nat raw_group = Some src /\
    content src = Table tb /\
    find_name "events" (group (final run))
    = Some (Child "events" 2 (Table (ProcessedTable rows))) /\
    @particle_counts sample_collaborators tb None = Done counts /\
    List.length rows = List.length (table_events tb) /\
    forall i r, nth_error rows i = Some r ->
      exists ev times,
        nth_error (table_events tb) i = Some ev /\
        value_of (@_reconstruct_time_from_traces sample_collaborators ev
                    (raw_pipeline ProcessEvents [])) = Done times /\
        r = Row ev (det4_map to_ns times)
              (nth i counts (row_n (@fresh_row sample_collaborators))).
Proof.
  cbv zeta.
  apply (@results_rows_of_a_full_run sample_collaborators None false None
           (raw_pipeline ProcessEvents [])).
  - apply wf_raw_pipeline.
  - reflexivity.
  - reflexivity.
  - vm_compute. reflexivity.
Defined.
